(** * Blind-spot ADAS: tracker, threat classifier and alert cooldown

    A shallow embedding of [main.py] (classes [VehicleTracker],
    [AdaptiveBlindSpotZone], [AdvancedBlindSpotDetection]) and of
    [blind_spot_zones.py] (class [BlindSpotZone]), followed by the
    properties established about them.

    Numbers.  Pixel quantities are Python [int]s, modelled as [Z].
    Python [float]s (and numpy [float64]s) are IEEE-754 binary64 values,
    modelled by the Standard Library's [spec_float] at precision 53 and
    maximal exponent 1024, with its round-to-nearest-even operations.
    An integer is converted to a float by correct rounding, as Python
    does; Python raises [OverflowError] where the rounded value would be
    infinite (magnitude 2^1024 and above), a size no pixel coordinate
    reaches, and the model yields the infinity there.

    Exceptions.  The two exceptions the modelled code can raise on
    integers a double holds exactly, [ZeroDivisionError] (a frame of
    height 0) and [IndexError] (reading the last entry of an empty
    history), are made explicit in the result type [res].  The
    properties that say which exceptions a call raises, or that it
    raises none, are stated for numbers in range ([coord_in_range]),
    where no conversion, quotient or square overflows. *)

From Stdlib Require Import String ZArith List Bool Lia.
From Stdlib Require Import Floats.SpecFloat.
Import ListNotations.
Local Open Scope Z_scope.

(* ================================================================== *)
(** * Python values *)
(* ================================================================== *)

Inductive exn : Type :=
| ZeroDivisionError
| IndexError.

Inductive res (A : Type) : Type :=
| OK (a : A)
| Raise (e : exn).
Arguments OK {A} a.
Arguments Raise {A} e.

Definition bind {A B : Type} (r : res A) (k : A -> res B) : res B :=
  match r with
  | OK a => k a
  | Raise e => Raise e
  end.

Notation "x <- r ;; k" := (bind r (fun x => k))
  (at level 61, r at next level, right associativity).
Notation "' p <- r ;; k" := (bind r (fun x => let p := x in k))
  (at level 61, p pattern, r at next level, right associativity).

Module PyFloat.

Definition float : Type := spec_float.

Definition prec : Z := 53.
Definition emax : Z := 1024.

(** [float(n)]: the double nearest to [n]; an infinity where Python
    raises [OverflowError] (magnitude 2^1024 and above). *)
Definition of_int (n : Z) : float := binary_normalize prec emax n 0 false.

Definition add : float -> float -> float := SFadd prec emax.
Definition sub : float -> float -> float := SFsub prec emax.
Definition mul : float -> float -> float := SFmul prec emax.
Definition div : float -> float -> float := SFdiv prec emax.
Definition sqrt : float -> float := SFsqrt prec emax.
Definition ltb : float -> float -> bool := SFltb.
Definition leb : float -> float -> bool := SFleb.
Definition gtb (a b : float) : bool := ltb b a.

(** A decimal literal [n/d] of the source text, for example [0.35]
    as [lit 35 100]: the double nearest to the quotient. *)
Definition lit (n d : Z) : float := div (of_int n) (of_int d).

Definition inf : float := S754_infinity false.

(** [a / b] on two ints.  Python rounds the exact quotient once, and
    raises [OverflowError] when it does not fit a double; here the
    operands are converted first, which gives the same double when both
    have magnitude at most 2^53. *)
Definition int_truediv (a b : Z) : res float :=
  if b =? 0 then Raise ZeroDivisionError
  else OK (div (of_int a) (of_int b)).

(** Python compares an int with a float by value, without rounding
    the int. *)
Definition int_compare (n : Z) (f : float) : option comparison :=
  match f with
  | S754_nan => None
  | S754_infinity s => Some (if s then Gt else Lt)
  | S754_zero _ => Some (n ?= 0)
  | S754_finite s m e =>
      let v := cond_Zopp s (Zpos m) in
      Some match e with
           | Zneg p => (n * 2 ^ Zpos p ?= v)
           | _ => (n ?= v * 2 ^ e)
           end
  end.

Definition int_ltb (n : Z) (f : float) : bool :=
  match int_compare n f with Some Lt => true | _ => false end.
Definition int_gtb (n : Z) (f : float) : bool :=
  match int_compare n f with Some Gt => true | _ => false end.

(** [int(f)]: truncation towards zero.  Python raises on an infinity
    or a NaN; the constructors below only apply it to [c * n] with
    [0 < c < 1], which is finite. *)
Definition to_int (f : float) : Z :=
  match f with
  | S754_finite s m e =>
      cond_Zopp s (match e with
                   | Zneg p => Zpos m / 2 ^ Zpos p
                   | _ => Zpos m * 2 ^ e
                   end)
  | _ => 0
  end.

(** A float that is a number and not an infinity. *)
Definition is_finite (f : float) : bool :=
  match f with
  | S754_zero _ | S754_finite _ _ _ => true
  | _ => false
  end.

Definition is_nan (f : float) : bool :=
  match f with
  | S754_nan => true
  | _ => false
  end.

End PyFloat.

Import PyFloat.

(** Float arithmetic is computed on closed terms only. *)
Arguments of_int : simpl never.
Arguments lit : simpl never.
Arguments add : simpl never.
Arguments sub : simpl never.
Arguments mul : simpl never.
Arguments div : simpl never.
Arguments sqrt : simpl never.
Arguments ltb : simpl never.
Arguments leb : simpl never.
Arguments gtb : simpl never.
Arguments inf : simpl never.

(* ================================================================== *)
(** * Data model *)
(* ================================================================== *)

(** A bounding box [[x, y, w, h]]. *)
Record BBox : Type := mkBBox { bx : Z; by_ : Z; bw : Z; bh : Z }.

Inductive Side : Type := left | right.

Inductive Threat : Type := none | safe | warning | critical.

Inductive Lane : Type := same_lane | opposite_lane.

Definition Threat_eqb (a b : Threat) : bool :=
  match a, b with
  | none, none | safe, safe | warning, warning | critical, critical => true
  | _, _ => false
  end.

(** The dict built by [_get_tracked_vehicles].  The key ['positions'] is
    only present when the history has two entries or more. *)
Record TrackedVehicle : Type := mkTrackedVehicle {
  tv_id : Z;
  tv_bbox : BBox;
  tv_class : Z;
  tv_velocity : float * float;
  tv_history_length : nat;
  tv_positions : option (list BBox)
}.

(* ================================================================== *)
(** * [AdaptiveBlindSpotZone] *)
(* ================================================================== *)

Module AdaptiveBlindSpotZone.

Record t : Type := mk {
  width : Z;
  height : Z;
  side : Side;
  base_critical : Z * Z;
  base_warning : Z * Z;
  self_zone : Z * Z * Z * Z;
  lane_center : Z;
  lane_width : Z
}.

Definition __init__ (frame_width frame_height : Z) (sd : Side) : t :=
  let scaled (n d v : Z) := to_int (mul (lit n d) (of_int v)) in
  match sd with
  | left =>
      mk frame_width frame_height sd
         (0, scaled 35 100 frame_width)
         (scaled 35 100 frame_width, scaled 65 100 frame_width)
         (scaled 7 10 frame_width, scaled 6 10 frame_height,
          frame_width, frame_height)
         (frame_width / 2)
         (scaled 3 10 frame_width)
  | right =>
      mk frame_width frame_height sd
         (scaled 65 100 frame_width, frame_width)
         (scaled 35 100 frame_width, scaled 65 100 frame_width)
         (0, scaled 6 10 frame_height,
          scaled 3 10 frame_width, frame_height)
         (frame_width / 2)
         (scaled 3 10 frame_width)
  end.

Definition _is_in_self_zone (self : t) (bbox : BBox) : bool :=
  let '(mkBBox x y w h) := bbox in
  let center_x := x + w / 2 in
  let center_y := y + h / 2 in
  let '(sz_x1, sz_y1, sz_x2, sz_y2) := self_zone self in
  if ((sz_x1 <=? center_x) && (center_x <=? sz_x2))
     && ((sz_y1 <=? center_y) && (center_y <=? sz_y2))
  then true
  else false.

Definition _analyze_lane_position (self : t) (center_x : Z)
    (velocity : float * float) : Lane :=
  let '(vx, vy) := velocity in
  match side self with
  | left =>
      if int_gtb center_x (mul (lit 7 10) (of_int (width self))) then
        if ltb vx (of_int (-5)) then opposite_lane else same_lane
      else same_lane
  | right =>
      if int_ltb center_x (mul (lit 3 10) (of_int (width self))) then
        if gtb vx (of_int 5) then opposite_lane else same_lane
      else same_lane
  end.

Definition _analyze_motion (self : t) (bbox : BBox)
    (velocity : float * float) : Threat * string :=
  let '(mkBBox x y w h) := bbox in
  let center_x := x + w / 2 in
  let '(vx, vy) := velocity in
  let speed := sqrt (add (mul vx vx) (mul vy vy)) in
  let fallthrough := (safe, "No immediate threat"%string) in
  match side self with
  | left =>
      if ltb vx (of_int (-3)) then
        if center_x <? snd (base_critical self)
        then (critical, "Fast approach in blind spot"%string)
        else if center_x <? snd (base_warning self)
        then (warning, "Approaching blind spot"%string)
        else fallthrough
      else if gtb vx (of_int 3) then
        (safe, "Moving away"%string)
      else
        if center_x <? snd (base_critical self)
        then (critical, "Parallel in blind spot"%string)
        else if center_x <? snd (base_warning self)
        then (warning, "Parallel nearby"%string)
        else fallthrough
  | right =>
      if gtb vx (of_int 3) then
        if center_x >? fst (base_critical self)
        then (critical, "Fast approach in blind spot"%string)
        else if center_x >? fst (base_warning self)
        then (warning, "Approaching blind spot"%string)
        else fallthrough
      else if ltb vx (of_int (-3)) then
        (safe, "Moving away"%string)
      else
        if center_x >? fst (base_critical self)
        then (critical, "Parallel in blind spot"%string)
        else if center_x >? fst (base_warning self)
        then (warning, "Parallel nearby"%string)
        else fallthrough
  end.

Definition _analyze_distance (self : t) (bbox_height : Z) : res Threat :=
  height_ratio <- int_truediv bbox_height (height self) ;;
  if gtb height_ratio (lit 45 100) then OK critical
  else if gtb height_ratio (lit 3 10) then OK warning
  else OK safe.

Section Classify.

(** The image passed along; [classify_threat] never reads it. *)
Variable Frame : Type.

Definition classify_threat (self : t) (tracked_vehicle : TrackedVehicle)
    (frame : Frame) : res (Threat * string) :=
  let bbox := tv_bbox tracked_vehicle in
  let velocity := tv_velocity tracked_vehicle in
  let '(mkBBox x y w h) := bbox in
  let center_x := x + w / 2 in
  let center_y := y + h / 2 in
  (* 1. self-vehicle exclusion zone *)
  if _is_in_self_zone self bbox then
    OK (none, "In self-vehicle zone"%string)
  (* 2. vertical position filter *)
  else if int_ltb center_y (mul (lit 15 100) (of_int (height self)))
          || int_gtb center_y (mul (lit 85 100) (of_int (height self)))
  then OK (none, "Out of ROI (vertical)"%string)
  else
    (* 3. lane position *)
    let lane_status := _analyze_lane_position self center_x velocity in
    match lane_status with
    | opposite_lane => OK (none, "Opposite lane traffic"%string)
    | same_lane =>
        (* 4. distance proxy *)
        distance_threat <- _analyze_distance self h ;;
        (* 5. motion *)
        let '(motion_threat, reason) := _analyze_motion self bbox velocity in
        (* 6. combine *)
        if Threat_eqb distance_threat safe then
          OK (safe, "Distant vehicle"%string)
        else if Threat_eqb motion_threat none then
          OK (none, reason)
        else if Threat_eqb motion_threat critical
                || Threat_eqb distance_threat critical then
          OK (critical,
              if Threat_eqb distance_threat critical
              then "Very close"%string else reason)
        else if Threat_eqb motion_threat warning
                || Threat_eqb distance_threat warning then
          OK (warning,
              if Threat_eqb distance_threat warning
                 && Threat_eqb motion_threat safe
              then "Moderately close"%string else reason)
        else
          OK (safe, "No immediate threat"%string)
    end.

End Classify.

End AdaptiveBlindSpotZone.

(* ================================================================== *)
(** * [classify_threat] on the objects it is handed *)
(* ================================================================== *)

(** The classifier once more, as a program over the three objects a call
    can reach: the zone [self], the dict [tracked_vehicle] and the image
    [frame].  An attribute access [self.a] and a subscript
    [tracked_vehicle['k']] read the store; a computation returns the
    store it leaves together with its result, so that an assignment to
    an attribute or to a key would show in the store returned. *)
Module ClassifierObjects.

Section WithFrame.

Variable Frame : Type.

Record Store : Type := mkStore {
  self_obj : AdaptiveBlindSpotZone.t;
  tracked_vehicle_obj : TrackedVehicle;
  frame_obj : Frame
}.

Definition M (A : Type) : Type := Store -> Store * res A.

Definition ret {A : Type} (a : A) : M A := fun s => (s, OK a).

Definition mbind {A B : Type} (m : M A) (k : A -> M B) : M B :=
  fun s =>
    match m s with
    | (s', OK a) => k a s'
    | (s', Raise e) => (s', Raise e)
    end.

(** A result computed without the store, such as [a / b]. *)
Definition lift {A : Type} (r : res A) : M A := fun s => (s, r).

(** [self.a] *)
Definition attr {A : Type} (a : AdaptiveBlindSpotZone.t -> A) : M A :=
  fun s => (s, OK (a (self_obj s))).

(** [tracked_vehicle['k']] *)
Definition item {A : Type} (k : TrackedVehicle -> A) : M A :=
  fun s => (s, OK (k (tracked_vehicle_obj s))).

Notation "x <~ m ;; k" := (mbind m (fun x => k))
  (at level 61, m at next level, right associativity).

Definition _is_in_self_zone (bbox : BBox) : M bool :=
  let '(mkBBox x y w h) := bbox in
  let center_x := x + w / 2 in
  let center_y := y + h / 2 in
  self_zone <~ attr AdaptiveBlindSpotZone.self_zone ;;
  let '(sz_x1, sz_y1, sz_x2, sz_y2) := self_zone in
  if ((sz_x1 <=? center_x) && (center_x <=? sz_x2))
     && ((sz_y1 <=? center_y) && (center_y <=? sz_y2))
  then ret true
  else ret false.

Definition _analyze_lane_position (center_x : Z) (velocity : float * float)
    : M Lane :=
  let '(vx, vy) := velocity in
  side <~ attr AdaptiveBlindSpotZone.side ;;
  match side with
  | left =>
      width <~ attr AdaptiveBlindSpotZone.width ;;
      if int_gtb center_x (mul (lit 7 10) (of_int width)) then
        if ltb vx (of_int (-5)) then ret opposite_lane else ret same_lane
      else ret same_lane
  | right =>
      width <~ attr AdaptiveBlindSpotZone.width ;;
      if int_ltb center_x (mul (lit 3 10) (of_int width)) then
        if gtb vx (of_int 5) then ret opposite_lane else ret same_lane
      else ret same_lane
  end.

Definition _analyze_motion (bbox : BBox) (velocity : float * float)
    : M (Threat * string) :=
  let '(mkBBox x y w h) := bbox in
  let center_x := x + w / 2 in
  let '(vx, vy) := velocity in
  let speed := sqrt (add (mul vx vx) (mul vy vy)) in
  let fallthrough := ret (safe, "No immediate threat"%string) in
  side <~ attr AdaptiveBlindSpotZone.side ;;
  match side with
  | left =>
      if ltb vx (of_int (-3)) then
        base_critical <~ attr AdaptiveBlindSpotZone.base_critical ;;
        if center_x <? snd base_critical
        then ret (critical, "Fast approach in blind spot"%string)
        else
          base_warning <~ attr AdaptiveBlindSpotZone.base_warning ;;
          if center_x <? snd base_warning
          then ret (warning, "Approaching blind spot"%string)
          else fallthrough
      else if gtb vx (of_int 3) then
        ret (safe, "Moving away"%string)
      else
        base_critical <~ attr AdaptiveBlindSpotZone.base_critical ;;
        if center_x <? snd base_critical
        then ret (critical, "Parallel in blind spot"%string)
        else
          base_warning <~ attr AdaptiveBlindSpotZone.base_warning ;;
          if center_x <? snd base_warning
          then ret (warning, "Parallel nearby"%string)
          else fallthrough
  | right =>
      if gtb vx (of_int 3) then
        base_critical <~ attr AdaptiveBlindSpotZone.base_critical ;;
        if center_x >? fst base_critical
        then ret (critical, "Fast approach in blind spot"%string)
        else
          base_warning <~ attr AdaptiveBlindSpotZone.base_warning ;;
          if center_x >? fst base_warning
          then ret (warning, "Approaching blind spot"%string)
          else fallthrough
      else if ltb vx (of_int (-3)) then
        ret (safe, "Moving away"%string)
      else
        base_critical <~ attr AdaptiveBlindSpotZone.base_critical ;;
        if center_x >? fst base_critical
        then ret (critical, "Parallel in blind spot"%string)
        else
          base_warning <~ attr AdaptiveBlindSpotZone.base_warning ;;
          if center_x >? fst base_warning
          then ret (warning, "Parallel nearby"%string)
          else fallthrough
  end.

Definition _analyze_distance (bbox_height : Z) : M Threat :=
  height <~ attr AdaptiveBlindSpotZone.height ;;
  height_ratio <~ lift (int_truediv bbox_height height) ;;
  if gtb height_ratio (lit 45 100) then ret critical
  else if gtb height_ratio (lit 3 10) then ret warning
  else ret safe.

(** [classify_threat(tracked_vehicle, frame)]: the two arguments are the
    objects of the store. *)
Definition classify_threat : M (Threat * string) :=
  bbox <~ item tv_bbox ;;
  velocity <~ item tv_velocity ;;
  let '(mkBBox x y w h) := bbox in
  let center_x := x + w / 2 in
  let center_y := y + h / 2 in
  (* 1. self-vehicle exclusion zone *)
  in_self_zone <~ _is_in_self_zone bbox ;;
  if in_self_zone then ret (none, "In self-vehicle zone"%string)
  else
    (* 2. vertical position filter: [or] evaluates its second operand
       only when the first is false *)
    height <~ attr AdaptiveBlindSpotZone.height ;;
    if int_ltb center_y (mul (lit 15 100) (of_int height)) then
      ret (none, "Out of ROI (vertical)"%string)
    else
      height <~ attr AdaptiveBlindSpotZone.height ;;
      if int_gtb center_y (mul (lit 85 100) (of_int height)) then
        ret (none, "Out of ROI (vertical)"%string)
      else
        (* 3. lane position *)
        lane_status <~ _analyze_lane_position center_x velocity ;;
        match lane_status with
        | opposite_lane => ret (none, "Opposite lane traffic"%string)
        | same_lane =>
            (* 4. distance proxy *)
            distance_threat <~ _analyze_distance h ;;
            (* 5. motion *)
            motion <~ _analyze_motion bbox velocity ;;
            let '(motion_threat, reason) := motion in
            (* 6. combine *)
            if Threat_eqb distance_threat safe then
              ret (safe, "Distant vehicle"%string)
            else if Threat_eqb motion_threat none then
              ret (none, reason)
            else if Threat_eqb motion_threat critical
                    || Threat_eqb distance_threat critical then
              ret (critical,
                   if Threat_eqb distance_threat critical
                   then "Very close"%string else reason)
            else if Threat_eqb motion_threat warning
                    || Threat_eqb distance_threat warning then
              ret (warning,
                   if Threat_eqb distance_threat warning
                      && Threat_eqb motion_threat safe
                   then "Moderately close"%string else reason)
            else
              ret (safe, "No immediate threat"%string)
        end.

End WithFrame.

Arguments mkStore {Frame} self_obj tracked_vehicle_obj frame_obj.
Arguments self_obj {Frame} s.
Arguments tracked_vehicle_obj {Frame} s.
Arguments frame_obj {Frame} s.

End ClassifierObjects.

(* ================================================================== *)
(** * [VehicleTracker] *)
(* ================================================================== *)

(** One entry of the detector's output. *)
Record Detection : Type := mkDetection {
  det_bbox : BBox;
  det_confidence : float;
  det_class_id : Z
}.

(** [collections.deque] with a [maxlen]: appending to a full deque
    discards entries from the left. *)
Module Deque.

Record t : Type := mk { items : list BBox; maxlen : nat }.

Definition keep_last (n : nat) (l : list BBox) : list BBox :=
  skipn (length l - n) l.

(** [deque(init, maxlen=n)] *)
Definition make (init : list BBox) (n : nat) : t :=
  mk (keep_last n init) n.

Definition append (d : t) (x : BBox) : t :=
  mk (keep_last (maxlen d) (items d ++ [x])) (maxlen d).

Definition len (d : t) : nat := length (items d).

(** [d[-1]] and [d[-2]] *)
Definition last (d : t) : res BBox :=
  match rev (items d) with
  | x :: _ => OK x
  | [] => Raise IndexError
  end.

Definition last2 (d : t) : res BBox :=
  match rev (items d) with
  | _ :: x :: _ => OK x
  | _ => Raise IndexError
  end.

End Deque.

Record Track : Type := mkTrack {
  positions : Deque.t;
  last_seen : float;
  class : Z;
  confidence : float
}.

(** An insertion-ordered [dict] with integer keys. *)
Module Dict.

Definition t (V : Type) : Type := list (Z * V).

Definition keys {V} (d : t V) : list Z := map fst d.

Fixpoint get {V} (d : t V) (k : Z) : option V :=
  match d with
  | [] => None
  | (k', v) :: rest => if k' =? k then Some v else get rest k
  end.

(** [d[k] = v]: an existing key keeps its place, a new one goes last. *)
Fixpoint set {V} (d : t V) (k : Z) (v : V) : t V :=
  match d with
  | [] => [(k, v)]
  | (k', v') :: rest =>
      if k' =? k then (k', v) :: rest else (k', v') :: set rest k v
  end.

(** [del d[k]] *)
Definition del {V} (d : t V) (k : Z) : t V :=
  filter (fun kv => negb (fst kv =? k)) d.

(** In-place change of the value stored under [k]. *)
Definition update {V} (d : t V) (k : Z) (f : V -> V) : t V :=
  map (fun kv => if fst kv =? k then (fst kv, f (snd kv)) else kv) d.

End Dict.

Definition enumerate {A} (l : list A) : list (nat * A) :=
  combine (seq 0 (length l)) l.

Definition mem (i : nat) (s : list nat) : bool := existsb (Nat.eqb i) s.

(** [np.array([b[0] + b[2]/2, b[1] + b[3]/2])] *)
Definition center (b : BBox) : float * float :=
  (add (of_int (bx b)) (div (of_int (bw b)) (of_int 2)),
   add (of_int (by_ b)) (div (of_int (bh b)) (of_int 2))).

(** [np.linalg.norm(a - b)] on two points. *)
Definition norm_diff (a b : float * float) : float :=
  let dx := sub (fst a) (fst b) in
  let dy := sub (snd a) (snd b) in
  sqrt (add (mul dx dx) (mul dy dy)).

Module VehicleTracker.

Record t : Type := mk {
  tracks : Dict.t Track;
  next_id : Z;
  max_history : nat;
  max_disappeared : float
}.

Definition __init__ (max_history : nat) : t :=
  mk [] 0 max_history (of_int 1).

Definition with_tracks (self : t) (tr : Dict.t Track) : t :=
  mk tr (next_id self) (max_history self) (max_disappeared self).

Definition _create_track (self : t) (detection : Detection)
    (current_time : float) : t :=
  mk (Dict.set (tracks self) (next_id self)
        (mkTrack (Deque.make [det_bbox detection] (max_history self))
                 current_time
                 (det_class_id detection)
                 (det_confidence detection)))
     (next_id self + 1)
     (max_history self)
     (max_disappeared self).

Definition _update_track (self : t) (track_id : Z) (detection : Detection)
    (current_time : float) : t :=
  with_tracks self
    (Dict.update (tracks self) track_id
       (fun track =>
          mkTrack (Deque.append (positions track) (det_bbox detection))
                  current_time
                  (class track)
                  (det_confidence detection))).

Definition vehicle_of (tid : Z) (track : Track) : res TrackedVehicle :=
  if (Deque.len (positions track) <? 2)%nat then
    last <- Deque.last (positions track) ;;
    OK (mkTrackedVehicle tid last (class track)
          (of_int 0, of_int 0)
          (Deque.len (positions track))
          None)
  else
    curr <- Deque.last (positions track) ;;
    prev <- Deque.last2 (positions track) ;;
    let curr_center := center curr in
    let prev_center := center prev in
    let velocity := (sub (fst curr_center) (fst prev_center),
                     sub (snd curr_center) (snd prev_center)) in
    OK (mkTrackedVehicle tid curr (class track)
          velocity
          (Deque.len (positions track))
          (Some (Deque.items (positions track)))).

Fixpoint tracked_of (l : Dict.t Track) : res (list TrackedVehicle) :=
  match l with
  | [] => OK []
  | (tid, track) :: rest =>
      v <- vehicle_of tid track ;;
      vs <- tracked_of rest ;;
      OK (v :: vs)
  end.

Definition _get_tracked_vehicles (self : t) : res (list TrackedVehicle) :=
  tracked_of (tracks self).

(** The inner loop of [update]: the unmatched detection nearest to
    [last_center], within the matching radius.  [best_match] carries
    the detection found at the index along with the index. *)
Fixpoint closest (last_center : float * float) (matched : list nat)
    (dets : list (nat * Detection)) (min_dist : float)
    (best_match : option (nat * Detection)) : option (nat * Detection) :=
  match dets with
  | [] => best_match
  | (i, det) :: rest =>
      if mem i matched then
        closest last_center matched rest min_dist best_match
      else
        let dist := norm_diff last_center (center (det_bbox det)) in
        if ltb dist min_dist && ltb dist (of_int 100) then
          closest last_center matched rest dist (Some (i, det))
        else
          closest last_center matched rest min_dist best_match
  end.

(** The loop over [list(self.tracks.items())]. *)
Fixpoint match_tracks (snapshot : Dict.t Track)
    (detections : list Detection) (current_time : float)
    (self : t) (matched : list nat) : t * list nat :=
  match snapshot with
  | [] => (self, matched)
  | (tid, track) :: rest =>
      match Deque.last (positions track) with
      | Raise _ =>
          (* len(track['positions']) == 0: continue *)
          match_tracks rest detections current_time self matched
      | OK last_pos =>
          let last_center := center last_pos in
          match closest last_center matched (enumerate detections)
                  inf None with
          | Some (best_match, det) =>
              (* matched.add(best_match); self._update_track(...) *)
              match_tracks rest detections current_time
                (_update_track self tid det current_time)
                (best_match :: matched)
          | None =>
              if gtb (sub current_time (last_seen track))
                     (max_disappeared self)
              then
                (* del self.tracks[tid] *)
                match_tracks rest detections current_time
                  (with_tracks self (Dict.del (tracks self) tid)) matched
              else
                match_tracks rest detections current_time self matched
          end
      end
  end.

Fixpoint create_unmatched (dets : list (nat * Detection))
    (matched : list nat) (current_time : float) (self : t) : t :=
  match dets with
  | [] => self
  | (i, det) :: rest =>
      if mem i matched then
        create_unmatched rest matched current_time self
      else
        create_unmatched rest matched current_time
          (_create_track self det current_time)
  end.

Definition update (self : t) (detections : list Detection)
    (current_time : float) : t * res (list TrackedVehicle) :=
  match detections with
  | [] =>
      (with_tracks self
         (filter (fun kv =>
                    ltb (sub current_time (last_seen (snd kv)))
                        (max_disappeared self))
                 (tracks self)),
       OK [])
  | _ :: _ =>
      let self' :=
        match tracks self with
        | [] =>
            fold_left (fun s det => _create_track s det current_time)
                      detections self
        | _ :: _ =>
            let '(s, matched) :=
              match_tracks (tracks self) detections current_time self [] in
            create_unmatched (enumerate detections) matched current_time s
        end in
      (self', _get_tracked_vehicles self')
  end.

End VehicleTracker.

(* ================================================================== *)
(** * [AdvancedBlindSpotDetection]: per-frame aggregation and alerts *)
(* ================================================================== *)

(** A dict with the two keys ['left'] and ['right']. *)
Record PerSide (A : Type) : Type := mkPerSide { on_left : A; on_right : A }.
Arguments mkPerSide {A} on_left on_right.
Arguments on_left {A} p.
Arguments on_right {A} p.

Definition side_get {A} (p : PerSide A) (s : Side) : A :=
  match s with
  | left => on_left p
  | right => on_right p
  end.

Definition side_set {A} (p : PerSide A) (s : Side) (a : A) : PerSide A :=
  match s with
  | left => mkPerSide a (on_right p)
  | right => mkPerSide (on_left p) a
  end.

(** The level handed to [trigger_warning]. *)
Inductive AlertLevel : Type := CRITICAL | WARNING.

Module AdvancedBlindSpotDetection.

Record t : Type := mk {
  trackers : PerSide VehicleTracker.t;
  last_warning_time : PerSide float;
  warning_cooldown : float
}.

(** The fields of [__init__] that frame processing uses; the detector
    network, the class names and the sound are left out. *)
Definition __init__ : t :=
  mk (mkPerSide (VehicleTracker.__init__ 10) (VehicleTracker.__init__ 10))
     (mkPerSide (of_int 0) (of_int 0))
     (lit 15 10).

Record ThreatVehicle : Type := mkThreatVehicle {
  vehicle : TrackedVehicle;
  threat : Threat;
  reason : string
}.

(** What one call of [process_side_view] produces: the two flags it
    returns, the vehicles it hands to the drawing code, and the call of
    [trigger_warning] it makes, if any. *)
Record FrameResult : Type := mkFrameResult {
  critical_detected : bool;
  warning_detected : bool;
  threat_vehicles : list ThreatVehicle;
  alert : option AlertLevel
}.

Section Process.

Variable Frame : Type.

(** The loop "Analyze each tracked vehicle". *)
Fixpoint analyze (adaptive_zone : AdaptiveBlindSpotZone.t) (frame : Frame)
    (tracked_vehicles : list TrackedVehicle)
    (critical_detected warning_detected : bool)
    (threat_vehicles : list ThreatVehicle)
    : res (bool * bool * list ThreatVehicle) :=
  match tracked_vehicles with
  | [] => OK (critical_detected, warning_detected, threat_vehicles)
  | vehicle :: rest =>
      '(threat_level, reason) <-
        AdaptiveBlindSpotZone.classify_threat Frame adaptive_zone
          vehicle frame ;;
      match threat_level with
      | none =>
          analyze adaptive_zone frame rest
            critical_detected warning_detected threat_vehicles
      | critical =>
          analyze adaptive_zone frame rest true warning_detected
            (threat_vehicles
               ++ [mkThreatVehicle vehicle threat_level reason])
      | warning =>
          analyze adaptive_zone frame rest critical_detected true
            (threat_vehicles
               ++ [mkThreatVehicle vehicle threat_level reason])
      | safe =>
          analyze adaptive_zone frame rest
            critical_detected warning_detected
            (threat_vehicles
               ++ [mkThreatVehicle vehicle threat_level reason])
      end
  end.

(** The block "Trigger warnings": the alert fired, if any, and the
    state with that side's timestamp refreshed. *)
Definition trigger (self : t) (sd : Side) (current_time : float)
    (critical_detected warning_detected : bool)
    : t * option AlertLevel :=
  let fire (level : AlertLevel) :=
    (mk (trackers self)
        (side_set (last_warning_time self) sd current_time)
        (warning_cooldown self),
     Some level) in
  if critical_detected
     && gtb (sub current_time (side_get (last_warning_time self) sd))
            (warning_cooldown self)
  then fire CRITICAL
  else if warning_detected
          && gtb (sub current_time (side_get (last_warning_time self) sd))
                 (warning_cooldown self)
  then fire WARNING
  else (self, None).

(** [process_side_view].  [detections] is what [detect_vehicles]
    returned for the frame and [current_time] what [time.time()]
    returned; drawing is left out. *)
Definition process_side_view (self : t) (frame : Frame) (sd : Side)
    (adaptive_zone : AdaptiveBlindSpotZone.t)
    (detections : list Detection) (current_time : float)
    : t * res FrameResult :=
  let '(tracker, tracked) :=
    VehicleTracker.update (side_get (trackers self) sd)
      detections current_time in
  let self1 :=
    mk (side_set (trackers self) sd tracker)
       (last_warning_time self) (warning_cooldown self) in
  match tracked with
  | Raise e => (self1, Raise e)
  | OK tracked_vehicles =>
      match analyze adaptive_zone frame tracked_vehicles
              false false [] with
      | Raise e => (self1, Raise e)
      | OK (critical_detected, warning_detected, threat_vehicles) =>
          let '(self2, fired) :=
            trigger self1 sd current_time
              critical_detected warning_detected in
          (self2,
           OK (mkFrameResult critical_detected warning_detected
                 threat_vehicles fired))
      end
  end.

End Process.

End AdvancedBlindSpotDetection.

(* ================================================================== *)
(** * [BlindSpotZone]: the static zones of [blind_spot_zones.py] *)
(* ================================================================== *)

Module BlindSpotZone.

Record t : Type := mk {
  width : Z;
  height : Z;
  side : Side;
  critical_zone : Z * Z;
  warning_zone : Z * Z;
  safe_zone : Z * Z
}.

Definition __init__ (frame_width frame_height : Z) (sd : Side) : t :=
  let scaled (n d v : Z) := to_int (mul (lit n d) (of_int v)) in
  match sd with
  | left =>
      mk frame_width frame_height sd
         (0, scaled 4 10 frame_width)
         (scaled 4 10 frame_width, scaled 7 10 frame_width)
         (scaled 7 10 frame_width, frame_width)
  | right =>
      mk frame_width frame_height sd
         (scaled 6 10 frame_width, frame_width)
         (scaled 3 10 frame_width, scaled 6 10 frame_width)
         (0, scaled 3 10 frame_width)
  end.

Definition get_zone (self : t) (bbox : BBox) : Threat :=
  let '(mkBBox x y w h) := bbox in
  let center_x := x + w / 2 in
  if int_ltb y (mul (lit 2 10) (of_int (height self)))
     || int_gtb y (mul (lit 8 10) (of_int (height self)))
  then none
  else
    match side self with
    | left =>
        if center_x <=? snd (critical_zone self) then critical
        else if center_x <=? snd (warning_zone self) then warning
        else safe
    | right =>
        if center_x >=? fst (critical_zone self) then critical
        else if center_x >=? fst (warning_zone self) then warning
        else safe
    end.

End BlindSpotZone.

(* ================================================================== *)
(** * [process_single_camera]: one camera session *)
(* ================================================================== *)

Module Session.

Section WithFrame.

Variable Frame : Type.

(** What the outside world supplies for one turn of the loop: the frame
    [cap.read()] returned, what [detect_vehicles] found in it, what
    [time.time()] returned, and whether the key read by [cv2.waitKey]
    after the frame was ['q']. *)
Record FrameInput : Type := mkFrameInput {
  fi_frame : Frame;
  fi_detections : list Detection;
  fi_time : float;
  fi_quit : bool
}.

(** What a session leaves behind: the frame rate used for the writer,
    the final [frame_count], the result of every processed frame with
    its timestamp, in order, and the exception that ended the loop, if
    any. *)
Record Outcome : Type := mkOutcome {
  fps : Z;
  frame_count : Z;
  processed : list (float * AdvancedBlindSpotDetection.FrameResult);
  raised : option exn
}.

(** The [while True] loop; [frames] is what [cap.read()] yields before
    it reports the end of the stream. *)
Fixpoint loop (self : AdvancedBlindSpotDetection.t) (sd : Side)
    (adaptive_zone : AdaptiveBlindSpotZone.t) (frames : list FrameInput)
    (frame_count : Z)
    (processed : list (float * AdvancedBlindSpotDetection.FrameResult))
    : AdvancedBlindSpotDetection.t
      * (Z * list (float * AdvancedBlindSpotDetection.FrameResult)
         * option exn) :=
  match frames with
  | [] => (self, (frame_count, processed, None))
  | f :: rest =>
      match AdvancedBlindSpotDetection.process_side_view Frame self
              (fi_frame f) sd adaptive_zone (fi_detections f) (fi_time f)
      with
      | (self', Raise e) => (self', (frame_count, processed, Some e))
      | (self', OK r) =>
          let frame_count := frame_count + 1 in
          let processed := processed ++ [(fi_time f, r)] in
          if fi_quit f then (self', (frame_count, processed, None))
          else loop self' sd adaptive_zone rest frame_count processed
      end
  end.

(** [process_single_camera]: [opened] is [cap.isOpened()], the three
    integers are [int(cap.get(...))] for the frame rate, the width and
    the height.  Display and video writing are left out. *)
Definition process_single_camera (self : AdvancedBlindSpotDetection.t)
    (opened : bool) (fps_raw width height : Z) (sd : Side)
    (frames : list FrameInput)
    : AdvancedBlindSpotDetection.t * option Outcome :=
  if negb opened then (self, None)
  else
    let fps := if fps_raw <=? 0 then 30 else fps_raw in
    let adaptive_zone := AdaptiveBlindSpotZone.__init__ width height sd in
    let '(self', (n, p, e)) := loop self sd adaptive_zone frames 0 [] in
    (self', Some (mkOutcome fps n p e)).

End WithFrame.

End Session.

(* ================================================================== *)
(** * [video_simulator.py]: splitting a frame into two side views *)
(* ================================================================== *)

Module VideoSimulator.

Section WithPixel.

Variable Pixel : Type.

(** An image as its rows. *)
Definition Image : Type := list (list Pixel).

(** The position a slice bound [c] denotes in a sequence of length [n]:
    negative bounds count from the end, and the result is clipped to the
    sequence. *)
Definition slice_index (c : Z) (n : nat) : nat :=
  if c <? 0 then Z.to_nat (Z.max (Z.of_nat n + c) 0)
  else Z.to_nat (Z.min c (Z.of_nat n)).

(** [row[:c]] and [row[c:]] *)
Definition slice_to {A} (c : Z) (row : list A) : list A :=
  firstn (slice_index c (length row)) row.

Definition slice_from {A} (c : Z) (row : list A) : list A :=
  skipn (slice_index c (length row)) row.

(** [frame[:, :crop_width]] and [frame[:, crop_width:]] *)
Definition left_half (crop_width : Z) (frame : Image) : Image :=
  map (slice_to crop_width) frame.

Definition right_half (crop_width : Z) (frame : Image) : Image :=
  map (slice_from crop_width) frame.

(** What a conversion leaves behind: the size both writers were created
    with, the frames written to each, whether the capture and the writers
    were released, and the value returned or the exception raised. *)
Record Outcome : Type := mkOutcome {
  writer_size : Z * Z;
  written_left : list Image;
  written_right : list Image;
  released : bool;
  result : res bool
}.

(** The [while True] loop; the progress line is printed every 30
    frames. *)
Fixpoint loop (crop_width total_frames : Z) (frames : list Image)
    (frame_count : Z) (written_left written_right : list Image)
    : list Image * list Image * res Z :=
  match frames with
  | [] => (written_left, written_right, OK frame_count)
  | frame :: rest =>
      let left_frame := left_half crop_width frame in
      let right_frame := right_half crop_width frame in
      let written_left := written_left ++ [left_frame] in
      let written_right := written_right ++ [right_frame] in
      let frame_count := frame_count + 1 in
      if frame_count mod 30 =? 0 then
        match int_truediv frame_count total_frames with
        | Raise e => (written_left, written_right, Raise e)
        | OK ratio =>
            let progress := mul ratio (of_int 100) in
            loop crop_width total_frames rest frame_count
                 written_left written_right
        end
      else
        loop crop_width total_frames rest frame_count
             written_left written_right
  end.

(** [create_side_view_simulation]: [cap_opened] is [cap.isOpened()], the
    integers are [int(cap.get(...))] for the width, the height and the
    frame count, [writers_opened] tells whether both writers opened, and
    [frames] is what [cap.read()] yields. *)
Definition create_side_view_simulation (cap_opened : bool)
    (width height total_frames : Z) (writers_opened : bool)
    (frames : list Image) : Outcome :=
  let crop_width := width / 2 in
  if negb cap_opened then
    mkOutcome (crop_width, height) [] [] false (OK false)
  else if negb writers_opened then
    mkOutcome (crop_width, height) [] [] false (OK false)
  else
    match loop crop_width total_frames frames 0 [] [] with
    | (wl, wr, Raise e) => mkOutcome (crop_width, height) wl wr false (Raise e)
    | (wl, wr, OK frame_count) =>
        mkOutcome (crop_width, height) wl wr true (OK true)
    end.

End WithPixel.

End VideoSimulator.

(* ================================================================== *)
(** * Vocabulary of the properties *)
(* ================================================================== *)

(** ** Classifier *)

(** The centre of a box as the classifier computes it:
    [(x + w // 2, y + h // 2)]. *)
Definition bbox_center (b : BBox) : Z * Z :=
  (bx b + bw b / 2, by_ b + bh b / 2).

(** A point inside the closed rectangle [(x_min, y_min, x_max, y_max)]. *)
Definition in_rect (p : Z * Z) (r : Z * Z * Z * Z) : Prop :=
  let '(x1, y1, x2, y2) := r in
  (x1 <= fst p <= x2) /\ (y1 <= snd p <= y2).

(** The centre's vertical coordinate outside the classifier's region of
    interest, [0.15 * H] to [0.85 * H]. *)
Definition out_of_roi (self : AdaptiveBlindSpotZone.t) (b : BBox) : bool :=
  int_ltb (snd (bbox_center b))
          (mul (lit 15 100) (of_int (AdaptiveBlindSpotZone.height self)))
  || int_gtb (snd (bbox_center b))
             (mul (lit 85 100) (of_int (AdaptiveBlindSpotZone.height self))).

(** A large box inside the left camera's self-exclusion rectangle of an
    800 x 600 frame, closing in at 30 pixels per frame. *)
Definition vehicle_in_self_zone : TrackedVehicle :=
  mkTrackedVehicle 7 (mkBBox 600 300 200 300) 2
    (of_int (-30), of_int 0) 2 None.

(** A small, distant box in the critical band of an 800 x 400 frame,
    closing in fast. *)
Definition vehicle_distant : TrackedVehicle :=
  mkTrackedVehicle 0 (mkBBox 100 200 60 50) 2
    (of_int (-30), of_int 0) 2 None.

(** The same box at the top of the frame: its height ratio is 0.125. *)
Definition vehicle_distant_top : TrackedVehicle :=
  mkTrackedVehicle 0 (mkBBox 100 0 60 50) 2
    (of_int (-30), of_int 0) 2 None.

(** ** Tracker states *)

(** The identifiers of the live tracks, in creation order. *)
Definition track_ids (self : VehicleTracker.t) : list Z :=
  Dict.keys (VehicleTracker.tracks self).

(** Every live identifier is below [next_id] (and, the tracks being a
    dict, no identifier occurs twice). *)
Definition ids_below_next (self : VehicleTracker.t) : Prop :=
  NoDup (track_ids self)
  /\ forall k, In k (track_ids self) -> k < VehicleTracker.next_id self.

(** Every history was created with the tracker's capacity and holds no
    more entries than that. *)
Definition histories_bounded (self : VehicleTracker.t) : Prop :=
  forall k tr, In (k, tr) (VehicleTracker.tracks self) ->
    Deque.maxlen (positions tr) = VehicleTracker.max_history self
    /\ (Deque.len (positions tr) <= VehicleTracker.max_history self)%nat.

Definition same_config (s0 s : VehicleTracker.t) : Prop :=
  VehicleTracker.max_history s = VehicleTracker.max_history s0
  /\ VehicleTracker.max_disappeared s = VehicleTracker.max_disappeared s0.

(** The track [_create_track] stores for a detection. *)
Definition fresh_track (self : VehicleTracker.t) (d : Detection)
    (now : float) : Track :=
  mkTrack (Deque.make [det_bbox d] (VehicleTracker.max_history self))
          now (det_class_id d) (det_confidence d).

(** What the matching loop may do to the state: update or delete
    tracks, never add one or touch the counter. *)
Definition shrinks (s0 s : VehicleTracker.t) : Prop :=
  same_config s0 s
  /\ VehicleTracker.next_id s = VehicleTracker.next_id s0
  /\ (forall k, In k (track_ids s) -> In k (track_ids s0))
  /\ (NoDup (track_ids s0) -> NoDup (track_ids s))
  /\ (histories_bounded s0 -> histories_bounded s).

(** What creating tracks does: the identifiers from the old counter up
    to the new one are added, nothing below the old counter changes. *)
Definition grows (s0 s : VehicleTracker.t) : Prop :=
  same_config s0 s
  /\ VehicleTracker.next_id s0 <= VehicleTracker.next_id s
  /\ (forall k,
         In k (track_ids s)
         <-> In k (track_ids s0)
             \/ VehicleTracker.next_id s0 <= k < VehicleTracker.next_id s)
  /\ (NoDup (track_ids s0) -> NoDup (track_ids s))
  /\ (histories_bounded s0 -> histories_bounded s)
  /\ (forall k,
         k < VehicleTracker.next_id s0 ->
         Dict.get (VehicleTracker.tracks s) k
         = Dict.get (VehicleTracker.tracks s0) k).

(** ** Sequences of [update] calls *)

(** One call: the detections of the frame and its timestamp. *)
Definition call : Type := (list Detection * float)%type.

(** The tracker after one call, whatever the call returned or raised. *)
Definition step (self : VehicleTracker.t) (c : call) : VehicleTracker.t :=
  fst (VehicleTracker.update self (fst c) (snd c)).

Definition run (self : VehicleTracker.t) (cs : list call) : VehicleTracker.t :=
  fold_left step cs self.

(** The identifiers of the tracks a call created: those live after it
    that were not live before it. *)
Definition created_ids (before after : VehicleTracker.t) : list Z :=
  filter (fun k => negb (existsb (Z.eqb k) (track_ids before)))
         (track_ids after).

(** ** Matching and pruning *)

(** The idle time of a track at [now] is at least the timeout. *)
Definition idle_at_least (timeout now : float) (tr : Track) : bool :=
  leb timeout (sub now (last_seen tr)).

(** The centre of the detection [d] is farther than 100 pixels from the
    last known centre of every track of [self] that has a history. *)
Definition far_from_all (self : VehicleTracker.t) (d : Detection) : Prop :=
  forall k tr last_pos,
    In (k, tr) (VehicleTracker.tracks self) ->
    Deque.last (positions tr) = OK last_pos ->
    gtb (norm_diff (center last_pos) (center (det_bbox d))) (of_int 100)
    = true.

(** ** Alerts *)

Definition other_side (sd : Side) : Side :=
  match sd with
  | left => right
  | right => left
  end.

(** The time since the last alert fired on side [sd], as
    [process_side_view] computes it. *)
Definition since_last_alert (self : AdvancedBlindSpotDetection.t) (sd : Side)
    (now : float) : float :=
  sub now (side_get (AdvancedBlindSpotDetection.last_warning_time self) sd).

(** ** Static zones *)

(** The top edge [y] of the box outside the band [0.2 * H] to
    [0.8 * H]: the test [get_zone] makes. *)
Definition top_outside_band (self : BlindSpotZone.t) (b : BBox) : bool :=
  int_ltb (by_ b) (mul (lit 2 10) (of_int (BlindSpotZone.height self)))
  || int_gtb (by_ b) (mul (lit 8 10) (of_int (BlindSpotZone.height self))).

(** The vertical coordinate [y + h // 2] of the centre of the box outside
    the same band: the test the description of the static zones speaks
    of. *)
Definition center_outside_band (self : BlindSpotZone.t) (b : BBox) : bool :=
  int_ltb (snd (bbox_center b))
          (mul (lit 2 10) (of_int (BlindSpotZone.height self)))
  || int_gtb (snd (bbox_center b))
             (mul (lit 8 10) (of_int (BlindSpotZone.height self))).

(** ** The two-frame scenario on the left camera, 800 x 600 *)

Module Scenario.

Definition zone : AdaptiveBlindSpotZone.t :=
  AdaptiveBlindSpotZone.__init__ 800 600 left.

Definition bbox1 : BBox := mkBBox 100 300 60 200.
Definition bbox2 : BBox := mkBBox 70 300 60 200.

(** The vehicle [update] reports at frame 1 and at frame 2. *)
Definition vehicle1 (cls : Z) : TrackedVehicle :=
  mkTrackedVehicle 0 bbox1 cls (of_int 0, of_int 0) 1 None.

Definition vehicle2 (cls : Z) : TrackedVehicle :=
  mkTrackedVehicle 0 bbox2 cls (of_int (-30), of_int 0) 2
    (Some [bbox1; bbox2]).

(** The flags [process_side_view] returns. *)
Definition flags (r : res AdvancedBlindSpotDetection.FrameResult)
    : res (bool * bool) :=
  x <- r ;;
  OK (AdvancedBlindSpotDetection.critical_detected x,
      AdvancedBlindSpotDetection.warning_detected x).

End Scenario.

(** ** Concrete tracker states and calls *)

Module Instances.

Definition box_a : BBox := mkBBox 100 300 60 200.
Definition box_b : BBox := mkBBox 400 300 60 200.

Definition det_at (b : BBox) : Detection := mkDetection b (lit 9 10) 2.

(** Two tracks last seen at 9.5 and at 10.0. *)
Definition two_tracks : VehicleTracker.t :=
  VehicleTracker.mk
    [(0, mkTrack (Deque.make [box_a] 10) (lit 95 10) 2 (lit 9 10));
     (1, mkTrack (Deque.make [box_b] 10) (of_int 10) 2 (lit 9 10))]
    2 10 (of_int 1).

(** One track at [box_a]. *)
Definition one_track : VehicleTracker.t :=
  VehicleTracker.mk
    [(0, mkTrack (Deque.make [box_a] 10) (of_int 10) 2 (lit 9 10))]
    1 10 (of_int 1).

(** Three frames with one slowly moving box, for a tracker of
    capacity 2. *)
Definition three_calls : list call :=
  [([det_at box_a], of_int 10);
   ([det_at (mkBBox 101 300 60 200)], lit 101 10);
   ([det_at (mkBBox 102 300 60 200)], lit 102 10)].

End Instances.

(** ** The classifier's decision sequence *)

(** The ordering of the four levels. *)
Definition severity (t : Threat) : nat :=
  match t with
  | none => 0
  | safe => 1
  | warning => 2
  | critical => 3
  end.

(** The vehicle gets past the three filters of [classify_threat]: its
    centre is outside the self-exclusion rectangle and inside the region
    of interest, and it is not opposite-lane traffic. *)
Definition passes_filters (self : AdaptiveBlindSpotZone.t)
    (v : TrackedVehicle) : Prop :=
  AdaptiveBlindSpotZone._is_in_self_zone self (tv_bbox v) = false
  /\ out_of_roi self (tv_bbox v) = false
  /\ AdaptiveBlindSpotZone._analyze_lane_position self
       (fst (bbox_center (tv_bbox v))) (tv_velocity v) = same_lane.

(** The reason [classify_threat] gives past the filters, from the
    distance threat and the motion analysis. *)
Definition combined_reason (d m : Threat) (motion_reason : string) : string :=
  match d with
  | safe => "Distant vehicle"%string
  | critical => "Very close"%string
  | _ =>
      match m with
      | safe => "Moderately close"%string
      | _ => motion_reason
      end
  end.

(** A box in the critical band of an 800 x 600 frame, a third of the
    frame high, moving away to the right at 10 pixels per frame. *)
Definition vehicle_leaving : TrackedVehicle :=
  mkTrackedVehicle 3 (mkBBox 100 300 60 200) 2
    (of_int 10, of_int 0) 2 None.

(** ** Frame results and sessions *)

(** The entry [process_side_view] lists for a vehicle classified
    [(level, reason)]: none for the level [none]. *)
Definition listed (v : TrackedVehicle) (c : Threat * string)
    : list AdvancedBlindSpotDetection.ThreatVehicle :=
  match fst c with
  | none => []
  | _ => [AdvancedBlindSpotDetection.mkThreatVehicle v (fst c) (snd c)]
  end.

Definition has_level (l : Threat)
    (tv : AdvancedBlindSpotDetection.ThreatVehicle) : bool :=
  Threat_eqb (AdvancedBlindSpotDetection.threat tv) l.

(** The timestamps of the frames on which an alert fired. *)
Definition alert_times
    (processed : list (float * AdvancedBlindSpotDetection.FrameResult))
    : list float :=
  map fst
      (filter (fun p =>
                 match AdvancedBlindSpotDetection.alert (snd p) with
                 | Some _ => true
                 | None => false
                 end)
              processed).

(** Each time exceeds the one before it, and the first exceeds [last],
    by more than the cooldown. *)
Fixpoint spaced (cooldown last : float) (times : list float) : Prop :=
  match times with
  | [] => True
  | t :: rest => gtb (sub t last) cooldown = true /\ spaced cooldown t rest
  end.

(** The frames up to and including the first one followed by the quit
    key. *)
Fixpoint until_quit {Frame : Type} (frames : list (Session.FrameInput Frame))
    : list (Session.FrameInput Frame) :=
  match frames with
  | [] => []
  | f :: rest =>
      if Session.fi_quit Frame f then [f] else f :: until_quit rest
  end.

(** ** The order on floats *)

(** A number as a triple of integers whose lexicographic order is the
    order of the floats: the class (minus infinity, negative, zero,
    positive, plus infinity), then exponent and mantissa, negated for
    the negative numbers.  A NaN has no rank. *)
Definition float_rank (f : float) : option (Z * Z * Z) :=
  match f with
  | S754_nan => None
  | S754_infinity true => Some (-2, 0, 0)
  | S754_infinity false => Some (2, 0, 0)
  | S754_zero _ => Some (0, 0, 0)
  | S754_finite true m e => Some (-1, - e, - Zpos m)
  | S754_finite false m e => Some (1, e, Zpos m)
  end.

Definition rank_lt (a b : Z * Z * Z) : Prop :=
  let '(c1, x1, y1) := a in
  let '(c2, x2, y2) := b in
  c1 < c2 \/ (c1 = c2 /\ (x1 < x2 \/ (x1 = x2 /\ y1 < y2))).

(** ** What a call of [update] does to the tracks *)

(** The distance the matching loop computes between a track's last
    centre and a detection. *)
Definition dist_to (last_center : float * float) (d : Detection) : float :=
  norm_diff last_center (center (det_bbox d)).

(** What the inner loop of [update] knows after looking at the
    detections with index below [a]: either none of the unmatched ones
    is within the radius, or [best_match] is an unmatched one within the
    radius, [min_dist] is its distance, no unmatched one is strictly
    nearer, and every unmatched one before it within the radius is
    strictly farther. *)
Definition closest_so_far (last_center : float * float) (matched : list nat)
    (detections : list Detection) (a : nat) (min_dist : float)
    (best_match : option (nat * Detection)) : Prop :=
  match best_match with
  | None =>
      min_dist = inf
      /\ forall j dj,
          (j < a)%nat -> nth_error detections j = Some dj ->
          ~ In j matched ->
          ltb (dist_to last_center dj) (of_int 100) = false
  | Some (i, det) =>
      min_dist = dist_to last_center det
      /\ (i < a)%nat
      /\ nth_error detections i = Some det
      /\ ~ In i matched
      /\ ltb (dist_to last_center det) (of_int 100) = true
      /\ (forall j dj,
             (j < a)%nat -> nth_error detections j = Some dj ->
             ~ In j matched ->
             ltb (dist_to last_center dj) (dist_to last_center det) = false)
      /\ (forall j dj,
             (j < i)%nat -> nth_error detections j = Some dj ->
             ~ In j matched ->
             ltb (dist_to last_center dj) (of_int 100) = true ->
             ltb (dist_to last_center det) (dist_to last_center dj) = true)
  end.

(** The track a matched track becomes: the detection's box appended to
    the history, the timestamp and the confidence refreshed, the class
    kept. *)
Definition updated_track (tr : Track) (d : Detection) (now : float)
    : Track :=
  mkTrack (Deque.append (positions tr) (det_bbox d)) now
          (class tr) (det_confidence d).

(** The detection is less than 100 pixels from the track's last known
    centre. *)
Definition within_radius (tr : Track) (d : Detection) : Prop :=
  exists last_pos,
    Deque.last (positions tr) = OK last_pos
    /\ ltb (dist_to (center last_pos) d) (of_int 100) = true.

(** The indices of the detections the matching loop of a call assigns
    to existing tracks. *)
Definition matched_in_call (self : VehicleTracker.t)
    (detections : list Detection) (now : float) : list nat :=
  match VehicleTracker.tracks self with
  | [] => []
  | _ :: _ =>
      snd (VehicleTracker.match_tracks (VehicleTracker.tracks self)
             detections now self [])
  end.

(** The vehicle reported for a track: its identifier, class and history
    length, its last box, and as velocity zero for a history of one box
    and else the difference of the centres of the last two boxes. *)
Definition reports (kv : Z * Track) (v : TrackedVehicle) : Prop :=
  let tr := snd kv in
  tv_id v = fst kv
  /\ tv_class v = class tr
  /\ tv_history_length v = Deque.len (positions tr)
  /\ Deque.last (positions tr) = OK (tv_bbox v)
  /\ (Deque.len (positions tr) = 1%nat ->
      tv_velocity v = (of_int 0, of_int 0) /\ tv_positions v = None)
  /\ ((2 <= Deque.len (positions tr))%nat ->
      tv_positions v = Some (Deque.items (positions tr))
      /\ exists prev,
          Deque.last2 (positions tr) = OK prev
          /\ tv_velocity v
             = (sub (fst (center (tv_bbox v))) (fst (center prev)),
                sub (snd (center (tv_bbox v))) (snd (center prev)))).

(** Every track satisfies [P]. *)
Definition all_tracks (P : Track -> Prop) (self : VehicleTracker.t) : Prop :=
  forall k tr, In (k, tr) (VehicleTracker.tracks self) -> P tr.

(** A history made for capacity [mh] that holds at least one box. *)
Definition history_in_use (mh : nat) (tr : Track) : Prop :=
  Deque.maxlen (positions tr) = mh /\ (1 <= Deque.len (positions tr))%nat.

(** What has become of a track [tr] live before a call when it is
    [tr'] after it: left alone, or matched with a detection of the frame
    within the radius. *)
Definition kept_or_matched (detections : list Detection) (now : float)
    (tr tr' : Track) : Prop :=
  tr' = tr
  \/ exists d,
      In d detections /\ within_radius tr d /\ tr' = updated_track tr d now.

(** The track was last seen more than [timeout] before [now] and has a
    history. *)
Definition stale (timeout now : float) (tr : Track) : Prop :=
  gtb (sub now (last_seen tr)) timeout = true
  /\ (1 <= Deque.len (positions tr))%nat.

(** The displacement of the centre from box [a] to box [b], as
    [_get_tracked_vehicles] computes it. *)
Definition displacement (a b : BBox) : float * float :=
  (sub (fst (center b)) (fst (center a)),
   sub (snd (center b)) (snd (center a))).

(** ** Side views *)

(** The two halves put back together, row by row. *)
Definition recombine {Pixel : Type}
    (left_frame right_frame : VideoSimulator.Image Pixel)
    : VideoSimulator.Image Pixel :=
  map (fun p => fst p ++ snd p) (combine left_frame right_frame).

(** ** Further concrete states, frames and sessions *)

Module MoreInstances.

(** The track of [Instances.one_track]. *)
Definition track_a : Track :=
  mkTrack (Deque.make [Instances.box_a] 10) (of_int 10) 2 (lit 9 10).

(** The older of the two tracks of [Instances.two_tracks]. *)
Definition track_old : Track :=
  mkTrack (Deque.make [Instances.box_a] 10) (lit 95 10) 2 (lit 9 10).

(** A detection one pixel to the right of [Instances.box_a], one 30
    pixels to its left, and one far from both boxes of [Instances]. *)
Definition det_near : Detection :=
  Instances.det_at (mkBBox 101 300 60 200).

Definition det_left : Detection :=
  Instances.det_at (mkBBox 70 300 60 200).

Definition det_far : Detection :=
  Instances.det_at (mkBBox 700 100 40 60).

(** A tracker of capacity 2 that has seen [Instances.box_a] once. *)
Definition seen_once : VehicleTracker.t :=
  run (VehicleTracker.__init__ 2)
      [([Instances.det_at Instances.box_a], of_int 10)].

(** Three frames showing [Instances.box_a], at times 1000, 1000.5 and
    1002, none followed by the quit key. *)
Definition three_frames : list (Session.FrameInput unit) :=
  [Session.mkFrameInput unit tt [Instances.det_at Instances.box_a]
     (of_int 1000) false;
   Session.mkFrameInput unit tt [Instances.det_at Instances.box_a]
     (lit 10005 10) false;
   Session.mkFrameInput unit tt [Instances.det_at Instances.box_a]
     (of_int 1002) false].

End MoreInstances.

(** ** What a frame shows *)

(** Some vehicle of the list is classified at level [l]. *)
Definition frame_shows {Frame : Type} (zone : AdaptiveBlindSpotZone.t)
    (frame : Frame) (vs : list TrackedVehicle) (l : Threat) : Prop :=
  exists v reason,
    In v vs
    /\ AdaptiveBlindSpotZone.classify_threat Frame zone v frame
       = OK (l, reason).

(** Every vehicle of the list gets an answer: no classification
    raises. *)
Definition all_classified {Frame : Type} (zone : AdaptiveBlindSpotZone.t)
    (frame : Frame) (vs : list TrackedVehicle) : Prop :=
  forall v, In v vs ->
    exists c, AdaptiveBlindSpotZone.classify_threat Frame zone v frame = OK c.

(** ** Numbers in range *)

(** An integer of magnitude at most 2^53.  A double holds it exactly, so
    its conversion to a float, its quotient by another such integer and
    the squares of the differences of two such numbers neither round an
    operand nor overflow. *)
Definition coord_in_range (n : Z) : Prop :=
  -9007199254740992 <= n <= 9007199254740992.

Definition bbox_in_range (b : BBox) : Prop :=
  coord_in_range (bx b) /\ coord_in_range (by_ b)
  /\ coord_in_range (bw b) /\ coord_in_range (bh b).

(** The frame size of a zone in range. *)
Definition zone_in_range (self : AdaptiveBlindSpotZone.t) : Prop :=
  coord_in_range (AdaptiveBlindSpotZone.width self)
  /\ coord_in_range (AdaptiveBlindSpotZone.height self).

(** A velocity component of magnitude at most 2^55, which bounds the
    difference of the centres of two boxes in range. *)
Definition component_in_range (f : float) : Prop :=
  leb (of_int (-36028797018963968)) f = true
  /\ leb f (of_int 36028797018963968) = true.

Definition vehicle_in_range (v : TrackedVehicle) : Prop :=
  bbox_in_range (tv_bbox v)
  /\ component_in_range (fst (tv_velocity v))
  /\ component_in_range (snd (tv_velocity v)).

Definition detections_in_range (detections : list Detection) : Prop :=
  Forall (fun d => bbox_in_range (det_bbox d)) detections.

Definition calls_in_range (cs : list call) : Prop :=
  Forall (fun c => detections_in_range (fst c)) cs.

(** A box centred on the top edge of a frame of height 0, outside the
    left camera's self-exclusion rectangle. *)
Definition vehicle_on_edge : TrackedVehicle :=
  mkTrackedVehicle 0 (mkBBox 100 (-100) 60 200) 2
    (of_int 0, of_int 0) 1 None.

(* ================================================================== *)
(** * Facts about float comparison and subtraction *)
(* ================================================================== *)

Section FloatFacts.

Lemma SFcompare_antisym (a b : float) :
  SFcompare b a = option_map CompOpp (SFcompare a b).
Proof.
  destruct a as [sa|sa| |sa ma ea], b as [sb|sb| |sb mb eb]; simpl;
    try reflexivity;
    try (destruct sa; reflexivity);
    try (destruct sb; reflexivity);
    try (destruct sa, sb; reflexivity).
  pose proof (Pos.compare_cont_antisym ma mb Eq) as Hm.
  change (CompOpp Eq) with Eq in Hm.
  destruct sa, sb; cbn [option_map CompOpp]; try reflexivity;
    rewrite (Z.compare_antisym ea eb);
    destruct (ea ?= eb); cbn [CompOpp]; try reflexivity;
    rewrite <- Hm; try rewrite CompOpp_involutive; reflexivity.
Qed.

Lemma ltb_asym (a b : float) : ltb a b = true -> ltb b a = false.
Proof.
  unfold ltb, SFltb. rewrite (SFcompare_antisym a b).
  destruct (SFcompare a b) as [[ | | ]|]; simpl; congruence.
Qed.

Lemma ltb_leb (a b : float) : ltb a b = true -> leb a b = true.
Proof.
  unfold ltb, leb, SFltb, SFleb.
  destruct (SFcompare a b) as [[ | | ]|]; congruence.
Qed.

Lemma leb_not_gtb (a b : float) : leb a b = true -> gtb a b = false.
Proof.
  unfold gtb, ltb, leb, SFltb, SFleb. rewrite (SFcompare_antisym a b).
  destruct (SFcompare a b) as [[ | | ]|]; simpl; congruence.
Qed.

Lemma SFcompare_number (a b : float) :
  is_nan a = false -> is_nan b = false -> SFcompare a b <> None.
Proof.
  destruct a as [sa|sa| |sa ma ea], b as [sb|sb| |sb mb eb]; simpl;
    congruence.
Qed.

(** On numbers, "not less than" is "at least". *)
Lemma ltb_false_leb (a b : float) :
  is_nan a = false -> is_nan b = false ->
  (ltb a b = false <-> leb b a = true).
Proof.
  intros Ha Hb. pose proof (SFcompare_number a b Ha Hb) as Hc.
  unfold ltb, leb, SFltb, SFleb. rewrite (SFcompare_antisym a b).
  destruct (SFcompare a b) as [[ | | ]|]; simpl;
    split; congruence.
Qed.

(** Rounding a non-negative mantissa never yields a NaN. *)
Lemma shr_1_nonneg (mrs : shr_record) :
  0 <= shr_m mrs -> 0 <= shr_m (shr_1 mrs).
Proof.
  destruct mrs as [m r s]. simpl.
  destruct m as [|[p|p|]|p]; simpl; lia.
Qed.

Lemma iter_shr_1_nonneg (p : positive) (mrs : shr_record) :
  0 <= shr_m mrs -> 0 <= shr_m (iter_pos shr_1 p mrs).
Proof.
  revert mrs. induction p as [p IH|p IH|]; intros mrs H; simpl.
  - apply IH, IH, shr_1_nonneg, H.
  - apply IH, IH, H.
  - apply shr_1_nonneg, H.
Qed.

Lemma shr_fexp_nonneg (m e : Z) (l : location) :
  0 <= m -> 0 <= shr_m (fst (shr_fexp prec emax m e l)).
Proof.
  intros H. unfold shr_fexp, shr.
  assert (H0 : 0 <= shr_m (shr_record_of_loc m l))
    by (destruct l as [|[ | | ]]; simpl; exact H).
  destruct (fexp prec emax (Zdigits2 m + e) - e); simpl;
    try exact H0.
  apply iter_shr_1_nonneg, H0.
Qed.

Lemma round_nearest_even_nonneg (m : Z) (l : location) :
  0 <= m -> 0 <= round_nearest_even m l.
Proof.
  intros H. destruct l as [|[ | | ]]; simpl; try lia.
  destruct (Z.even m); lia.
Qed.

Lemma binary_round_aux_number (s : bool) (m e : Z) (l : location) :
  0 <= m -> is_nan (binary_round_aux prec emax s m e l) = false.
Proof.
  intros H. unfold binary_round_aux.
  pose proof (shr_fexp_nonneg m e l H) as H1.
  destruct (shr_fexp prec emax m e l) as [mrs' e']. simpl in H1.
  pose proof (shr_fexp_nonneg _ e' loc_Exact
                (round_nearest_even_nonneg _ (loc_of_shr_record mrs') H1))
    as H2.
  destruct (shr_fexp prec emax _ e' loc_Exact) as [mrs'' e'']. simpl in H2.
  destruct (shr_m mrs'') as [|q|q]; try reflexivity; try lia.
  destruct (e'' <=? emax - prec); reflexivity.
Qed.

Lemma binary_normalize_number (m e : Z) (sz : bool) :
  is_nan (binary_normalize prec emax m e sz) = false.
Proof.
  destruct m as [|p|p]; simpl; try reflexivity;
    unfold binary_round;
    destruct (shl_align p e _) as [mz ez];
    apply binary_round_aux_number; lia.
Qed.

(** The difference of two finite floats is a number. *)
Lemma sub_finite_number (a b : float) :
  is_finite a = true -> is_finite b = true -> is_nan (sub a b) = false.
Proof.
  destruct a as [sa|sa| |sa ma ea], b as [sb|sb| |sb mb eb]; simpl;
    try discriminate; intros _ _; try reflexivity.
  - destruct sa, sb; reflexivity.
  - apply binary_normalize_number.
Qed.

Lemma of_int_number (n : Z) : is_nan (of_int n) = false.
Proof. apply binary_normalize_number. Qed.

End FloatFacts.

(* ================================================================== *)
(** * Properties of the threat classifier *)
(* ================================================================== *)

Module ClassifierFacts.

Import AdaptiveBlindSpotZone.

Lemma _is_in_self_zone_spec (self : t) (b : BBox) :
  _is_in_self_zone self b = true <-> in_rect (bbox_center b) (self_zone self).
Proof.
  unfold _is_in_self_zone, in_rect, bbox_center.
  destruct b as [x y w h]; simpl.
  destruct (self_zone self) as [[[x1 y1] x2] y2].
  destruct (x1 <=? x + w / 2) eqn:E1, (x + w / 2 <=? x2) eqn:E2,
           (y1 <=? y + h / 2) eqn:E3, (y + h / 2 <=? y2) eqn:E4;
    simpl; split; intros H; try discriminate; try reflexivity;
    try (repeat split; lia); lia.
Qed.

(** The two constants of the distance proxy, as doubles. *)
Lemma lit_3_10 : lit 3 10 = S754_finite false 5404319552844595 (-54).
Proof. vm_compute. reflexivity. Qed.

Lemma lit_45_100 : lit 45 100 = S754_finite false 8106479329266893 (-54).
Proof. vm_compute. reflexivity. Qed.

(** A ratio of at most 0.30 is not above 0.45. *)
Lemma leb_030_not_gtb_045 (r : float) :
  leb r (lit 3 10) = true -> gtb r (lit 45 100) = false.
Proof.
  rewrite lit_3_10, lit_45_100.
  unfold leb, gtb, ltb, SFleb, SFltb.
  destruct r as [s|s| |s m e]; cbv beta iota delta [SFcompare];
    try reflexivity; try discriminate.
  - destruct s; congruence.
  - destruct s; try reflexivity.
    rewrite (Z.compare_antisym e (-54)).
    destruct (Z.compare_spec e (-54)) as [He|He|He]; cbn [CompOpp];
      try reflexivity; try discriminate.
    rewrite !Pos.compare_cont_spec.
    rewrite (Pos.compare_antisym m 8106479329266893).
    destruct (Pos.compare_spec m 5404319552844595) as [H1|H1|H1];
      cbn [Pos.switch_Eq]; try discriminate; intros _;
      destruct (Pos.compare_spec m 8106479329266893) as [H2|H2|H2];
      cbn [CompOpp Pos.switch_Eq]; try reflexivity.
    + subst m. vm_compute in H2. discriminate.
    + pose proof (Pos.lt_trans _ _ _ H2 H1) as H3.
      vm_compute in H3. discriminate.
Qed.

(** The distance proxy says "safe" for every ratio of at most 0.30. *)
Lemma _analyze_distance_safe (self : t) (h : Z) (r : float) :
  int_truediv h (height self) = OK r ->
  leb r (lit 3 10) = true ->
  _analyze_distance self h = OK safe.
Proof.
  intros Hr Hle. unfold _analyze_distance. rewrite Hr. cbn [bind].
  rewrite (leb_030_not_gtb_045 r Hle), (leb_not_gtb r _ Hle).
  reflexivity.
Qed.

End ClassifierFacts.

Module ObjectFacts.

Import ClassifierObjects.

Section WithFrame.

Variable Frame : Type.

(** Each method leaves the store as it found it and returns what the
    function of the zone's fields and of its arguments returns. *)
Lemma _is_in_self_zone_run (bbox : BBox) (s : Store Frame) :
  _is_in_self_zone Frame bbox s
  = (s, OK (AdaptiveBlindSpotZone._is_in_self_zone (self_obj s) bbox)).
Proof.
  unfold _is_in_self_zone, AdaptiveBlindSpotZone._is_in_self_zone.
  destruct bbox as [x y w h]. cbv [mbind attr ret].
  destruct (AdaptiveBlindSpotZone.self_zone (self_obj s)) as [[[a b] c] d].
  destruct (_ && _); reflexivity.
Qed.

Lemma _analyze_lane_position_run (center_x : Z) (velocity : float * float)
    (s : Store Frame) :
  _analyze_lane_position Frame center_x velocity s
  = (s, OK (AdaptiveBlindSpotZone._analyze_lane_position (self_obj s)
              center_x velocity)).
Proof.
  unfold _analyze_lane_position, AdaptiveBlindSpotZone._analyze_lane_position.
  destruct velocity as [vx vy]. cbv [mbind attr ret].
  destruct (AdaptiveBlindSpotZone.side (self_obj s));
    repeat match goal with
           | |- context [if ?c then _ else _] => destruct c
           end; reflexivity.
Qed.

Lemma _analyze_motion_run (bbox : BBox) (velocity : float * float)
    (s : Store Frame) :
  _analyze_motion Frame bbox velocity s
  = (s, OK (AdaptiveBlindSpotZone._analyze_motion (self_obj s)
              bbox velocity)).
Proof.
  unfold _analyze_motion, AdaptiveBlindSpotZone._analyze_motion.
  destruct bbox as [x y w h], velocity as [vx vy]. cbv [mbind attr ret].
  destruct (AdaptiveBlindSpotZone.side (self_obj s));
    repeat match goal with
           | |- context [if ?c then _ else _] => destruct c
           end; reflexivity.
Qed.

Lemma _analyze_distance_run (bbox_height : Z) (s : Store Frame) :
  _analyze_distance Frame bbox_height s
  = (s, AdaptiveBlindSpotZone._analyze_distance (self_obj s) bbox_height).
Proof.
  unfold _analyze_distance, AdaptiveBlindSpotZone._analyze_distance.
  cbv [mbind attr ret lift].
  destruct (int_truediv bbox_height (AdaptiveBlindSpotZone.height (self_obj s)))
    as [r|e]; cbn [bind]; [|reflexivity].
  repeat match goal with
         | |- context [if ?c then _ else _] => destruct c
         end; reflexivity.
Qed.

Lemma classify_threat_run (s : Store Frame) :
  classify_threat Frame s
  = (s, AdaptiveBlindSpotZone.classify_threat Frame (self_obj s)
          (tracked_vehicle_obj s) (frame_obj s)).
Proof.
  unfold classify_threat, AdaptiveBlindSpotZone.classify_threat.
  cbv [mbind item attr ret].
  destruct (tv_bbox (tracked_vehicle_obj s)) as [x y w h].
  rewrite _is_in_self_zone_run.
  destruct (AdaptiveBlindSpotZone._is_in_self_zone (self_obj s)
              (mkBBox x y w h)); [reflexivity|].
  destruct (int_ltb _ _); [reflexivity|].
  destruct (int_gtb _ _); [reflexivity|]. cbn [orb].
  rewrite _analyze_lane_position_run.
  destruct (AdaptiveBlindSpotZone._analyze_lane_position _ _ _);
    [|reflexivity].
  rewrite _analyze_distance_run.
  destruct (AdaptiveBlindSpotZone._analyze_distance (self_obj s) h)
    as [d|e]; [|reflexivity].
  cbn [bind]. rewrite _analyze_motion_run.
  destruct (AdaptiveBlindSpotZone._analyze_motion _ _ _) as [m r].
  repeat match goal with
         | |- context [if ?c then _ else _] => destruct c
         end; reflexivity.
Qed.

End WithFrame.

End ObjectFacts.

Section ClassifierProperties.

Import AdaptiveBlindSpotZone.

Variable Frame : Type.

(** C1.  Whenever the centre [(x + w // 2, y + h // 2)] of the
    vehicle's box lies inside the zone's self-exclusion rectangle,
    [classify_threat] answers [none] with the reason
    "In self-vehicle zone", whatever the velocity, the size of the box,
    the frame height and the outcome the later rules (region of
    interest, lane position, distance, motion) would have had: the
    check comes first. *)
Theorem classify_threat_self_zone_first
    (self : t) (v : TrackedVehicle) (frame : Frame) :
  in_rect (bbox_center (tv_bbox v)) (self_zone self) ->
  classify_threat Frame self v frame
  = OK (none, "In self-vehicle zone"%string).
Proof.
  intros H. apply ClassifierFacts._is_in_self_zone_spec in H.
  unfold classify_threat.
  destruct (tv_bbox v) as [x y w h] eqn:Eb.
  rewrite H. reflexivity.
Qed.

(** C2, as amended.  For a vehicle that passes the three filters
    (centre outside the self-exclusion rectangle, centre inside the
    vertical region of interest, not opposite-lane traffic) and whose
    height ratio [h / H] is at most 0.30, [classify_threat] answers
    [(safe, "Distant vehicle")], whatever the motion analysis says. *)
Theorem classify_threat_distance_dominates
    (self : t) (v : TrackedVehicle) (frame : Frame) (ratio : float) :
  _is_in_self_zone self (tv_bbox v) = false ->
  out_of_roi self (tv_bbox v) = false ->
  _analyze_lane_position self (fst (bbox_center (tv_bbox v)))
    (tv_velocity v) = same_lane ->
  int_truediv (bh (tv_bbox v)) (height self) = OK ratio ->
  leb ratio (lit 3 10) = true ->
  classify_threat Frame self v frame = OK (safe, "Distant vehicle"%string).
Proof.
  intros Hself Hroi Hlane Hratio Hle.
  pose proof (ClassifierFacts._analyze_distance_safe self _ ratio Hratio Hle)
    as Hd.
  unfold classify_threat.
  unfold out_of_roi, bbox_center in Hroi. unfold bbox_center in Hlane.
  destruct (tv_bbox v) as [x y w h] eqn:Eb.
  cbn [bx by_ bw bh fst snd] in *.
  rewrite Hself, Hroi, Hlane, Hd. cbn [bind].
  destruct (_analyze_motion self (mkBBox x y w h) (tv_velocity v))
    as [motion_threat reason].
  reflexivity.
Qed.

(** C10.  [classify_threat] only reads: whatever the zone, the vehicle
    and the frame it is handed, a call leaves all three as they were.
    Its answer (a level and a reason, or an exception) is a function of
    the zone and of the vehicle's [bbox] and [velocity] alone: a second
    call on the zone the first call left, for a vehicle that agrees with
    the first on these two fields, answers as the first did, whatever
    the frames passed along and whatever the ids, classes, history
    lengths and position lists of the two vehicles; and it is the answer
    of the function of zone and vehicle used in the other properties.
    The answer does vary with each of the three: there are vehicles that
    differ in velocity only, vehicles that differ in box only, and zones
    that differ in side only, with different answers. *)
Theorem classify_threat_depends_on_bbox_velocity :
  (forall s : ClassifierObjects.Store Frame,
      fst (ClassifierObjects.classify_threat Frame s) = s)
  /\ (forall (self : t) (v1 v2 : TrackedVehicle) (frame1 frame2 : Frame),
         tv_bbox v1 = tv_bbox v2 ->
         tv_velocity v1 = tv_velocity v2 ->
         let first :=
           ClassifierObjects.classify_threat Frame
             (ClassifierObjects.mkStore self v1 frame1) in
         let second :=
           ClassifierObjects.classify_threat Frame
             (ClassifierObjects.mkStore
                (ClassifierObjects.self_obj (fst first)) v2 frame2) in
         snd second = snd first
         /\ snd first = classify_threat Frame self v1 frame1
         /\ fst second = ClassifierObjects.mkStore self v2 frame2)
  /\ (forall (self : t) (v1 v2 : TrackedVehicle) (frame1 frame2 : Frame),
         tv_bbox v1 = tv_bbox v2 ->
         tv_velocity v1 = tv_velocity v2 ->
         classify_threat Frame self v1 frame1
         = classify_threat Frame self v2 frame2)
  /\ (exists self v1 v2,
         tv_bbox v1 = tv_bbox v2
         /\ forall frame : Frame,
             classify_threat Frame self v1 frame
             <> classify_threat Frame self v2 frame)
  /\ (exists self v1 v2,
         tv_velocity v1 = tv_velocity v2
         /\ forall frame : Frame,
             classify_threat Frame self v1 frame
             <> classify_threat Frame self v2 frame)
  /\ (exists self1 self2 v,
         width self1 = width self2 /\ height self1 = height self2
         /\ forall frame : Frame,
             classify_threat Frame self1 v frame
             <> classify_threat Frame self2 v frame).
Proof.
  assert (Hpure : forall (self : t) (v1 v2 : TrackedVehicle)
                         (frame1 frame2 : Frame),
             tv_bbox v1 = tv_bbox v2 ->
             tv_velocity v1 = tv_velocity v2 ->
             classify_threat Frame self v1 frame1
             = classify_threat Frame self v2 frame2).
  { intros self v1 v2 frame1 frame2 Hb Hv.
    unfold classify_threat. rewrite Hb, Hv. reflexivity. }
  split; [|split; [|split; [exact Hpure|split; [|split]]]].
  - intros s. rewrite ObjectFacts.classify_threat_run. reflexivity.
  - intros self v1 v2 frame1 frame2 Hb Hv first second.
    subst second first.
    rewrite !ObjectFacts.classify_threat_run.
    cbn [fst snd ClassifierObjects.self_obj
         ClassifierObjects.tracked_vehicle_obj ClassifierObjects.frame_obj].
    split; [symmetry; apply Hpure; assumption|].
    split; reflexivity.
  - exists (__init__ 800 600 left), (Scenario.vehicle1 2),
      (mkTrackedVehicle 0 Scenario.bbox1 2 (of_int 10, of_int 0) 1 None).
    split; [reflexivity|].
    intros frame H. vm_compute in H. discriminate.
  - exists (__init__ 800 600 left), vehicle_distant, vehicle_in_self_zone.
    split; [reflexivity|].
    intros frame H. vm_compute in H. discriminate.
  - exists (__init__ 800 600 left), (__init__ 800 600 right),
      (Scenario.vehicle1 2).
    split; [reflexivity|]. split; [reflexivity|].
    intros frame H. vm_compute in H. discriminate.
Qed.

End ClassifierProperties.

Lemma classify_threat_self_zone_first_witness :
  let self := AdaptiveBlindSpotZone.__init__ 800 600 left in
  in_rect (bbox_center (tv_bbox vehicle_in_self_zone))
          (AdaptiveBlindSpotZone.self_zone self)
  /\ AdaptiveBlindSpotZone.classify_threat unit self vehicle_in_self_zone tt
     = OK (none, "In self-vehicle zone"%string).
Proof.
  assert (H : in_rect (bbox_center (tv_bbox vehicle_in_self_zone))
                (AdaptiveBlindSpotZone.self_zone
                   (AdaptiveBlindSpotZone.__init__ 800 600 left))).
  { vm_compute. repeat split; discriminate. }
  split; [exact H|].
  exact (classify_threat_self_zone_first unit _ vehicle_in_self_zone tt H).
Defined.

Lemma classify_threat_distance_dominates_witness :
  let self := AdaptiveBlindSpotZone.__init__ 800 400 left in
  AdaptiveBlindSpotZone._analyze_motion self (tv_bbox vehicle_distant)
    (tv_velocity vehicle_distant)
  = (critical, "Fast approach in blind spot"%string)
  /\ AdaptiveBlindSpotZone.classify_threat unit self vehicle_distant tt
     = OK (safe, "Distant vehicle"%string).
Proof.
  split; [vm_compute; reflexivity|].
  apply (classify_threat_distance_dominates unit
           (AdaptiveBlindSpotZone.__init__ 800 400 left)
           vehicle_distant tt (lit 1 8));
    vm_compute; reflexivity.
Defined.

(** C2 as stated fails: a height ratio of at most 0.30 does not make the
    answer [safe] when an earlier filter applies. *)
Lemma distance_dominance_counterexample :
  let self := AdaptiveBlindSpotZone.__init__ 800 400 left in
  (exists ratio,
      int_truediv (bh (tv_bbox vehicle_distant_top))
                  (AdaptiveBlindSpotZone.height self) = OK ratio
      /\ leb ratio (lit 3 10) = true)
  /\ AdaptiveBlindSpotZone.classify_threat unit self vehicle_distant_top tt
     = OK (none, "Out of ROI (vertical)"%string).
Proof.
  split.
  - exists (lit 1 8). split; vm_compute; reflexivity.
  - vm_compute. reflexivity.
Qed.

Lemma classify_threat_depends_on_bbox_velocity_witness :
  let self := AdaptiveBlindSpotZone.__init__ 800 600 left in
  let v1 := mkTrackedVehicle 0 (mkBBox 70 300 60 200) 2
              (of_int (-30), of_int 0) 2
              (Some [mkBBox 100 300 60 200; mkBBox 70 300 60 200]) in
  let v2 := mkTrackedVehicle 5 (mkBBox 70 300 60 200) 7
              (of_int (-30), of_int 0) 9 None in
  let first :=
    ClassifierObjects.classify_threat bool
      (ClassifierObjects.mkStore self v1 true) in
  let second :=
    ClassifierObjects.classify_threat bool
      (ClassifierObjects.mkStore (ClassifierObjects.self_obj (fst first))
         v2 false) in
  snd first = OK (critical, "Fast approach in blind spot"%string)
  /\ snd second = snd first
  /\ fst first = ClassifierObjects.mkStore self v1 true
  /\ fst second = ClassifierObjects.mkStore self v2 false.
Proof.
  intros self v1 v2 first second.
  destruct (classify_threat_depends_on_bbox_velocity bool) as [H1 [H2 _]].
  destruct (H2 self v1 v2 true false eq_refl eq_refl) as [E1 [E2 E3]].
  split; [vm_compute; reflexivity|].
  split; [exact E1|]. split; [apply H1 | exact E3].
Defined.

(* ================================================================== *)
(** * Facts about dicts and deques *)
(* ================================================================== *)

Module DictFacts.

Import Dict.

Section WithValues.

Context {V : Type}.
Implicit Types (d : Dict.t V) (k : Z) (v : V).

Lemma keys_update d k (f : V -> V) : keys (update d k f) = keys d.
Proof.
  unfold keys, update. rewrite map_map. apply map_ext.
  intros [k' v']. simpl. destruct (k' =? k); reflexivity.
Qed.

Lemma in_update d k (f : V -> V) k' v' :
  In (k', v') (update d k f) ->
  exists v0, In (k', v0) d /\ (v' = v0 \/ (k' = k /\ v' = f v0)).
Proof.
  unfold update. rewrite in_map_iff. intros [[k0 v0] [E H]].
  simpl in E. destruct (k0 =? k) eqn:Ek.
  - apply Z.eqb_eq in Ek. inversion E; subst.
    exists v0. split; [exact H | right; split; reflexivity].
  - inversion E; subst. exists v'. split; [exact H | left; reflexivity].
Qed.

Lemma get_update d k (f : V -> V) k' :
  get (update d k f) k' =
  if k' =? k then option_map f (get d k') else get d k'.
Proof.
  induction d as [|[k0 v0] d IH]; simpl.
  - destruct (k' =? k); reflexivity.
  - destruct (k0 =? k) eqn:E0; simpl; destruct (k0 =? k') eqn:E1.
    + apply Z.eqb_eq in E0, E1. subst.
      rewrite Z.eqb_refl. reflexivity.
    + exact IH.
    + apply Z.eqb_eq in E1. subst. rewrite E0. reflexivity.
    + exact IH.
Qed.

Lemma in_del d k k' v' : In (k', v') (del d k) -> In (k', v') d.
Proof. unfold del. rewrite filter_In. tauto. Qed.

Lemma in_keys_del d k k' :
  In k' (keys (del d k)) -> In k' (keys d).
Proof.
  unfold keys. rewrite !in_map_iff. intros [kv [E H]].
  exists kv. split; [exact E | apply filter_In in H; tauto].
Qed.

Lemma NoDup_keys_filter d (p : Z * V -> bool) :
  NoDup (keys d) -> NoDup (keys (filter p d)).
Proof.
  unfold keys. induction d as [|kv d IH]; simpl; intros H.
  - constructor.
  - inversion H as [|? ? Hn Hd]; subst.
    destruct (p kv); simpl; [constructor|]; auto.
    intros Hin. apply Hn. rewrite in_map_iff in *.
    destruct Hin as [kv' [E H']]. exists kv'.
    split; [exact E | apply filter_In in H'; tauto].
Qed.

Lemma in_keys_filter d (p : Z * V -> bool) k :
  In k (keys (filter p d)) -> In k (keys d).
Proof.
  unfold keys. rewrite !in_map_iff. intros [kv [E H]].
  exists kv. split; [exact E | apply filter_In in H; tauto].
Qed.

Lemma keys_set d k v :
  keys (set d k v) = if existsb (Z.eqb k) (keys d) then keys d
                     else keys d ++ [k].
Proof.
  induction d as [|[k0 v0] d IH]; simpl; [reflexivity|].
  rewrite (Z.eqb_sym k k0).
  destruct (k0 =? k) eqn:E; simpl; [reflexivity|].
  rewrite IH. destruct (existsb (Z.eqb k) (keys d)); reflexivity.
Qed.

Lemma existsb_keys d k : existsb (Z.eqb k) (keys d) = true <-> In k (keys d).
Proof.
  rewrite existsb_exists. split.
  - intros [x [H E]]. apply Z.eqb_eq in E. subst. exact H.
  - intros H. exists k. split; [exact H | apply Z.eqb_refl].
Qed.

Lemma in_keys_set d k v k' :
  In k' (keys (set d k v)) <-> In k' (keys d) \/ k' = k.
Proof.
  rewrite keys_set.
  destruct (existsb (Z.eqb k) (keys d)) eqn:E.
  - apply existsb_keys in E. split; [tauto|].
    intros [H|H]; subst; assumption.
  - rewrite in_app_iff. simpl. intuition.
Qed.

Lemma NoDup_keys_set d k v : NoDup (keys d) -> NoDup (keys (set d k v)).
Proof.
  intros H. rewrite keys_set.
  destruct (existsb (Z.eqb k) (keys d)) eqn:E; [exact H|].
  assert (Hn : ~ In k (keys d)).
  { intros Hin. apply existsb_keys in Hin. congruence. }
  clear E. induction (keys d) as [|a l IH]; simpl.
  - constructor; [intros []|constructor].
  - inversion H; subst. constructor.
    + rewrite in_app_iff. simpl. intros [Hi|[Hi|[]]]; [tauto|].
      subst. apply Hn. now left.
    + apply IH; [assumption|]. intros Hi. apply Hn. now right.
Qed.

Lemma in_set d k v k' v' :
  In (k', v') (set d k v) -> (k' = k /\ v' = v) \/ In (k', v') d.
Proof.
  induction d as [|[k0 v0] d IH]; simpl.
  - intros [E|[]]. inversion E. left. split; reflexivity.
  - destruct (k0 =? k) eqn:E0; simpl.
    + apply Z.eqb_eq in E0. subst.
      intros [E|H]; [inversion E; left; split; reflexivity | right; now right].
    + intros [E|H]; [right; now left|].
      destruct (IH H) as [H'|H']; [left; exact H' | right; now right].
Qed.

Lemma get_set d k v k' :
  get (set d k v) k' = if k' =? k then Some v else get d k'.
Proof.
  induction d as [|[k0 v0] d IH]; simpl.
  - rewrite (Z.eqb_sym k k'). destruct (k' =? k); reflexivity.
  - destruct (k0 =? k) eqn:E0; simpl.
    + apply Z.eqb_eq in E0. subst. rewrite (Z.eqb_sym k k').
      destruct (k' =? k); reflexivity.
    + destruct (k0 =? k') eqn:E1.
      * apply Z.eqb_eq in E1. subst. rewrite E0. reflexivity.
      * exact IH.
Qed.

Lemma get_in d k v : get d k = Some v -> In (k, v) d.
Proof.
  induction d as [|[k0 v0] d IH]; simpl; [discriminate|].
  destruct (k0 =? k) eqn:E.
  - apply Z.eqb_eq in E. subst. intros H. inversion H. now left.
  - intros H. right. apply IH, H.
Qed.

Lemma in_keys d k v : In (k, v) d -> In k (keys d).
Proof. intros H. unfold keys. apply in_map_iff. now exists (k, v). Qed.

End WithValues.

End DictFacts.

Module DequeFacts.

Import Deque.

Lemma length_keep_last (n : nat) (l : list BBox) :
  (length (keep_last n l) <= n)%nat.
Proof. unfold keep_last. rewrite length_skipn. lia. Qed.

Lemma length_make (init : list BBox) (n : nat) :
  (len (make init n) <= n)%nat /\ maxlen (make init n) = n.
Proof. split; [apply length_keep_last | reflexivity]. Qed.

Lemma length_append (d : t) (x : BBox) :
  (len (append d x) <= maxlen d)%nat /\ maxlen (append d x) = maxlen d.
Proof. split; [apply length_keep_last | reflexivity]. Qed.

(** Below capacity an append only adds the new entry at the end. *)
Lemma append_below (d : t) (x : BBox) :
  (len d < maxlen d)%nat -> items (append d x) = items d ++ [x].
Proof.
  unfold len, append, keep_last. simpl. intros H.
  rewrite length_app. simpl.
  replace (length (items d) + 1 - maxlen d)%nat with 0%nat by lia.
  reflexivity.
Qed.

(** At capacity the oldest entry goes and the rest keeps its order. *)
Lemma append_full (d : t) (x : BBox) :
  len d = maxlen d -> (0 < maxlen d)%nat ->
  items (append d x) = tl (items d) ++ [x].
Proof.
  unfold len, append, keep_last. simpl. intros H H0.
  rewrite length_app. simpl.
  replace (length (items d) + 1 - maxlen d)%nat with 1%nat by lia.
  destruct (items d) as [|a l]; simpl in *; [lia | reflexivity].
Qed.

End DequeFacts.

(* ================================================================== *)
(** * Invariants of the tracker *)
(* ================================================================== *)

Module TrackerFacts.

Import VehicleTracker.

Lemma shrinks_refl s : shrinks s s.
Proof. unfold shrinks, same_config. tauto. Qed.

Lemma shrinks_trans s0 s1 s2 : shrinks s0 s1 -> shrinks s1 s2 -> shrinks s0 s2.
Proof.
  unfold shrinks, same_config.
  intros [[A1 A2] [B [C [D E]]]] [[A1' A2'] [B' [C' [D' E']]]].
  split; [split; congruence|].
  split; [congruence|].
  split; [intros k Hk; apply C, C', Hk|].
  split; [intros H; apply D', D, H | intros H; apply E', E, H].
Qed.

Lemma grows_refl s : grows s s.
Proof.
  unfold grows, same_config.
  split; [split; reflexivity|].
  split; [lia|].
  split; [intros k; split; [intros H; now left | intros [H|H]; [exact H | lia]]|].
  split; [auto|]. split; [auto|]. reflexivity.
Qed.

Lemma grows_trans s0 s1 s2 : grows s0 s1 -> grows s1 s2 -> grows s0 s2.
Proof.
  unfold grows, same_config.
  intros [[A1 A2] [B [C [D [E F]]]]] [[A1' A2'] [B' [C' [D' [E' F']]]]].
  split; [split; congruence|].
  split; [lia|].
  split; [intros k; split|].
  - intros H. apply C' in H. destruct H as [H|H]; [|right; lia].
    apply C in H. destruct H as [H|H]; [now left | right; lia].
  - intros [H|H].
    + apply C'. left. apply C. now left.
    + destruct (Z_lt_le_dec k (next_id s1)).
      * apply C'. left. apply C. right. lia.
      * apply C'. right. lia.
  - split; [intros H; apply D', D, H|].
    split; [intros H; apply E', E, H|].
    intros k Hk. rewrite F' by lia. apply F, Hk.
Qed.

Lemma _update_track_shrinks s tid det now :
  shrinks s (_update_track s tid det now).
Proof.
  unfold shrinks, same_config, _update_track, with_tracks, track_ids.
  simpl. rewrite DictFacts.keys_update.
  split; [split; reflexivity|].
  split; [reflexivity|]. split; [auto|]. split; [auto|].
  unfold histories_bounded. simpl. intros H k tr Hin.
  apply DictFacts.in_update in Hin.
  destruct Hin as [v0 [Hin [E|[_ E]]]]; subst; [exact (H k v0 Hin)|].
  simpl. destruct (H k v0 Hin) as [Hm Hl]. rewrite <- Hm.
  split; [reflexivity | apply DequeFacts.length_append].
Qed.

Lemma filter_shrinks s (p : Z * Track -> bool) :
  shrinks s (with_tracks s (filter p (tracks s))).
Proof.
  unfold shrinks, same_config, with_tracks, track_ids. simpl.
  split; [split; reflexivity|].
  split; [reflexivity|].
  split; [intros k; apply DictFacts.in_keys_filter|].
  split; [apply DictFacts.NoDup_keys_filter|].
  unfold histories_bounded. simpl. intros H k tr Hin.
  apply filter_In in Hin. exact (H k tr (proj1 Hin)).
Qed.

Lemma del_shrinks s tid :
  shrinks s (with_tracks s (Dict.del (tracks s) tid)).
Proof. apply filter_shrinks. Qed.

Lemma _create_track_grows s det now : grows s (_create_track s det now).
Proof.
  unfold grows, same_config, _create_track, track_ids. simpl.
  split; [split; reflexivity|].
  split; [lia|].
  split; [intros k; split|].
  - intros H. apply DictFacts.in_keys_set in H.
    destruct H as [H|H]; [now left | right; lia].
  - intros [H|H]; apply DictFacts.in_keys_set; [now left | right; lia].
  - split; [apply DictFacts.NoDup_keys_set|]. split.
    + unfold histories_bounded. simpl. intros H k tr Hin.
      apply DictFacts.in_set in Hin.
      destruct Hin as [[_ E]|Hin]; [|exact (H k tr Hin)].
      subst. simpl. split; [reflexivity | apply DequeFacts.length_keep_last].
    + intros k Hk. rewrite DictFacts.get_set.
      destruct (k =? next_id s) eqn:E; [|reflexivity].
      apply Z.eqb_eq in E. lia.
Qed.

Lemma match_tracks_shrinks snapshot dets now s matched :
  shrinks s (fst (match_tracks snapshot dets now s matched)).
Proof.
  revert s matched.
  induction snapshot as [|[tid track] rest IH]; intros s matched; simpl.
  - apply shrinks_refl.
  - destruct (Deque.last (positions track)) as [last_pos|e]; [|apply IH].
    destruct (closest _ matched (enumerate dets) inf None)
      as [[best det]|].
    + eapply shrinks_trans; [apply _update_track_shrinks | apply IH].
    + destruct (gtb _ _).
      * eapply shrinks_trans; [apply del_shrinks | apply IH].
      * apply IH.
Qed.

Lemma create_unmatched_grows l matched now s :
  grows s (create_unmatched l matched now s).
Proof.
  revert s. induction l as [|[i det] rest IH]; intros s; simpl.
  - apply grows_refl.
  - destruct (mem i matched); [apply IH|].
    eapply grows_trans; [apply _create_track_grows | apply IH].
Qed.

Lemma create_all_grows dets now s :
  grows s (fold_left (fun s det => _create_track s det now) dets s).
Proof.
  revert s. induction dets as [|det rest IH]; intros s; simpl.
  - apply grows_refl.
  - eapply grows_trans; [apply _create_track_grows | apply IH].
Qed.

(** One call of [update], whatever it returns or raises. *)
Lemma update_shrinks_then_grows s dets now :
  exists s1, shrinks s s1 /\ grows s1 (fst (update s dets now)).
Proof.
  unfold update. destruct dets as [|d dets].
  - eexists. split; [apply filter_shrinks | apply grows_refl].
  - destruct (tracks s) as [|kv rest] eqn:Et.
    + exists s. split; [apply shrinks_refl | apply create_all_grows].
    + rewrite <- Et.
      pose proof (match_tracks_shrinks (tracks s) (d :: dets) now s [])
        as Hm.
      destruct (match_tracks (tracks s) (d :: dets) now s [])
        as [s1 matched].
      exists s1. split; [exact Hm | apply create_unmatched_grows].
Qed.

Lemma update_ids_below_next s dets now :
  ids_below_next s -> ids_below_next (fst (update s dets now)).
Proof.
  intros [Hn Hlt].
  destruct (update_shrinks_then_grows s dets now)
    as [s1 [[_ [E1 [S1 [N1 _]]]] [_ [L [K [N2 _]]]]]].
  split; [auto|].
  intros k Hk. apply K in Hk. destruct Hk as [Hk|Hk]; [|lia].
  apply S1, Hlt in Hk. lia.
Qed.

Lemma update_histories_bounded s dets now :
  histories_bounded s -> histories_bounded (fst (update s dets now)).
Proof.
  intros H.
  destruct (update_shrinks_then_grows s dets now)
    as [s1 [[_ [_ [_ [_ B1]]]] [_ [_ [_ [_ [B2 _]]]]]]].
  auto.
Qed.

Lemma update_same_config s dets now :
  same_config s (fst (update s dets now)).
Proof.
  destruct (update_shrinks_then_grows s dets now)
    as [s1 [[[A1 A2] _] [[A1' A2'] _]]].
  unfold same_config. split; congruence.
Qed.

Lemma update_next_id_mono s dets now :
  next_id s <= next_id (fst (update s dets now)).
Proof.
  destruct (update_shrinks_then_grows s dets now)
    as [s1 [[_ [E _]] [_ [L _]]]].
  lia.
Qed.

End TrackerFacts.

(* ================================================================== *)
(** * Sequences of [update] calls *)
(* ================================================================== *)

Module RunFacts.

Import VehicleTracker.

Lemma init_ids_below_next mh : ids_below_next (__init__ mh).
Proof. split; [constructor | intros k []]. Qed.

Lemma init_histories_bounded mh : histories_bounded (__init__ mh).
Proof. intros k tr []. Qed.

Lemma run_ids_below_next cs s :
  ids_below_next s -> ids_below_next (run s cs).
Proof.
  revert s. induction cs as [|c cs IH]; intros s H; simpl; [exact H|].
  apply IH, TrackerFacts.update_ids_below_next, H.
Qed.

Lemma run_histories_bounded cs s :
  histories_bounded s -> histories_bounded (run s cs).
Proof.
  revert s. induction cs as [|c cs IH]; intros s H; simpl; [exact H|].
  apply IH, TrackerFacts.update_histories_bounded, H.
Qed.

Lemma run_max_history cs s : max_history (run s cs) = max_history s.
Proof.
  revert s. induction cs as [|c cs IH]; intros s; simpl; [reflexivity|].
  rewrite IH. apply (TrackerFacts.update_same_config s).
Qed.

Lemma run_next_id_mono cs s : next_id s <= next_id (run s cs).
Proof.
  revert s. induction cs as [|c cs IH]; intros s; simpl; [lia|].
  pose proof (TrackerFacts.update_next_id_mono s (fst c) (snd c)).
  pose proof (IH (step s c)). unfold step in *. lia.
Qed.

Lemma in_created_ids s s' k :
  In k (created_ids s s') <-> In k (track_ids s') /\ ~ In k (track_ids s).
Proof.
  unfold created_ids, track_ids. rewrite filter_In, negb_true_iff.
  rewrite <- (DictFacts.existsb_keys (tracks s) k), not_true_iff_false.
  reflexivity.
Qed.

(** A call creates exactly the identifiers from the counter before it
    up to the counter after it. *)
Lemma created_ids_interval s c k :
  ids_below_next s ->
  (In k (created_ids s (step s c)) <-> next_id s <= k < next_id (step s c)).
Proof.
  intros [_ Hlt]. rewrite in_created_ids. unfold step.
  destruct (TrackerFacts.update_shrinks_then_grows s (fst c) (snd c))
    as [s1 [[_ [E1 [S1 _]]] [_ [L [K _]]]]].
  split.
  - intros [Hin Hnot]. apply K in Hin. destruct Hin as [Hin|Hin]; [|lia].
    elim Hnot. apply S1, Hin.
  - intros Hk. split; [apply K; right; lia|].
    intros Hin. apply Hlt in Hin. lia.
Qed.

End RunFacts.

Section TrackerProperties.

Import VehicleTracker.

(** C7.  Along every sequence of [update] calls from a fresh tracker:
    the tracks a call creates carry exactly the identifiers from
    [next_id] before the call up to [next_id] after it; every
    identifier created by a later call is larger than every identifier
    created by an earlier one, so none is handed out twice, whatever
    was deleted in between; and [_create_track] stores the new track
    under [next_id] and advances [next_id] by one. *)
Theorem track_ids_never_reused
    (mh : nat) (cs1 : list call) (c1 : call) (cs2 : list call) (c2 : call) :
  let s1 := run (__init__ mh) cs1 in
  let s2 := step s1 c1 in
  let s3 := run s2 cs2 in
  let s4 := step s3 c2 in
  (forall k, In k (created_ids s1 s2) <-> next_id s1 <= k < next_id s2)
  /\ (forall k k',
         In k (created_ids s1 s2) -> In k' (created_ids s3 s4) -> k < k')
  /\ (forall d now,
         Dict.get (tracks (_create_track s1 d now)) (next_id s1)
         = Some (fresh_track s1 d now)
         /\ next_id (_create_track s1 d now) = next_id s1 + 1).
Proof.
  intros s1 s2 s3 s4.
  assert (H1 : ids_below_next s1)
    by apply RunFacts.run_ids_below_next, RunFacts.init_ids_below_next.
  assert (H3 : ids_below_next s3)
    by apply RunFacts.run_ids_below_next,
             TrackerFacts.update_ids_below_next, H1.
  split; [intros k; apply RunFacts.created_ids_interval, H1|].
  split.
  - intros k k' Hk Hk'.
    apply (RunFacts.created_ids_interval s1 c1 k H1) in Hk.
    apply (RunFacts.created_ids_interval s3 c2 k' H3) in Hk'.
    pose proof (RunFacts.run_next_id_mono cs2 s2) as Hmono.
    subst s4 s3 s2. lia.
  - intros d now. split; [|reflexivity].
    unfold _create_track. simpl. rewrite DictFacts.get_set, Z.eqb_refl.
    reflexivity.
Qed.

(** C8.  After every sequence of [update] calls from a fresh tracker of
    capacity [mh], the history of every live track holds at most [mh]
    boxes; and appending to it with [_update_track] adds the new box at
    the end when there is room, and at capacity drops the oldest box,
    keeps the others in order and puts the new one last. *)
Theorem history_bounded_fifo
    (mh : nat) (cs : list call) (tid : Z) (tr : Track) :
  let st := run (__init__ mh) cs in
  Dict.get (tracks st) tid = Some tr ->
  (Deque.len (positions tr) <= mh)%nat
  /\ forall det now,
      exists tr',
        Dict.get (tracks (_update_track st tid det now)) tid = Some tr'
        /\ (Deque.len (positions tr') <= mh)%nat
        /\ ((Deque.len (positions tr) < mh)%nat ->
            Deque.items (positions tr')
            = Deque.items (positions tr) ++ [det_bbox det])
        /\ (Deque.len (positions tr) = mh -> (0 < mh)%nat ->
            Deque.items (positions tr')
            = tl (Deque.items (positions tr)) ++ [det_bbox det]).
Proof.
  intros st Hget.
  assert (Hb : histories_bounded st)
    by apply RunFacts.run_histories_bounded, RunFacts.init_histories_bounded.
  assert (Hm : max_history st = mh) by apply RunFacts.run_max_history.
  destruct (Hb tid tr (DictFacts.get_in _ _ _ Hget)) as [Hmax Hlen].
  rewrite Hm in Hmax, Hlen.
  split; [exact Hlen|]. intros det now.
  eexists. split.
  - unfold _update_track, with_tracks. simpl.
    rewrite DictFacts.get_update, Z.eqb_refl, Hget. reflexivity.
  - simpl. split; [|split].
    + rewrite <- Hmax. apply DequeFacts.length_append.
    + intros H. apply DequeFacts.append_below. rewrite Hmax. exact H.
    + intros H H0. apply DequeFacts.append_full; rewrite Hmax; assumption.
Qed.

End TrackerProperties.

(* ================================================================== *)
(** * Matching *)
(* ================================================================== *)

Module MatchFacts.

Import VehicleTracker.

Lemma in_combine_seq {A} (l : list A) (a j : nat) (x : A) :
  In (j, x) (combine (seq a (length l)) l)
  <-> (a <= j)%nat /\ nth_error l (j - a) = Some x.
Proof.
  revert a. induction l as [|y l IH]; intros a; simpl.
  - split; [intros [] | intros [_ H]].
    destruct (j - a)%nat; discriminate.
  - rewrite IH. split.
    + intros [E|[Hle Hn]].
      * inversion E; subst. rewrite Nat.sub_diag. split; [lia|reflexivity].
      * split; [lia|].
        replace (j - a)%nat with (S (j - S a)) by lia. exact Hn.
    + intros [Hle Hn]. destruct (j - a)%nat as [|n] eqn:E.
      * left. inversion Hn. f_equal. lia.
      * right. split; [lia|].
        replace (j - S a)%nat with n by lia. exact Hn.
Qed.

Lemma in_enumerate {A} (l : list A) (j : nat) (x : A) :
  In (j, x) (enumerate l) <-> nth_error l j = Some x.
Proof.
  unfold enumerate. rewrite in_combine_seq, Nat.sub_0_r.
  split; [tauto | intros H; split; [lia | exact H]].
Qed.

Lemma mem_false_iff i s : mem i s = false <-> ~ In i s.
Proof.
  unfold mem. rewrite <- not_true_iff_false, existsb_exists. split.
  - intros H Hin. apply H. exists i. split; [exact Hin | apply Nat.eqb_refl].
  - intros H [x [Hin E]]. apply Nat.eqb_eq in E. subst. exact (H Hin).
Qed.

(** The inner loop never picks a detection outside the radius. *)
Lemma closest_avoids c matched i l :
  (forall dj, In (i, dj) l ->
     ltb (norm_diff c (center (det_bbox dj))) (of_int 100) = false) ->
  forall min best,
    (forall dj, best <> Some (i, dj)) ->
    forall j dj, closest c matched l min best = Some (j, dj) -> j <> i.
Proof.
  induction l as [|[i0 d0] l IH]; intros Hfar min best Hbest j dj; simpl.
  - intros E Hj. rewrite Hj in E. exact (Hbest dj E).
  - assert (Hfar' : forall dj, In (i, dj) l ->
              ltb (norm_diff c (center (det_bbox dj))) (of_int 100) = false)
      by (intros d' H'; apply Hfar; now right).
    destruct (mem i0 matched); [apply IH; assumption|].
    destruct (ltb (norm_diff c (center (det_bbox d0))) min
              && ltb (norm_diff c (center (det_bbox d0))) (of_int 100))
      eqn:E; [|apply IH; assumption].
    apply IH; [assumption|].
    intros d' E'. inversion E'; subst.
    apply andb_true_iff in E. destruct E as [_ E].
    rewrite (Hfar d' (or_introl eq_refl)) in E. discriminate.
Qed.

(** The matching loop never marks a detection that is outside the
    radius of every track as matched. *)
Lemma match_tracks_avoids dets now i d :
  nth_error dets i = Some d ->
  forall snapshot,
    (forall k tr last_pos,
        In (k, tr) snapshot ->
        Deque.last (positions tr) = OK last_pos ->
        ltb (norm_diff (center last_pos) (center (det_bbox d))) (of_int 100)
        = false) ->
    forall s matched,
      ~ In i matched ->
      ~ In i (snd (match_tracks snapshot dets now s matched)).
Proof.
  intros Hd. induction snapshot as [|[tid track] rest IH];
    intros Hfar s matched Hm; simpl; [exact Hm|].
  assert (Hfar' : forall k tr last_pos, In (k, tr) rest ->
            Deque.last (positions tr) = OK last_pos ->
            ltb (norm_diff (center last_pos) (center (det_bbox d)))
                (of_int 100) = false)
    by (intros k tr lp H; apply (Hfar k tr lp); now right).
  destruct (Deque.last (positions track)) as [last_pos|e] eqn:El;
    [|apply IH; assumption].
  destruct (closest (center last_pos) matched (enumerate dets) inf None)
    as [[best det]|] eqn:Ec.
  - apply IH; [assumption|]. intros [E|H]; [|exact (Hm H)].
    revert E. eapply closest_avoids; [| |exact Ec].
    + intros dj Hin. apply in_enumerate in Hin.
      rewrite Hd in Hin. inversion Hin; subst.
      apply (Hfar tid track last_pos); [now left | exact El].
    + intros dj. discriminate.
  - destruct (gtb _ _); apply IH; assumption.
Qed.

Lemma create_unmatched_creates l matched now i d :
  In (i, d) l -> mem i matched = false ->
  forall s,
  exists k,
    next_id s <= k < next_id (create_unmatched l matched now s)
    /\ Dict.get (tracks (create_unmatched l matched now s)) k
       = Some (fresh_track s d now).
Proof.
  intros Hin Hm. induction l as [|[i0 d0] l IH]; intros s; [destruct Hin|].
  simpl. destruct Hin as [E|Hin].
  - inversion E; subst. rewrite Hm.
    pose proof (TrackerFacts.create_unmatched_grows l matched now
                  (_create_track s d now)) as [_ [L [_ [_ [_ G]]]]].
    exists (next_id s). simpl in L. split; [lia|].
    rewrite G by (simpl; lia).
    unfold _create_track. simpl.
    rewrite DictFacts.get_set, Z.eqb_refl. reflexivity.
  - destruct (mem i0 matched); [apply (IH Hin)|].
    destruct (IH Hin (_create_track s d0 now)) as [k [Hk Hg]].
    exists k. simpl in Hk. split; [lia | exact Hg].
Qed.

Lemma create_all_creates dets now d :
  In d dets ->
  forall s,
  exists k,
    next_id s
    <= k < next_id (fold_left (fun s det => _create_track s det now) dets s)
    /\ Dict.get
         (tracks (fold_left (fun s det => _create_track s det now) dets s)) k
       = Some (fresh_track s d now).
Proof.
  intros Hin. induction dets as [|d0 l IH]; intros s; [destruct Hin|].
  simpl. destruct Hin as [E|Hin].
  - subst.
    pose proof (TrackerFacts.create_all_grows l now
                  (_create_track s d now)) as [_ [L [_ [_ [_ G]]]]].
    exists (next_id s). simpl in L. split; [lia|].
    rewrite G by (simpl; lia).
    unfold _create_track. simpl.
    rewrite DictFacts.get_set, Z.eqb_refl. reflexivity.
  - destruct (IH Hin (_create_track s d0 now)) as [k [Hk Hg]].
    exists k. simpl in Hk. split; [lia | exact Hg].
Qed.

End MatchFacts.

Section MatchingProperties.

Import VehicleTracker.

(** C5.  With no detection, [update] returns the empty list and leaves
    the counter alone, and the tracks afterwards are exactly the tracks
    before whose idle time [now - last_seen] is not at least the
    timeout 1.0, each one as it was and in the same order: nothing is
    created, nothing is matched, and exactly the tracks idle for 1.0 or
    more are removed.  (Timestamps are finite floats.) *)
Theorem update_no_detections (self : t) (now : float) :
  max_disappeared self = of_int 1 ->
  is_finite now = true ->
  (forall k tr, In (k, tr) (tracks self) -> is_finite (last_seen tr) = true) ->
  snd (update self [] now) = OK []
  /\ next_id (fst (update self [] now)) = next_id self
  /\ tracks (fst (update self [] now))
     = filter (fun kv => negb (idle_at_least (of_int 1) now (snd kv)))
              (tracks self)
  /\ (forall k tr,
         In (k, tr) (tracks (fst (update self [] now)))
         <-> In (k, tr) (tracks self)
             /\ idle_at_least (of_int 1) now tr = false).
Proof.
  intros Hto Hnow Hseen.
  assert (Hf : tracks (fst (update self [] now))
               = filter (fun kv => negb (idle_at_least (of_int 1) now (snd kv)))
                        (tracks self)).
  { simpl. rewrite Hto. apply filter_ext_in. intros [k tr] Hin.
    unfold idle_at_least. cbn [snd].
    pose proof (ltb_false_leb (sub now (last_seen tr)) (of_int 1)
                  (sub_finite_number _ _ Hnow (Hseen k tr Hin))
                  (of_int_number 1)) as Hiff.
    destruct (ltb (sub now (last_seen tr)) (of_int 1)),
             (leb (of_int 1) (sub now (last_seen tr)));
      try reflexivity.
    - destruct Hiff as [_ H]. discriminate (H eq_refl).
    - destruct Hiff as [H _]. discriminate (H eq_refl). }
  split; [reflexivity|]. split; [reflexivity|]. split; [exact Hf|].
  intros k tr. rewrite Hf, filter_In. cbn [snd].
  rewrite negb_true_iff. reflexivity.
Qed.

(** C6.  In a call of [update] with detections, a detection whose
    centre is farther than 100 pixels from the last known centre of
    every live track is not matched by the matching loop, and after the
    call a track exists under an identifier not in use before, at or
    above the old [next_id], holding just this detection: its box as the
    whole history, the call's timestamp, its class and confidence.
    This holds for any number of detections in the frame. *)
Theorem far_detection_starts_new_track
    (self : t) (detections : list Detection) (now : float)
    (i : nat) (d : Detection) :
  ids_below_next self ->
  nth_error detections i = Some d ->
  far_from_all self d ->
  ~ In i (snd (match_tracks (tracks self) detections now self []))
  /\ exists k,
      next_id self <= k < next_id (fst (update self detections now))
      /\ ~ In k (track_ids self)
      /\ Dict.get (tracks (fst (update self detections now))) k
         = Some (fresh_track self d now).
Proof.
  intros [_ Hlt] Hd Hfar.
  assert (Hnot : ~ In i (snd (match_tracks (tracks self) detections now
                                self []))).
  { apply (MatchFacts.match_tracks_avoids detections now i d Hd).
    - intros k tr lp Hin Hl. apply ltb_asym.
      exact (Hfar k tr lp Hin Hl).
    - intros []. }
  split; [exact Hnot|].
  assert (Hex : exists k,
             next_id self <= k < next_id (fst (update self detections now))
             /\ Dict.get (tracks (fst (update self detections now))) k
                = Some (fresh_track self d now)).
  { unfold update. destruct detections as [|d0 dets];
      [destruct i; discriminate|].
    destruct (tracks self) as [|kv rest] eqn:Et.
    - cbn [fst]. apply MatchFacts.create_all_creates.
      eapply nth_error_In, Hd.
    - rewrite <- Et in *.
      pose proof (TrackerFacts.match_tracks_shrinks (tracks self)
                    (d0 :: dets) now self []) as [[Hc _] [En _]].
      destruct (match_tracks (tracks self) (d0 :: dets) now self [])
        as [s1 matched].
      cbn [fst snd] in *.
      destruct (MatchFacts.create_unmatched_creates
                  (enumerate (d0 :: dets)) matched now i d
                  (proj2 (MatchFacts.in_enumerate _ _ _) Hd)
                  (proj2 (MatchFacts.mem_false_iff _ _) Hnot) s1)
        as [k [Hk Hg]].
      exists k. rewrite <- En. split; [exact Hk|].
      rewrite Hg. unfold fresh_track. rewrite Hc. reflexivity. }
  destruct Hex as [k [Hk Hg]]. exists k.
  split; [exact Hk|]. split; [|exact Hg].
  intros Hin. apply Hlt in Hin. lia.
Qed.

End MatchingProperties.

(* ================================================================== *)
(** * Alerts and their cooldown *)
(* ================================================================== *)

Module AlertFacts.

Import AdvancedBlindSpotDetection.

Lemma side_get_set_same {A} (p : PerSide A) sd a :
  side_get (side_set p sd a) sd = a.
Proof. destruct sd; reflexivity. Qed.

Lemma side_get_set_other {A} (p : PerSide A) sd a :
  side_get (side_set p sd a) (other_side sd) = side_get p (other_side sd).
Proof. destruct sd; reflexivity. Qed.

Section WithFrame.

Variable Frame : Type.

(** A call that returns went through the block "Trigger warnings"
    with the flags it reports, on a state whose timestamps and
    cooldown are those before the call. *)
Lemma process_side_view_inv self (frame : Frame) sd zone dets now self' r :
  process_side_view Frame self frame sd zone dets now = (self', OK r) ->
  exists self1,
    last_warning_time self1 = last_warning_time self
    /\ warning_cooldown self1 = warning_cooldown self
    /\ trigger self1 sd now (critical_detected r) (warning_detected r)
       = (self', alert r).
Proof.
  unfold process_side_view.
  destruct (VehicleTracker.update _ dets now) as [tracker tracked].
  destruct tracked as [tracked_vehicles|e]; [|discriminate].
  destruct (analyze Frame zone frame tracked_vehicles false false [])
    as [[[c w] tvs]|e]; [|discriminate].
  destruct (trigger _ sd now c w) as [self2 fired] eqn:Et.
  intros E. inversion E; subst. eexists.
  split; [|split; [|exact Et]]; reflexivity.
Qed.

Lemma trigger_spec self sd now c w self' fired :
  trigger self sd now c w = (self', fired) ->
  warning_cooldown self' = warning_cooldown self
  /\ side_get (last_warning_time self') (other_side sd)
     = side_get (last_warning_time self) (other_side sd)
  /\ match fired with
     | Some level =>
         gtb (since_last_alert self sd now) (warning_cooldown self) = true
         /\ side_get (last_warning_time self') sd = now
         /\ (level = CRITICAL <-> c = true)
         /\ (level = WARNING -> w = true)
     | None =>
         side_get (last_warning_time self') sd
         = side_get (last_warning_time self) sd
         /\ ((c || w) = false
             \/ gtb (since_last_alert self sd now) (warning_cooldown self)
                = false)
     end.
Proof.
  unfold trigger, since_last_alert.
  destruct (gtb (sub now (side_get (last_warning_time self) sd))
                (warning_cooldown self)) eqn:Eg;
    destruct c, w; cbn [andb orb]; intros E; inversion E; subst;
    cbn [warning_cooldown last_warning_time];
    rewrite ?side_get_set_same, ?side_get_set_other;
    (split; [reflexivity|]); (split; [reflexivity|]);
    repeat split; auto; try discriminate; try (intros; reflexivity).
Qed.

Lemma frame_shows_nil zone (frame : Frame) l :
  ~ frame_shows zone frame [] l.
Proof. intros [v [reason [[] _]]]. Qed.

Lemma frame_shows_cons zone (frame : Frame) v vs lv rs l :
  AdaptiveBlindSpotZone.classify_threat Frame zone v frame = OK (lv, rs) ->
  frame_shows zone frame (v :: vs) l <-> lv = l \/ frame_shows zone frame vs l.
Proof.
  intros Ec. split.
  - intros [v' [reason [[E|Hin] Hc]]].
    + subst v'. rewrite Ec in Hc. inversion Hc. now left.
    + right. exists v', reason. split; assumption.
  - intros [E|[v' [reason [Hin Hc]]]].
    + subst l. exists v, rs. split; [now left | exact Ec].
    + exists v', reason. split; [now right | exact Hc].
Qed.

(** The loop over the tracked vehicles sets each flag exactly when it
    was set before or some vehicle is classified at that level. *)
Lemma analyze_shows zone (frame : Frame) vs :
  all_classified zone frame vs ->
  forall c w tvs,
  exists c' w' tvs',
    analyze Frame zone frame vs c w tvs = OK (c', w', tvs')
    /\ (c' = true <-> c = true \/ frame_shows zone frame vs critical)
    /\ (w' = true <-> w = true \/ frame_shows zone frame vs warning).
Proof.
  induction vs as [|v vs IH]; intros Hall c w tvs.
  - exists c, w, tvs. split; [reflexivity|].
    split; (split; [now left|]);
      intros [H|H]; [exact H | elim (frame_shows_nil _ _ _ H)
                    | exact H | elim (frame_shows_nil _ _ _ H)].
  - destruct (Hall v (or_introl eq_refl)) as [[lv rs] Ec].
    assert (Hall' : all_classified zone frame vs)
      by (intros v' Hin; apply Hall; now right).
    pose proof (frame_shows_cons zone frame v vs lv rs critical Ec) as Kc.
    pose proof (frame_shows_cons zone frame v vs lv rs warning Ec) as Kw.
    cbn [analyze]. rewrite Ec. cbn [bind].
    destruct lv;
      match goal with
      | |- context [analyze Frame zone frame vs ?c1 ?w1 ?t1] =>
          destruct (IH Hall' c1 w1 t1) as [c' [w' [tvs' [Ea [Hc Hw]]]]]
      end;
      exists c', w', tvs'; (split; [exact Ea|]);
      rewrite Hc, Hw, Kc, Kw; split; split;
      intros H; repeat match goal with
                       | H : _ \/ _ |- _ => destruct H
                       end;
      try discriminate; auto.
Qed.

(** The block "Trigger warnings", by cases on the two flags and on the
    cooldown test. *)
Lemma trigger_fires self sd now c w :
  let elapsed :=
    gtb (since_last_alert self sd now) (warning_cooldown self) in
  (snd (trigger self sd now c w) = Some CRITICAL
   <-> c = true /\ elapsed = true)
  /\ (snd (trigger self sd now c w) = Some WARNING
      <-> c = false /\ w = true /\ elapsed = true)
  /\ (snd (trigger self sd now c w) = None
      <-> (c = false /\ w = false) \/ elapsed = false)
  /\ side_get (last_warning_time (fst (trigger self sd now c w))) sd
     = match snd (trigger self sd now c w) with
       | Some _ => now
       | None => side_get (last_warning_time self) sd
       end
  /\ side_get (last_warning_time (fst (trigger self sd now c w)))
       (other_side sd)
     = side_get (last_warning_time self) (other_side sd)
  /\ warning_cooldown (fst (trigger self sd now c w)) = warning_cooldown self
  /\ trackers (fst (trigger self sd now c w)) = trackers self.
Proof.
  unfold trigger, since_last_alert.
  destruct (gtb (sub now (side_get (last_warning_time self) sd))
                (warning_cooldown self));
    destruct c, w; cbn [andb fst snd last_warning_time warning_cooldown
                        trackers];
    rewrite ?side_get_set_same, ?side_get_set_other;
    repeat split; try reflexivity; try discriminate;
    try (intros [? ?]; discriminate);
    try (intros [? [? ?]]; discriminate);
    try (intros [[? ?]|?]; discriminate);
    auto.
Qed.

(** A call on a frame whose vehicles all get an answer returns, with
    the flags the loop computed and the outcome of the block "Trigger
    warnings" on the state that holds the updated tracker. *)
Lemma process_side_view_returns self (frame : Frame) sd zone dets now vs :
  snd (VehicleTracker.update (side_get (trackers self) sd) dets now) = OK vs ->
  all_classified zone frame vs ->
  exists self1 c w tvs,
    last_warning_time self1 = last_warning_time self
    /\ warning_cooldown self1 = warning_cooldown self
    /\ (c = true <-> frame_shows zone frame vs critical)
    /\ (w = true <-> frame_shows zone frame vs warning)
    /\ process_side_view Frame self frame sd zone dets now
       = (fst (trigger self1 sd now c w),
          OK (mkFrameResult c w tvs (snd (trigger self1 sd now c w)))).
Proof.
  intros Hu Hall. unfold process_side_view.
  destruct (VehicleTracker.update (side_get (trackers self) sd) dets now)
    as [tracker tracked].
  cbn [snd] in Hu. subst tracked.
  destruct (analyze_shows zone frame vs Hall false false [])
    as [c [w [tvs [Ea [Hc Hw]]]]].
  rewrite Ea.
  match goal with
  | |- context [trigger ?s1 sd now c w] => exists s1, c, w, tvs
  end.
  split; [reflexivity|]. split; [reflexivity|].
  split; [rewrite Hc; split; [intros [H|H]; [discriminate | exact H]
                             | intros H; now right]|].
  split; [rewrite Hw; split; [intros [H|H]; [discriminate | exact H]
                             | intros H; now right]|].
  destruct (trigger _ sd now c w); reflexivity.
Qed.

End WithFrame.

End AlertFacts.

Section AlertProperties.

Import AdvancedBlindSpotDetection.

Variable Frame : Type.

(** C4, as amended.  On either side:
    - the cooldown starts at 1.5 and both timestamps at 0;
    - a call of [process_side_view] that returns fires an alert only if
      the time since that side's last alert exceeds the cooldown, and
      firing sets that side's timestamp to the current time; without an
      alert the timestamp stays; the other side's timestamp and the
      cooldown never change;
    - two consecutive calls for one side whose timestamps are less
      than the cooldown apart fire at most one alert;
    - when a critical threat is detected and the time since the last
      alert exceeds the cooldown, the alert fired is the critical one,
      whether or not a warning threat is detected too; with only a
      warning threat detected it is the warning one;
    - a call on a frame whose vehicles, as [update] reports them, all
      get an answer from the classifier does return, and what it does
      is fixed by what the frame shows: the critical alert fires exactly
      when some vehicle is classified critical and the time since the
      side's last alert exceeds the cooldown, the warning alert exactly
      when none is critical, some is warning and that time exceeds the
      cooldown, and no alert fires otherwise; the timestamp is the
      current time after an alert and unchanged without one;
    - after a call that fired an alert at time [now1], the next call
      for that side on a frame that shows a critical or warning vehicle
      fires again, refreshing the timestamp, if its time exceeds [now1]
      by more than the cooldown, and fires nothing, keeping [now1],
      otherwise. *)
Theorem alert_cooldown :
  warning_cooldown __init__ = lit 15 10
  /\ (forall self (frame : Frame) sd zone dets now self' r,
         process_side_view Frame self frame sd zone dets now = (self', OK r) ->
         warning_cooldown self' = warning_cooldown self
         /\ side_get (last_warning_time self') (other_side sd)
            = side_get (last_warning_time self) (other_side sd)
         /\ match alert r with
            | Some level =>
                gtb (since_last_alert self sd now) (warning_cooldown self)
                = true
                /\ leb (warning_cooldown self) (since_last_alert self sd now)
                   = true
                /\ side_get (last_warning_time self') sd = now
                /\ (critical_detected r || warning_detected r) = true
            | None =>
                side_get (last_warning_time self') sd
                = side_get (last_warning_time self) sd
            end)
  /\ (forall self (frame1 frame2 : Frame) sd zone
             dets1 now1 dets2 now2 self1 r1 self2 r2,
         process_side_view Frame self frame1 sd zone dets1 now1
         = (self1, OK r1) ->
         process_side_view Frame self1 frame2 sd zone dets2 now2
         = (self2, OK r2) ->
         ltb (sub now2 now1) (warning_cooldown self) = true ->
         alert r1 = None \/ alert r2 = None)
  /\ (forall self (frame : Frame) sd zone dets now self' r,
         process_side_view Frame self frame sd zone dets now = (self', OK r) ->
         gtb (since_last_alert self sd now) (warning_cooldown self) = true ->
         (critical_detected r = true -> alert r = Some CRITICAL)
         /\ (critical_detected r = false -> warning_detected r = true ->
             alert r = Some WARNING))
  /\ last_warning_time __init__ = mkPerSide (of_int 0) (of_int 0)
  /\ (forall self (frame : Frame) sd zone dets now vs,
         snd (VehicleTracker.update (side_get (trackers self) sd) dets now)
         = OK vs ->
         all_classified zone frame vs ->
         let elapsed :=
           gtb (since_last_alert self sd now) (warning_cooldown self) in
         exists self' r,
           process_side_view Frame self frame sd zone dets now = (self', OK r)
           /\ (critical_detected r = true
               <-> frame_shows zone frame vs critical)
           /\ (warning_detected r = true
               <-> frame_shows zone frame vs warning)
           /\ (alert r = Some CRITICAL
               <-> frame_shows zone frame vs critical /\ elapsed = true)
           /\ (alert r = Some WARNING
               <-> ~ frame_shows zone frame vs critical
                   /\ frame_shows zone frame vs warning /\ elapsed = true)
           /\ (alert r = None
               <-> (~ frame_shows zone frame vs critical
                    /\ ~ frame_shows zone frame vs warning)
                   \/ elapsed = false)
           /\ side_get (last_warning_time self') sd
              = match alert r with
                | Some _ => now
                | None => side_get (last_warning_time self) sd
                end)
  /\ (forall self (frame1 frame2 : Frame) sd zone
             dets1 now1 dets2 now2 self1 r1 vs2,
         process_side_view Frame self frame1 sd zone dets1 now1
         = (self1, OK r1) ->
         alert r1 <> None ->
         snd (VehicleTracker.update (side_get (trackers self1) sd) dets2 now2)
         = OK vs2 ->
         all_classified zone frame2 vs2 ->
         frame_shows zone frame2 vs2 critical
         \/ frame_shows zone frame2 vs2 warning ->
         exists self2 r2,
           process_side_view Frame self1 frame2 sd zone dets2 now2
           = (self2, OK r2)
           /\ (gtb (sub now2 now1) (warning_cooldown self) = true ->
               alert r2 <> None
               /\ side_get (last_warning_time self2) sd = now2)
           /\ (gtb (sub now2 now1) (warning_cooldown self) = false ->
               alert r2 = None
               /\ side_get (last_warning_time self2) sd = now1)).
Proof.
  assert (Hcall : forall self (frame : Frame) sd zone dets now vs,
             snd (VehicleTracker.update (side_get (trackers self) sd) dets now)
             = OK vs ->
             all_classified zone frame vs ->
             let elapsed :=
               gtb (since_last_alert self sd now) (warning_cooldown self) in
             exists self' r,
               process_side_view Frame self frame sd zone dets now
               = (self', OK r)
               /\ (critical_detected r = true
                   <-> frame_shows zone frame vs critical)
               /\ (warning_detected r = true
                   <-> frame_shows zone frame vs warning)
               /\ (alert r = Some CRITICAL
                   <-> frame_shows zone frame vs critical /\ elapsed = true)
               /\ (alert r = Some WARNING
                   <-> ~ frame_shows zone frame vs critical
                       /\ frame_shows zone frame vs warning
                       /\ elapsed = true)
               /\ (alert r = None
                   <-> (~ frame_shows zone frame vs critical
                        /\ ~ frame_shows zone frame vs warning)
                       \/ elapsed = false)
               /\ side_get (last_warning_time self') sd
                  = match alert r with
                    | Some _ => now
                    | None => side_get (last_warning_time self) sd
                    end).
  { intros self frame sd zone dets now vs Hu Hall elapsed.
    destruct (AlertFacts.process_side_view_returns Frame self frame sd zone
                dets now vs Hu Hall)
      as [s1 [c [w [tvs [El [Ec [Hc [Hw E]]]]]]]].
    pose proof (AlertFacts.trigger_fires s1 sd now c w) as T.
    cbv zeta in T. unfold since_last_alert in T. rewrite El, Ec in T.
    fold (since_last_alert self sd now) in T. fold elapsed in T.
    destruct T as [T1 [T2 [T3 [T4 _]]]].
    assert (Hc' : c = false <-> ~ frame_shows zone frame vs critical).
    { rewrite <- Hc. destruct c; split; intros H;
        first [discriminate | reflexivity | elim H; reflexivity
              | intros K; discriminate]. }
    assert (Hw' : w = false <-> ~ frame_shows zone frame vs warning).
    { rewrite <- Hw. destruct w; split; intros H;
        first [discriminate | reflexivity | elim H; reflexivity
              | intros K; discriminate]. }
    eexists. eexists. split; [exact E|].
    cbn [critical_detected warning_detected alert].
    split; [exact Hc|]. split; [exact Hw|].
    split; [rewrite T1, Hc; reflexivity|].
    split; [rewrite T2, Hc'; rewrite Hw; reflexivity|].
    split; [rewrite T3, Hc', Hw'; reflexivity|].
    exact T4. }
  split; [reflexivity|].
  split.
  { intros self frame sd zone dets now self' r H.
    apply AlertFacts.process_side_view_inv in H.
    destruct H as [s1 [El [Ec Ht]]].
    apply AlertFacts.trigger_spec in Ht.
    unfold since_last_alert in *. rewrite El, Ec in Ht.
    destruct Ht as [H1 [H2 H3]].
    split; [exact H1|]. split; [exact H2|].
    destruct (alert r) as [level|].
    + destruct H3 as [Hg [Hs [Hc Hw]]].
      split; [exact Hg|]. split; [apply ltb_leb, Hg|]. split; [exact Hs|].
      destruct level; [rewrite (proj1 Hc eq_refl) | rewrite (Hw eq_refl)];
        [reflexivity | apply orb_true_r].
    + exact (proj1 H3). }
  split.
  { intros self frame1 frame2 sd zone dets1 now1 dets2 now2
           self1 r1 self2 r2 H1 H2 Hlt.
    apply AlertFacts.process_side_view_inv in H1, H2.
    destruct H1 as [s1 [El1 [Ec1 Ht1]]].
    destruct H2 as [s2 [El2 [Ec2 Ht2]]].
    apply AlertFacts.trigger_spec in Ht1, Ht2.
    destruct Ht1 as [C1 [_ A1]]. destruct Ht2 as [_ [_ A2]].
    destruct (alert r1) as [l1|]; [|now left].
    destruct (alert r2) as [l2|]; [|now right].
    exfalso.
    destruct A1 as [_ [Hs _]]. destruct A2 as [Hg _].
    unfold since_last_alert in Hg.
    rewrite El2, Ec2, Hs, C1, Ec1 in Hg.
    apply ltb_asym in Hlt. unfold gtb, ltb in *. congruence. }
  split.
  { intros self frame sd zone dets now self' r H Hg.
    apply AlertFacts.process_side_view_inv in H.
    destruct H as [s1 [El [Ec Ht]]].
    unfold since_last_alert in Hg. rewrite <- El, <- Ec in Hg.
    unfold trigger in Ht. rewrite Hg in Ht.
    split.
    + intros Hc. rewrite Hc in Ht. cbn [andb] in Ht.
      inversion Ht. reflexivity.
    + intros Hc Hw. rewrite Hc, Hw in Ht. cbn [andb] in Ht.
      inversion Ht. reflexivity. }
  split; [reflexivity|]. split; [exact Hcall|].
  intros self frame1 frame2 sd zone dets1 now1 dets2 now2 self1 r1 vs2
         H1 Hfired Hu Hall Hshows.
  apply AlertFacts.process_side_view_inv in H1.
  destruct H1 as [s1 [El1 [Ec1 Ht1]]].
  apply AlertFacts.trigger_spec in Ht1.
  destruct Ht1 as [C1 [_ A1]].
  destruct (alert r1) as [l1|]; [|contradiction].
  destruct A1 as [_ [Hs _]].
  destruct (Hcall self1 frame2 sd zone dets2 now2 vs2 Hu Hall)
    as [self2 [r2 [E2 [_ [_ [K1 [K2 [K3 K4]]]]]]]].
  unfold since_last_alert in K1, K2, K3. rewrite Hs, C1, Ec1 in K1, K2, K3.
  exists self2, r2. split; [exact E2|]. split.
  - intros Hg. rewrite Hg in K3.
    assert (Hn : alert r2 <> None).
    { intros N. apply K3 in N. destruct N as [[N1 N2]|N]; [|discriminate].
      destruct Hshows; contradiction. }
    split; [exact Hn|]. rewrite K4.
    destruct (alert r2); [reflexivity | contradiction].
  - intros Hg. rewrite Hg in K3.
    assert (Hn : alert r2 = None) by (apply K3; now right).
    split; [exact Hn|]. rewrite K4, Hn. exact Hs.
Qed.

End AlertProperties.

Lemma alert_cooldown_witness :
  let self := AdvancedBlindSpotDetection.__init__ in
  let zone := Scenario.zone in
  let dets := [Instances.det_at Instances.box_a] in
  exists self1 r1,
    AdvancedBlindSpotDetection.process_side_view unit self tt left zone dets
      (of_int 1000) = (self1, OK r1)
    /\ AdvancedBlindSpotDetection.alert r1 = Some CRITICAL
    /\ side_get (AdvancedBlindSpotDetection.last_warning_time self1) left
       = of_int 1000
    /\ (exists self2 r2,
          AdvancedBlindSpotDetection.process_side_view unit self1 tt left
            zone dets (of_int 1001) = (self2, OK r2)
          /\ AdvancedBlindSpotDetection.alert r2 = None
          /\ side_get (AdvancedBlindSpotDetection.last_warning_time self2)
               left = of_int 1000)
    /\ (exists self2 r2,
          AdvancedBlindSpotDetection.process_side_view unit self1 tt left
            zone dets (of_int 1002) = (self2, OK r2)
          /\ AdvancedBlindSpotDetection.alert r2 <> None
          /\ side_get (AdvancedBlindSpotDetection.last_warning_time self2)
               left = of_int 1002).
Proof.
  intros self zone dets.
  destruct (alert_cooldown unit) as [_ [_ [_ [_ [_ [Hcall Hnext]]]]]].
  assert (Hu : snd (VehicleTracker.update
                      (side_get (AdvancedBlindSpotDetection.trackers self)
                         left) dets (of_int 1000))
               = OK [Scenario.vehicle1 2])
    by (vm_compute; reflexivity).
  assert (Hall : all_classified zone tt [Scenario.vehicle1 2]).
  { intros v [E|[]]. subst v. eexists. vm_compute. reflexivity. }
  assert (Hs : frame_shows zone tt [Scenario.vehicle1 2] critical).
  { exists (Scenario.vehicle1 2), "Parallel in blind spot"%string.
    split; [now left | vm_compute; reflexivity]. }
  destruct (Hcall self tt left zone dets (of_int 1000) _ Hu Hall)
    as [self1 [r1 [E1 [_ [_ [K1 [_ [_ K4]]]]]]]].
  assert (A1 : AdvancedBlindSpotDetection.alert r1 = Some CRITICAL)
    by (apply K1; split; [exact Hs | vm_compute; reflexivity]).
  assert (N1 : AdvancedBlindSpotDetection.alert r1 <> None)
    by (rewrite A1; discriminate).
  exists self1, r1. split; [exact E1|]. split; [exact A1|].
  split; [rewrite K4, A1; reflexivity|].
  assert (Es : self1
               = fst (AdvancedBlindSpotDetection.process_side_view unit self
                        tt left zone dets (of_int 1000)))
    by (rewrite E1; reflexivity).
  vm_compute in Es.
  set (v2 := mkTrackedVehicle 0 Instances.box_a 2
               (S754_zero false, S754_zero false) 2
               (Some [Instances.box_a; Instances.box_a])).
  assert (Hall2 : all_classified zone tt [v2]).
  { intros v [E|[]]. subst v. eexists. vm_compute. reflexivity. }
  assert (Hs2 : frame_shows zone tt [v2] critical).
  { exists v2, "Parallel in blind spot"%string.
    split; [now left | vm_compute; reflexivity]. }
  split.
  - destruct (Hnext self tt tt left zone dets (of_int 1000) dets
                (of_int 1001) self1 r1 [v2] E1 N1)
      as [self2 [r2 [E2 [_ F]]]];
      [rewrite Es; vm_compute; reflexivity | exact Hall2 | now left|].
    exists self2, r2. split; [exact E2|].
    apply F. vm_compute. reflexivity.
  - destruct (Hnext self tt tt left zone dets (of_int 1000) dets
                (of_int 1002) self1 r1 [v2] E1 N1)
      as [self2 [r2 [E2 [T _]]]];
      [rewrite Es; vm_compute; reflexivity | exact Hall2 | now left|].
    exists self2, r2. split; [exact E2|].
    apply T. vm_compute. reflexivity.
Defined.

(** C4 as stated fails at the boundary: with exactly the cooldown
    elapsed since the side's last alert, a frame with a critical vehicle
    fires no alert and leaves the timestamp as it was. *)
Lemma alert_at_exact_cooldown_counterexample :
  let self := AdvancedBlindSpotDetection.__init__ in
  let now := lit 15 10 in
  since_last_alert self left now
  = AdvancedBlindSpotDetection.warning_cooldown self
  /\ leb (AdvancedBlindSpotDetection.warning_cooldown self)
         (since_last_alert self left now) = true
  /\ exists self' r,
      AdvancedBlindSpotDetection.process_side_view unit self tt left
        Scenario.zone [Instances.det_at Instances.box_a] now = (self', OK r)
      /\ AdvancedBlindSpotDetection.critical_detected r = true
      /\ AdvancedBlindSpotDetection.alert r = None
      /\ side_get (AdvancedBlindSpotDetection.last_warning_time self') left
         = of_int 0.
Proof.
  intros self now.
  split; [vm_compute; reflexivity|]. split; [vm_compute; reflexivity|].
  destruct (AdvancedBlindSpotDetection.process_side_view unit self tt left
              Scenario.zone [Instances.det_at Instances.box_a] now)
    as [self' r] eqn:E.
  vm_compute in E. injection E as E1 E2. subst self' r.
  eexists. eexists. split; [reflexivity|].
  split; [reflexivity|]. split; reflexivity.
Qed.

(* ================================================================== *)
(** * The two-frame scenario on the left camera, 800 x 600 *)
(* ================================================================== *)

Section ScenarioProperties.

Import Scenario.

Variable Frame : Type.
Variables frame1 frame2 : Frame.

(** The two calls are made at any two timestamps, on detections of any
    class and confidence. *)
Variables now1 now2 conf1 conf2 : float.
Variables cls1 cls2 : Z.

Let det1 := mkDetection bbox1 conf1 cls1.
Let det2 := mkDetection bbox2 conf2 cls2.
Let tracker1 := fst (VehicleTracker.update (VehicleTracker.__init__ 10) [det1] now1).
Let state1 :=
  fst (AdvancedBlindSpotDetection.process_side_view Frame
         AdvancedBlindSpotDetection.__init__ frame1 left zone [det1] now1).

(** C3, as amended.  On the left side of an 800 x 600 frame, the
    detection [[100,300,60,200]] at frame 1 creates one track, reported
    with velocity (0, 0); with that zero velocity it is already
    classified [critical], reason "Parallel in blind spot", and
    [critical_detected] is true at frame 1.  The detection
    [[70,300,60,200]] at frame 2 is matched to the same track, whose
    velocity is then (-30, 0): approaching ([vx < -3]), centre
    [x = 100 < 280], classified [critical] with reason
    "Fast approach in blind spot", and [critical_detected] is true. *)
Theorem scenario_left_800x600 :
  AdaptiveBlindSpotZone.base_critical zone = (0, 280)
  /\ VehicleTracker.update (VehicleTracker.__init__ 10) [det1] now1
     = (tracker1, OK [vehicle1 cls1])
  /\ track_ids tracker1 = [0]
  /\ AdaptiveBlindSpotZone.classify_threat Frame zone (vehicle1 cls1) frame1
     = OK (critical, "Parallel in blind spot"%string)
  /\ flags (snd (AdvancedBlindSpotDetection.process_side_view Frame
                   AdvancedBlindSpotDetection.__init__
                   frame1 left zone [det1] now1))
     = OK (true, false)
  /\ snd (VehicleTracker.update tracker1 [det2] now2) = OK [vehicle2 cls1]
  /\ track_ids (fst (VehicleTracker.update tracker1 [det2] now2)) = [0]
  /\ ltb (fst (tv_velocity (vehicle2 cls1))) (of_int (-3)) = true
  /\ fst (bbox_center (tv_bbox (vehicle2 cls1))) = 100
  /\ AdaptiveBlindSpotZone.classify_threat Frame zone (vehicle2 cls1) frame2
     = OK (critical, "Fast approach in blind spot"%string)
  /\ flags (snd (AdvancedBlindSpotDetection.process_side_view Frame
                   state1 frame2 left zone [det2] now2))
     = OK (true, false).
Proof.
  assert (C1 : AdaptiveBlindSpotZone.classify_threat Frame zone
                 (vehicle1 cls1) frame1
               = OK (critical, "Parallel in blind spot"%string))
    by (vm_compute; reflexivity).
  assert (C2 : AdaptiveBlindSpotZone.classify_threat Frame zone
                 (vehicle2 cls1) frame2
               = OK (critical, "Fast approach in blind spot"%string))
    by (vm_compute; reflexivity).
  assert (U1 : VehicleTracker.update (VehicleTracker.__init__ 10) [det1] now1
               = (tracker1, OK [vehicle1 cls1]))
    by (vm_compute; reflexivity).
  assert (U2 : snd (VehicleTracker.update tracker1 [det2] now2)
               = OK [vehicle2 cls1])
    by (vm_compute; reflexivity).
  split; [vm_compute; reflexivity|].
  split; [exact U1|].
  split; [vm_compute; reflexivity|].
  split; [exact C1|].
  split.
  { unfold AdvancedBlindSpotDetection.process_side_view.
    change (side_get (AdvancedBlindSpotDetection.trackers
                        AdvancedBlindSpotDetection.__init__) left)
      with (VehicleTracker.__init__ 10).
    rewrite U1. cbn [AdvancedBlindSpotDetection.analyze bind].
    rewrite C1. cbn [bind AdvancedBlindSpotDetection.analyze].
    destruct (AdvancedBlindSpotDetection.trigger _ _ _ _ _) as [s f].
    reflexivity. }
  split; [exact U2|].
  split; [vm_compute; reflexivity|].
  split; [vm_compute; reflexivity|].
  split; [vm_compute; reflexivity|].
  split; [exact C2|].
  unfold AdvancedBlindSpotDetection.process_side_view.
  assert (T : side_get (AdvancedBlindSpotDetection.trackers state1) left
              = tracker1).
  { unfold state1, AdvancedBlindSpotDetection.process_side_view.
    change (side_get (AdvancedBlindSpotDetection.trackers
                        AdvancedBlindSpotDetection.__init__) left)
      with (VehicleTracker.__init__ 10).
    rewrite U1. cbn [AdvancedBlindSpotDetection.analyze bind].
    rewrite C1. cbn [bind AdvancedBlindSpotDetection.analyze].
    destruct (AdvancedBlindSpotDetection.trigger _ _ _ _ _) as [s f] eqn:Et.
    unfold AdvancedBlindSpotDetection.trigger in Et.
    destruct (_ && _) in Et; inversion Et; reflexivity. }
  rewrite T.
  destruct (VehicleTracker.update tracker1 [det2] now2) as [tr2 out2].
  cbn [snd] in U2. rewrite U2.
  cbn [AdvancedBlindSpotDetection.analyze bind].
  rewrite C2. cbn [bind AdvancedBlindSpotDetection.analyze].
  destruct (AdvancedBlindSpotDetection.trigger _ _ _ _ _) as [s f].
  reflexivity.
Qed.

End ScenarioProperties.

(** C3 as stated fails at frame 1: the track just created, with velocity
    (0, 0), is classified [critical] there already, and the frame reports
    [critical_detected]. *)
Lemma scenario_frame1_counterexample :
  let det1 := mkDetection Scenario.bbox1 (lit 9 10) 2 in
  let now1 := of_int 1700000000 in
  exists v,
    snd (VehicleTracker.update (VehicleTracker.__init__ 10) [det1] now1)
    = OK [v]
    /\ tv_velocity v = (of_int 0, of_int 0)
    /\ AdaptiveBlindSpotZone.classify_threat unit Scenario.zone v tt
       = OK (critical, "Parallel in blind spot"%string)
    /\ Scenario.flags
         (snd (AdvancedBlindSpotDetection.process_side_view unit
                 AdvancedBlindSpotDetection.__init__ tt left Scenario.zone
                 [det1] now1))
       = OK (true, false).
Proof.
  exists (Scenario.vehicle1 2).
  repeat split; vm_compute; reflexivity.
Qed.

(* ================================================================== *)
(** * The static zones *)
(* ================================================================== *)

Section StaticZoneProperties.

Import BlindSpotZone.

(** C9, as amended.  [get_zone] answers [none] exactly when the top
    edge [y] of the box lies outside the band from [0.2 * H] to
    [0.8 * H]; for two boxes whose top edges lie inside the band and
    whose centres have the same horizontal coordinate the answers
    agree, and such an answer is [critical], [warning] or [safe]. *)
Theorem get_zone_none_iff_top_outside (self : t) :
  (forall b, get_zone self b = none <-> top_outside_band self b = true)
  /\ (forall b,
         top_outside_band self b = false ->
         get_zone self b = critical \/ get_zone self b = warning
         \/ get_zone self b = safe)
  /\ (forall b1 b2,
         top_outside_band self b1 = false ->
         top_outside_band self b2 = false ->
         fst (bbox_center b1) = fst (bbox_center b2) ->
         get_zone self b1 = get_zone self b2).
Proof.
  split; [|split].
  - intros [x y w h]. unfold get_zone, top_outside_band. cbn [by_].
    destruct (_ || _); [split; reflexivity|].
    split; [|discriminate].
    destruct (side self);
      repeat match goal with
             | |- context [if ?c then _ else _] => destruct c
             end; discriminate.
  - intros [x y w h]. unfold get_zone, top_outside_band. cbn [by_].
    intros H. rewrite H.
    destruct (side self);
      repeat match goal with
             | |- context [if ?c then _ else _] => destruct c
             end; tauto.
  - intros [x1 y1 w1 h1] [x2 y2 w2 h2].
    unfold get_zone, top_outside_band, bbox_center.
    cbn [bx by_ bw bh fst]. intros H1 H2 E. rewrite H1, H2, E.
    reflexivity.
Qed.

End StaticZoneProperties.

(** C9 as stated fails: in a 100 x 100 frame the box [[0,10,10,40]] has
    its centre at height 30, inside the band from 20 to 80, and
    [get_zone] answers [none], its top edge being at 10. *)
Lemma get_zone_center_counterexample :
  let self := BlindSpotZone.__init__ 100 100 left in
  let b := mkBBox 0 10 10 40 in
  snd (bbox_center b) = 30
  /\ center_outside_band self b = false
  /\ BlindSpotZone.get_zone self b = none.
Proof. repeat split; vm_compute; reflexivity. Qed.

(* ================================================================== *)
(** * The tracker properties on concrete states *)
(* ================================================================== *)

Lemma update_no_detections_witness :
  let self := Instances.two_tracks in
  let now := lit 1075 100 in
  snd (VehicleTracker.update self [] now) = OK []
  /\ track_ids (fst (VehicleTracker.update self [] now)) = [1].
Proof.
  intros self now.
  assert (H : forall k tr, In (k, tr) (VehicleTracker.tracks self) ->
                is_finite (last_seen tr) = true).
  { intros k tr [E|[E|[]]]; inversion E; reflexivity. }
  destruct (update_no_detections self now eq_refl eq_refl H)
    as [A [_ [C _]]].
  split; [exact A|].
  unfold track_ids. rewrite C. vm_compute. reflexivity.
Defined.

Lemma far_detection_starts_new_track_witness :
  let self := Instances.one_track in
  let d := Instances.det_at Instances.box_b in
  exists k,
    1 <= k
    /\ Dict.get
         (VehicleTracker.tracks
            (fst (VehicleTracker.update self [d] (lit 101 10)))) k
       = Some (fresh_track self d (lit 101 10)).
Proof.
  intros self d.
  assert (Hids : ids_below_next self).
  { split.
    - constructor; [intros [] | constructor].
    - intros k [E|[]]. subst. reflexivity. }
  assert (Hfar : far_from_all self d).
  { intros k tr lp [E|[]] Hl. inversion E; subst.
    vm_compute in Hl. inversion Hl. vm_compute. reflexivity. }
  destruct (far_detection_starts_new_track self [d] (lit 101 10) 0%nat d
              Hids eq_refl Hfar) as [_ [k [Hk [_ Hg]]]].
  exists k. split; [exact (proj1 Hk) | exact Hg].
Defined.

Lemma history_bounded_fifo_witness :
  let st := run (VehicleTracker.__init__ 2) Instances.three_calls in
  exists tr,
    Dict.get (VehicleTracker.tracks st) 0 = Some tr
    /\ Deque.items (positions tr)
       = [mkBBox 101 300 60 200; mkBBox 102 300 60 200]
    /\ (Deque.len (positions tr) <= 2)%nat.
Proof.
  intros st.
  eexists. split; [vm_compute; reflexivity|].
  split; [reflexivity|].
  refine (proj1 (history_bounded_fifo 2 Instances.three_calls 0 _ _)).
  vm_compute. reflexivity.
Defined.

(* ================================================================== *)
(** * Further properties of the classifier *)
(* ================================================================== *)

Module CombineFacts.

Import AdaptiveBlindSpotZone.

Lemma _analyze_motion_level (self : t) (b : BBox) (vel : float * float) :
  fst (_analyze_motion self b vel) <> none.
Proof.
  unfold _analyze_motion. destruct b as [x y w h], vel as [vx vy].
  destruct (side self);
    repeat match goal with
           | |- context [if ?c then _ else _] => destruct c
           end; discriminate.
Qed.

Lemma _analyze_distance_level (self : t) (h : Z) (d : Threat) :
  _analyze_distance self h = OK d -> d <> none.
Proof.
  unfold _analyze_distance, int_truediv.
  destruct (height self =? 0); [discriminate|]. cbn [bind].
  repeat match goal with
         | |- context [if ?c then _ else _] => destruct c
         end; intros E; inversion E; discriminate.
Qed.

Lemma _analyze_distance_raises (self : t) (h : Z) (e : exn) :
  _analyze_distance self h = Raise e
  <-> e = ZeroDivisionError /\ height self = 0.
Proof.
  unfold _analyze_distance, int_truediv.
  destruct (Z.eqb_spec (height self) 0) as [E|E]; cbn [bind].
  - split; [intros H; inversion H; split; [reflexivity | exact E]|].
    intros [He _]. subst. reflexivity.
  - split; [|intros [_ H]; contradiction].
    repeat match goal with
           | |- context [if ?c then _ else _] => destruct c
           end; discriminate.
Qed.

(** [classify_threat] past its first lines, in terms of the three
    filters. *)
Lemma classify_threat_unfold (Frame : Type) (self : t) (v : TrackedVehicle)
    (frame : Frame) :
  classify_threat Frame self v frame =
  if _is_in_self_zone self (tv_bbox v) then
    OK (none, "In self-vehicle zone"%string)
  else if out_of_roi self (tv_bbox v) then
    OK (none, "Out of ROI (vertical)"%string)
  else
    match _analyze_lane_position self (fst (bbox_center (tv_bbox v)))
            (tv_velocity v) with
    | opposite_lane => OK (none, "Opposite lane traffic"%string)
    | same_lane =>
        match _analyze_distance self (bh (tv_bbox v)) with
        | Raise e => Raise e
        | OK d =>
            let m := fst (_analyze_motion self (tv_bbox v) (tv_velocity v)) in
            let r := snd (_analyze_motion self (tv_bbox v) (tv_velocity v)) in
            if Threat_eqb d safe then OK (safe, "Distant vehicle"%string)
            else if Threat_eqb m none then OK (none, r)
            else if Threat_eqb m critical || Threat_eqb d critical then
              OK (critical,
                  if Threat_eqb d critical then "Very close"%string else r)
            else if Threat_eqb m warning || Threat_eqb d warning then
              OK (warning,
                  if Threat_eqb d warning && Threat_eqb m safe
                  then "Moderately close"%string else r)
            else OK (safe, "No immediate threat"%string)
        end
    end.
Proof.
  unfold classify_threat, out_of_roi, bbox_center.
  destruct (tv_bbox v) as [x y w h]. cbn [bx by_ bw bh fst snd].
  destruct (_is_in_self_zone self (mkBBox x y w h)); [reflexivity|].
  destruct (_ || _); [reflexivity|].
  destruct (_analyze_lane_position self (x + w / 2) (tv_velocity v));
    [|reflexivity].
  destruct (_analyze_distance self h) as [d|e]; [|reflexivity].
  cbn [bind].
  destruct (_analyze_motion self (mkBBox x y w h) (tv_velocity v))
    as [m r].
  reflexivity.
Qed.

End CombineFacts.

Section ClassifierDecisions.

Import AdaptiveBlindSpotZone.

Variable Frame : Type.

(** X1.  [classify_threat] answers [none] in exactly three situations,
    each with its own reason: the centre is in the self-exclusion
    rectangle; else the centre is outside the vertical region of
    interest; else the vehicle is opposite-lane traffic.  Past these
    filters the answer is never [none]: the motion analysis never
    returns [none], so the guard on it in the combine step never
    fires. *)
Theorem classify_threat_none_iff
    (self : t) (v : TrackedVehicle) (frame : Frame) (reason : string) :
  classify_threat Frame self v frame = OK (none, reason)
  <-> (_is_in_self_zone self (tv_bbox v) = true
       /\ reason = "In self-vehicle zone"%string)
      \/ (_is_in_self_zone self (tv_bbox v) = false
          /\ out_of_roi self (tv_bbox v) = true
          /\ reason = "Out of ROI (vertical)"%string)
      \/ (_is_in_self_zone self (tv_bbox v) = false
          /\ out_of_roi self (tv_bbox v) = false
          /\ _analyze_lane_position self (fst (bbox_center (tv_bbox v)))
               (tv_velocity v) = opposite_lane
          /\ reason = "Opposite lane traffic"%string).
Proof.
  rewrite CombineFacts.classify_threat_unfold.
  destruct (_is_in_self_zone self (tv_bbox v)).
  { split.
    - intros E. inversion E. left. split; reflexivity.
    - intros [[_ H]|[[H _]|[H _]]]; try discriminate. subst. reflexivity. }
  destruct (out_of_roi self (tv_bbox v)).
  { split.
    - intros E. inversion E. right. left. repeat split; reflexivity.
    - intros [[H _]|[[_ [_ H]]|[_ [H _]]]]; try discriminate.
      subst. reflexivity. }
  destruct (_analyze_lane_position self _ (tv_velocity v)).
  2:{ split.
      - intros E. inversion E. right. right. repeat split; reflexivity.
      - intros [[H _]|[[_ [H _]]|[_ [_ [_ H]]]]]; try discriminate.
        subst. reflexivity. }
  split.
  2:{ intros [[H _]|[[_ [H _]]|[_ [_ [H _]]]]]; discriminate. }
  destruct (_analyze_distance self (bh (tv_bbox v))) as [d|e] eqn:Ed;
    [|discriminate].
  pose proof (CombineFacts._analyze_motion_level self (tv_bbox v)
                (tv_velocity v)) as Hm.
  pose proof (CombineFacts._analyze_distance_level self _ d Ed) as Hd.
  cbv zeta.
  destruct (fst (_analyze_motion self (tv_bbox v) (tv_velocity v))), d;
    try contradiction; cbn [Threat_eqb orb andb]; discriminate.
Qed.

(** X2.  Past the three filters, with a frame of non-zero height, the
    level is the more severe of the distance threat and the motion
    threat, except that a distance threat of [safe] alone decides: the
    answer is [safe] exactly when the distance proxy says [safe], so a
    vehicle whose height ratio is above 0.30 is never [safe], even when
    it moves away.  The reason is "Distant vehicle" for a [safe]
    distance, "Very close" for a [critical] one, and for a [warning]
    distance "Moderately close" when the motion threat is [safe] and the
    motion analysis's own reason otherwise. *)
Theorem classify_threat_combines
    (self : t) (v : TrackedVehicle) (frame : Frame) (d : Threat) :
  passes_filters self v ->
  _analyze_distance self (bh (tv_bbox v)) = OK d ->
  let m := fst (_analyze_motion self (tv_bbox v) (tv_velocity v)) in
  let motion_reason :=
    snd (_analyze_motion self (tv_bbox v) (tv_velocity v)) in
  exists level,
    classify_threat Frame self v frame
    = OK (level, combined_reason d m motion_reason)
    /\ (level = safe <-> d = safe)
    /\ (d <> safe -> severity level = Nat.max (severity d) (severity m)).
Proof.
  intros [Hs [Hr Hl]] Hd m motion_reason.
  rewrite CombineFacts.classify_threat_unfold, Hs, Hr, Hl, Hd.
  pose proof (CombineFacts._analyze_motion_level self (tv_bbox v)
                (tv_velocity v)) as Hm.
  pose proof (CombineFacts._analyze_distance_level self _ d Hd) as Hd'.
  cbv zeta. fold m motion_reason. fold m in Hm.
  destruct m, d; try contradiction;
    cbn [Threat_eqb orb andb combined_reason severity Nat.max];
    eexists; (split; [reflexivity|]);
    (split; [split; intros E; try reflexivity; discriminate|]);
    intros H; try reflexivity; contradiction.
Qed.

(** X3.  For a zone and a vehicle in range (frame size and box
    coordinates of magnitude at most 2^53, velocity components of
    magnitude at most 2^55, so that no conversion, quotient or square
    the code computes overflows), [classify_threat] raises only
    [ZeroDivisionError], and exactly when the frame height is 0 and the
    vehicle gets past the three filters; a vehicle stopped by a filter
    is answered even then. *)
Theorem classify_threat_raises_iff
    (self : t) (v : TrackedVehicle) (frame : Frame) (e : exn) :
  zone_in_range self ->
  vehicle_in_range v ->
  classify_threat Frame self v frame = Raise e
  <-> e = ZeroDivisionError /\ height self = 0 /\ passes_filters self v.
Proof.
  intros _ _.
  rewrite CombineFacts.classify_threat_unfold. unfold passes_filters.
  destruct (_is_in_self_zone self (tv_bbox v));
    [split; [discriminate | intros [_ [_ [H _]]]; discriminate]|].
  destruct (out_of_roi self (tv_bbox v));
    [split; [discriminate | intros [_ [_ [_ [H _]]]]; discriminate]|].
  destruct (_analyze_lane_position self _ (tv_velocity v));
    [|split; [discriminate | intros [_ [_ [_ [_ H]]]]; discriminate]].
  destruct (_analyze_distance self (bh (tv_bbox v))) as [d|e'] eqn:Ed.
  - split.
    + cbv zeta.
      repeat match goal with
             | |- context [if ?c then _ else _] => destruct c
             end; discriminate.
    + intros [He [Hh _]].
      assert (Hx : _analyze_distance self (bh (tv_bbox v)) = Raise e)
        by (apply CombineFacts._analyze_distance_raises; tauto).
      congruence.
  - apply CombineFacts._analyze_distance_raises in Ed.
    destruct Ed as [He Hh]. subst e'. split.
    + intros E. inversion E. repeat split; auto.
    + intros [E _]. subst. reflexivity.
Qed.

End ClassifierDecisions.

Lemma classify_threat_combines_witness :
  let self := AdaptiveBlindSpotZone.__init__ 800 600 left in
  AdaptiveBlindSpotZone._analyze_motion self (tv_bbox vehicle_leaving)
    (tv_velocity vehicle_leaving) = (safe, "Moving away"%string)
  /\ exists level,
      AdaptiveBlindSpotZone.classify_threat unit self vehicle_leaving tt
      = OK (level, "Moderately close"%string)
      /\ (level = safe <-> warning = safe).
Proof.
  intros self. split; [vm_compute; reflexivity|].
  assert (Hp : passes_filters self vehicle_leaving)
    by (repeat split; vm_compute; reflexivity).
  assert (Hd : AdaptiveBlindSpotZone._analyze_distance self
                 (bh (tv_bbox vehicle_leaving)) = OK warning)
    by (vm_compute; reflexivity).
  destruct (classify_threat_combines unit self vehicle_leaving tt warning
              Hp Hd) as [level [H1 [H2 _]]].
  exists level. split; [exact H1 | exact H2].
Defined.

Lemma classify_threat_raises_iff_witness :
  let self := AdaptiveBlindSpotZone.__init__ 800 0 left in
  zone_in_range self
  /\ vehicle_in_range vehicle_on_edge
  /\ AdaptiveBlindSpotZone.classify_threat unit self vehicle_on_edge tt
     = Raise ZeroDivisionError.
Proof.
  intros self.
  assert (Hz : zone_in_range self) by (split; split; discriminate).
  assert (Hv : vehicle_in_range vehicle_on_edge).
  { split; [repeat split; discriminate|].
    split; split; vm_compute; reflexivity. }
  split; [exact Hz|]. split; [exact Hv|].
  apply (classify_threat_raises_iff unit self vehicle_on_edge tt
           ZeroDivisionError Hz Hv).
  split; [reflexivity|]. split; [reflexivity|].
  repeat split; vm_compute; reflexivity.
Defined.

(* ================================================================== *)
(** * Frame aggregation and camera sessions *)
(* ================================================================== *)

Module AggregationFacts.

Import AdvancedBlindSpotDetection.

Section WithFrame.

Variable Frame : Type.

Lemma existsb_listed (l : Threat) (v : TrackedVehicle) (c : Threat * string) :
  l <> none ->
  existsb (has_level l) (listed v c) = Threat_eqb (fst c) l.
Proof.
  intros Hl. unfold listed, has_level. destruct c as [lv rs]. cbn [fst snd].
  destruct lv, l; try reflexivity; contradiction.
Qed.

(** The loop over the tracked vehicles, for any starting flags and
    list. *)
Lemma analyze_spec zone (frame : Frame) vs :
  forall c w tvs c' w' tvs',
    analyze Frame zone frame vs c w tvs = OK (c', w', tvs') ->
    exists cs,
      Forall2 (fun v cl =>
                 AdaptiveBlindSpotZone.classify_threat Frame zone v frame
                 = OK cl) vs cs
      /\ tvs' = tvs ++ flat_map (fun p => listed (fst p) (snd p))
                                (combine vs cs)
      /\ c' = c || existsb (has_level critical)
                     (flat_map (fun p => listed (fst p) (snd p))
                               (combine vs cs))
      /\ w' = w || existsb (has_level warning)
                     (flat_map (fun p => listed (fst p) (snd p))
                               (combine vs cs)).
Proof.
  induction vs as [|v vs IH]; intros c w tvs c' w' tvs' H.
  - cbn [analyze] in H. inversion H; subst. exists [].
    cbn [combine flat_map existsb]. rewrite app_nil_r, !orb_false_r.
    repeat split; constructor.
  - cbn [analyze] in H.
    destruct (AdaptiveBlindSpotZone.classify_threat Frame zone v frame)
      as [[lv rs]|e] eqn:Ec; [|discriminate].
    cbn [bind] in H.
    assert (Hstep : exists c1 w1,
               analyze Frame zone frame vs c1 w1 (tvs ++ listed v (lv, rs))
               = OK (c', w', tvs')
               /\ c1 = c || Threat_eqb lv critical
               /\ w1 = w || Threat_eqb lv warning).
    { destruct lv; cbn [listed fst snd Threat_eqb].
      - exists c, w. rewrite app_nil_r, !orb_false_r. auto.
      - exists c, w. rewrite !orb_false_r. auto.
      - exists c, true. rewrite orb_false_r, orb_true_r. auto.
      - exists true, w. rewrite orb_false_r, orb_true_r. auto. }
    destruct Hstep as [c1 [w1 [H1 [Hc Hw]]]].
    destruct (IH _ _ _ _ _ _ H1) as [cs [HF [Ht [Hc' Hw']]]].
    exists ((lv, rs) :: cs). cbn [combine flat_map fst snd].
    rewrite !existsb_app, !existsb_listed by discriminate. cbn [fst].
    split; [constructor; assumption|].
    split; [rewrite Ht, app_assoc; reflexivity|].
    subst. rewrite !orb_assoc. split; reflexivity.
Qed.

(** What a call changes whatever its outcome: the tracker of its side
    is the updated one, nothing of the other side moves, and a call that
    raises leaves the timestamps alone. *)
Lemma process_side_view_frame self (frame : Frame) sd zone dets now :
  let out := process_side_view Frame self frame sd zone dets now in
  side_get (trackers (fst out)) sd
  = fst (VehicleTracker.update (side_get (trackers self) sd) dets now)
  /\ side_get (trackers (fst out)) (other_side sd)
     = side_get (trackers self) (other_side sd)
  /\ side_get (last_warning_time (fst out)) (other_side sd)
     = side_get (last_warning_time self) (other_side sd)
  /\ warning_cooldown (fst out) = warning_cooldown self
  /\ (forall e, snd out = Raise e ->
        last_warning_time (fst out) = last_warning_time self).
Proof.
  unfold process_side_view.
  destruct (VehicleTracker.update (side_get (trackers self) sd) dets now)
    as [tracker tracked].
  cbn [fst].
  assert (G : forall x, side_get (side_set (trackers self) sd x) sd = x
                        /\ side_get (side_set (trackers self) sd x)
                             (other_side sd)
                           = side_get (trackers self) (other_side sd))
    by (intros x; destruct sd; split; reflexivity).
  destruct tracked as [tracked_vehicles|e];
    [|cbn [fst snd trackers last_warning_time warning_cooldown];
      destruct (G tracker); repeat split; auto].
  destruct (analyze Frame zone frame tracked_vehicles false false [])
    as [[[c w] tvs]|e];
    [|cbn [fst snd trackers last_warning_time warning_cooldown];
      destruct (G tracker); repeat split; auto].
  unfold trigger.
  destruct (c && _); [|destruct (w && _)];
    cbn [fst snd trackers last_warning_time warning_cooldown];
    destruct (G tracker); rewrite ?AlertFacts.side_get_set_other;
    repeat split; auto; discriminate.
Qed.

End WithFrame.

End AggregationFacts.

Section AggregationProperties.

Import AdvancedBlindSpotDetection.

Variable Frame : Type.

(** X4.  When [process_side_view] returns, the vehicles it lists are the
    vehicles [update] reported whose classification is not [none], in
    the same order, each with the level and reason [classify_threat]
    gave; [critical_detected] is true exactly when a listed vehicle is
    [critical], and [warning_detected] exactly when one is [warning]. *)
Theorem process_side_view_aggregates
    (self : t) (frame : Frame) (sd : Side) (zone : AdaptiveBlindSpotZone.t)
    (dets : list Detection) (now : float) (self' : t) (r : FrameResult) :
  process_side_view Frame self frame sd zone dets now = (self', OK r) ->
  exists vs cs,
    snd (VehicleTracker.update (side_get (trackers self) sd) dets now) = OK vs
    /\ Forall2 (fun v cl =>
                  AdaptiveBlindSpotZone.classify_threat Frame zone v frame
                  = OK cl) vs cs
    /\ threat_vehicles r
       = flat_map (fun p => listed (fst p) (snd p)) (combine vs cs)
    /\ critical_detected r = existsb (has_level critical) (threat_vehicles r)
    /\ warning_detected r = existsb (has_level warning) (threat_vehicles r).
Proof.
  unfold process_side_view.
  destruct (VehicleTracker.update (side_get (trackers self) sd) dets now)
    as [tracker tracked].
  destruct tracked as [vs|e]; [|discriminate].
  destruct (analyze Frame zone frame vs false false [])
    as [[[c w] tvs]|e] eqn:Ea; [|discriminate].
  destruct (trigger _ sd now c w) as [self2 fired].
  intros E. inversion E; subst. cbn [threat_vehicles critical_detected
                                      warning_detected snd].
  destruct (AggregationFacts.analyze_spec Frame zone frame vs _ _ _ _ _ _ Ea)
    as [cs [HF [Ht [Hc Hw]]]].
  exists vs, cs. cbn [app orb] in *.
  split; [reflexivity|]. split; [exact HF|]. split; [exact Ht|].
  rewrite Ht. split; assumption.
Qed.

(** X5.  Whatever it returns or raises, a call of [process_side_view]
    for one side replaces that side's tracker by the updated one and
    leaves the other side's tracker, the other side's alert timestamp
    and the cooldown as they were; a call that raises changes no
    timestamp at all. *)
Theorem process_side_view_sides_independent
    (self : t) (frame : Frame) (sd : Side) (zone : AdaptiveBlindSpotZone.t)
    (dets : list Detection) (now : float) :
  let out := process_side_view Frame self frame sd zone dets now in
  side_get (trackers (fst out)) sd
  = fst (VehicleTracker.update (side_get (trackers self) sd) dets now)
  /\ side_get (trackers (fst out)) (other_side sd)
     = side_get (trackers self) (other_side sd)
  /\ side_get (last_warning_time (fst out)) (other_side sd)
     = side_get (last_warning_time self) (other_side sd)
  /\ warning_cooldown (fst out) = warning_cooldown self
  /\ (forall e, snd out = Raise e ->
        last_warning_time (fst out) = last_warning_time self).
Proof. apply AggregationFacts.process_side_view_frame. Qed.

End AggregationProperties.

Module SessionFacts.

Import AdvancedBlindSpotDetection.

Section WithFrame.

Variable Frame : Type.

Lemma alert_times_app p q :
  alert_times (p ++ q) = alert_times p ++ alert_times q.
Proof. unfold alert_times. rewrite filter_app, map_app. reflexivity. Qed.

Lemma last_cons {A} (l : list A) (a d : A) :
  List.last (a :: l) d = List.last l a.
Proof.
  revert a d. induction l as [|b l IH]; intros a d; [reflexivity|].
  change (List.last (a :: b :: l) d) with (List.last (b :: l) d).
  rewrite (IH b d), (IH b a). reflexivity.
Qed.

Lemma last_app_default {A} (l m : list A) (d : A) :
  List.last (l ++ m) d = List.last m (List.last l d).
Proof.
  revert d. induction l as [|a l IH]; intros d; [reflexivity|].
  cbn [app]. rewrite !last_cons. apply IH.
Qed.

Lemma spaced_app cd last ts us :
  spaced cd last ts -> spaced cd (List.last ts last) us ->
  spaced cd last (ts ++ us).
Proof.
  revert last. induction ts as [|t ts IH]; intros last H1 H2; [exact H2|].
  destruct H1 as [Hg Hs]. split; [exact Hg|]. apply IH; [exact Hs|].
  rewrite last_cons in H2. exact H2.
Qed.

(** The loop, from any state, count and log. *)
Lemma loop_spec sd zone (frames : list (Session.FrameInput Frame)) :
  forall self n p self' n' p' e,
    Session.loop Frame self sd zone frames n p = (self', (n', p', e)) ->
    exists q,
      p' = p ++ q
      /\ n' = n + Z.of_nat (length q)
      /\ spaced (warning_cooldown self)
                (side_get (last_warning_time self) sd) (alert_times q)
      /\ side_get (last_warning_time self') sd
         = List.last (alert_times q) (side_get (last_warning_time self) sd)
      /\ warning_cooldown self' = warning_cooldown self
      /\ side_get (last_warning_time self') (other_side sd)
         = side_get (last_warning_time self) (other_side sd)
      /\ side_get (trackers self') (other_side sd)
         = side_get (trackers self) (other_side sd)
      /\ (exists k, map fst q
                    = firstn k (map (Session.fi_time Frame)
                                    (until_quit frames)))
      /\ (e = None ->
          map fst q = map (Session.fi_time Frame) (until_quit frames)).
Proof.
  induction frames as [|f rest IH]; intros self n p self' n' p' e H.
  - cbn [Session.loop] in H. inversion H; subst. exists [].
    rewrite app_nil_r. cbn. repeat split; auto; try lia.
    exists 0%nat. reflexivity.
  - cbn [Session.loop] in H.
    pose proof (AggregationFacts.process_side_view_frame Frame self
                  (Session.fi_frame Frame f) sd zone
                  (Session.fi_detections Frame f) (Session.fi_time Frame f))
      as Hf.
    destruct (process_side_view Frame self (Session.fi_frame Frame f) sd zone
                (Session.fi_detections Frame f) (Session.fi_time Frame f))
      as [s1 [r|e1]] eqn:Ep; cbn [fst snd] in Hf;
      destruct Hf as [_ [Ho [Hlo [Hc Hraise]]]].
    + (* the frame was processed *)
      apply AlertFacts.process_side_view_inv in Ep.
      destruct Ep as [s0 [El [Ec Ht]]].
      apply AlertFacts.trigger_spec in Ht.
      destruct Ht as [_ [_ Ha]]. unfold since_last_alert in Ha.
      rewrite El, Ec in Ha.
      assert (Hone :
                spaced (warning_cooldown self)
                  (side_get (last_warning_time self) sd)
                  (alert_times [(Session.fi_time Frame f, r)])
                /\ side_get (last_warning_time s1) sd
                   = List.last (alert_times [(Session.fi_time Frame f, r)])
                               (side_get (last_warning_time self) sd)).
      { unfold alert_times. cbn [filter snd].
        destruct (alert r) as [lv|]; cbn [map fst spaced List.last].
        - destruct Ha as [Hg [Hs _]]. repeat split; auto.
        - split; [exact I | exact (proj1 Ha)]. }
      destruct Hone as [Hsp Hlast].
      destruct (Session.fi_quit Frame f) eqn:Eq.
      * inversion H; subst. exists [(Session.fi_time Frame f, r)].
        cbn [until_quit]. rewrite Eq. cbn [length map fst].
        repeat split; auto; try lia.
        exists 1%nat. reflexivity.
      * apply IH in H.
        destruct H as [q [Hp [Hn [Hs [Hl [Hc' [Hlo' [Ho' [[k Hk] He]]]]]]]]].
        exists ((Session.fi_time Frame f, r) :: q).
        cbn [until_quit]. rewrite Eq. cbn [length map fst].
        split; [rewrite Hp, <- app_assoc; reflexivity|].
        split; [lia|].
        change ((Session.fi_time Frame f, r) :: q)
          with ([(Session.fi_time Frame f, r)] ++ q).
        rewrite alert_times_app.
        split; [apply spaced_app; [exact Hsp|];
                rewrite <- Hlast, <- Hc; exact Hs|].
        split.
        { rewrite Hl, Hlast, last_app_default. reflexivity. }
        split; [congruence|]. split; [congruence|]. split; [congruence|].
        split.
        { exists (S k). cbn [firstn]. f_equal. exact Hk. }
        { intros E. f_equal. apply He, E. }
    + (* the frame raised *)
      inversion H; subst. exists []. rewrite app_nil_r.
      rewrite (Hraise e1 eq_refl). cbn.
      repeat split; auto; try lia; try discriminate.
      exists 0%nat. reflexivity.
Qed.

End WithFrame.

End SessionFacts.

Section SessionProperties.

Import AdvancedBlindSpotDetection.

Variable Frame : Type.

(** X6.  Over a whole camera session, from any state and on any frames
    and timestamps, the alerts fired on the session's side are spaced:
    each fires more than the cooldown after the one before it, the first
    more than the cooldown after the side's timestamp at the start, and
    at the end that timestamp is the time of the last alert fired (or
    unchanged if none fired).  The other side's tracker and timestamp
    and the cooldown are as before the session. *)
Theorem session_alerts_spaced
    (self : t) (opened : bool) (fps_raw width height : Z) (sd : Side)
    (frames : list (Session.FrameInput Frame))
    (self' : t) (out : Session.Outcome) :
  Session.process_single_camera Frame self opened fps_raw width height sd
    frames = (self', Some out) ->
  spaced (warning_cooldown self) (side_get (last_warning_time self) sd)
         (alert_times (Session.processed out))
  /\ side_get (last_warning_time self') sd
     = List.last (alert_times (Session.processed out))
                 (side_get (last_warning_time self) sd)
  /\ warning_cooldown self' = warning_cooldown self
  /\ side_get (last_warning_time self') (other_side sd)
     = side_get (last_warning_time self) (other_side sd)
  /\ side_get (trackers self') (other_side sd)
     = side_get (trackers self) (other_side sd).
Proof.
  unfold Session.process_single_camera.
  destruct opened; cbn [negb]; [|discriminate].
  destruct (Session.loop Frame self sd _ frames 0 [])
    as [s1 [[n p] e]] eqn:El.
  intros E. inversion E; subst. cbn [Session.processed].
  apply SessionFacts.loop_spec in El.
  destruct El as [q [Hp [_ [Hs [Hl [Hc [Hlo [Ho _]]]]]]]].
  cbn [app] in Hp. subst p. repeat split; assumption.
Qed.

(** X7.  A session that cannot open its source processes nothing and
    changes nothing.  Otherwise it uses the source's frame rate, or 30
    when that is zero or negative; [frame_count] is the number of frames
    processed; the frames processed are, in order, a prefix of the
    frames up to and including the first one followed by the quit key,
    and all of them when no exception ended the loop: no frame after a
    quit is processed. *)
Theorem session_frames_processed
    (self : t) (opened : bool) (fps_raw width height : Z) (sd : Side)
    (frames : list (Session.FrameInput Frame)) :
  let res := Session.process_single_camera Frame self opened fps_raw
               width height sd frames in
  (opened = false -> res = (self, None))
  /\ (opened = true ->
      exists out,
        snd res = Some out
        /\ Session.fps out = (if fps_raw <=? 0 then 30 else fps_raw)
        /\ Session.frame_count out
           = Z.of_nat (length (Session.processed out))
        /\ (exists k,
               map fst (Session.processed out)
               = firstn k (map (Session.fi_time Frame) (until_quit frames)))
        /\ (Session.raised out = None ->
            map fst (Session.processed out)
            = map (Session.fi_time Frame) (until_quit frames))).
Proof.
  intros res. unfold res, Session.process_single_camera. split.
  - intros E. subst. reflexivity.
  - intros E. subst. cbn [negb].
    destruct (Session.loop Frame self sd _ frames 0 [])
      as [s1 [[n p] e]] eqn:El.
    apply SessionFacts.loop_spec in El.
    destruct El as [q [Hp [Hn [_ [_ [_ [_ [_ [Hk He]]]]]]]]].
    cbn [app] in Hp. subst p.
    eexists. cbn [snd]. split; [reflexivity|].
    cbn [Session.fps Session.frame_count Session.processed Session.raised].
    split; [reflexivity|]. split; [lia|]. split; assumption.
Qed.

End SessionProperties.

(* ================================================================== *)
(** * The order on floats *)
(* ================================================================== *)

Module FloatOrder.

Lemma pos_compare_cont_Eq (p q : positive) :
  Pos.compare_cont Eq p q = (Zpos p ?= Zpos q).
Proof.
  rewrite Pos.compare_cont_spec.
  change (Zpos p ?= Zpos q) with (p ?= q)%positive.
  destruct (p ?= q)%positive; reflexivity.
Qed.

(** [ltb] is the lexicographic order of the ranks. *)
Lemma ltb_rank (a b : float) :
  ltb a b = true
  <-> exists ra rb,
        float_rank a = Some ra /\ float_rank b = Some rb /\ rank_lt ra rb.
Proof.
  unfold ltb, SFltb.
  destruct a as [sa|sa| |sa ma ea], b as [sb|sb| |sb mb eb];
    cbv beta iota delta [SFcompare float_rank];
    try (split; [discriminate | intros [ra [rb [H1 [H2 _]]]]; discriminate]).
  - (* zero, zero *)
    split; [discriminate|].
    intros [ra [rb [H1 [H2 H]]]]. inversion H1; inversion H2; subst.
    unfold rank_lt in H. lia.
  - (* zero, infinity *)
    destruct sb; (split; [try discriminate; intros _; do 2 eexists;
                          repeat split; unfold rank_lt; lia|]);
      intros [ra [rb [H1 [H2 H]]]]; inversion H1; inversion H2; subst;
      unfold rank_lt in H; try reflexivity; lia.
  - (* zero, finite *)
    destruct sb; (split; [try discriminate; intros _; do 2 eexists;
                          repeat split; unfold rank_lt; lia|]);
      intros [ra [rb [H1 [H2 H]]]]; inversion H1; inversion H2; subst;
      unfold rank_lt in H; try reflexivity; lia.
  - (* infinity, zero *)
    destruct sa; (split; [try discriminate; intros _; do 2 eexists;
                          repeat split; unfold rank_lt; lia|]);
      intros [ra [rb [H1 [H2 H]]]]; inversion H1; inversion H2; subst;
      unfold rank_lt in H; try reflexivity; lia.
  - (* infinity, infinity *)
    destruct sa, sb; (split; [try discriminate; intros _; do 2 eexists;
                              repeat split; unfold rank_lt; lia|]);
      intros [ra [rb [H1 [H2 H]]]]; inversion H1; inversion H2; subst;
      unfold rank_lt in H; try reflexivity; lia.
  - (* infinity, finite *)
    destruct sa, sb; (split; [try discriminate; intros _; do 2 eexists;
                              repeat split; unfold rank_lt; lia|]);
      intros [ra [rb [H1 [H2 H]]]]; inversion H1; inversion H2; subst;
      unfold rank_lt in H; try reflexivity; lia.
  - (* finite, zero *)
    destruct sa; (split; [try discriminate; intros _; do 2 eexists;
                          repeat split; unfold rank_lt; lia|]);
      intros [ra [rb [H1 [H2 H]]]]; inversion H1; inversion H2; subst;
      unfold rank_lt in H; try reflexivity; lia.
  - (* finite, infinity *)
    destruct sa, sb; (split; [try discriminate; intros _; do 2 eexists;
                              repeat split; unfold rank_lt; lia|]);
      intros [ra [rb [H1 [H2 H]]]]; inversion H1; inversion H2; subst;
      unfold rank_lt in H; try reflexivity; lia.
  - (* finite, finite *)
    rewrite pos_compare_cont_Eq.
    destruct sa, sb.
    + split.
      * intros H. do 2 eexists. repeat split. unfold rank_lt.
        destruct (Z.compare_spec ea eb) as [E|E|E]; try discriminate;
          [|lia].
        destruct (Z.compare_spec (Zpos ma) (Zpos mb)) as [F|F|F];
          try discriminate. cbn [CompOpp] in H. lia.
      * intros [ra [rb [H1 [H2 H]]]]. inversion H1; inversion H2; subst.
        unfold rank_lt in H.
        destruct (Z.compare_spec ea eb) as [E|E|E]; try reflexivity;
          try lia.
        destruct (Z.compare_spec (Zpos ma) (Zpos mb)) as [F|F|F];
          cbn [CompOpp]; try reflexivity; lia.
    + split; [intros _; do 2 eexists; repeat split; unfold rank_lt; lia
             | reflexivity].
    + split; [discriminate|].
      intros [ra [rb [H1 [H2 H]]]]. inversion H1; inversion H2; subst.
      unfold rank_lt in H. lia.
    + split.
      * intros H. do 2 eexists. repeat split. unfold rank_lt.
        destruct (Z.compare_spec ea eb) as [E|E|E]; try discriminate;
          [|lia].
        destruct (Z.compare_spec (Zpos ma) (Zpos mb)) as [F|F|F];
          try discriminate. lia.
      * intros [ra [rb [H1 [H2 H]]]]. inversion H1; inversion H2; subst.
        unfold rank_lt in H.
        destruct (Z.compare_spec ea eb) as [E|E|E]; try reflexivity;
          try lia.
        destruct (Z.compare_spec (Zpos ma) (Zpos mb)) as [F|F|F];
          try reflexivity; lia.
Qed.

Lemma rank_some (a : float) :
  is_nan a = false -> exists r, float_rank a = Some r.
Proof.
  destruct a as [s|s| |s m e]; try discriminate; intros _;
    try destruct s; eexists; reflexivity.
Qed.

Lemma ltb_number (a b : float) :
  ltb a b = true -> is_nan a = false /\ is_nan b = false.
Proof.
  intros H. apply ltb_rank in H. destruct H as [ra [rb [H1 [H2 _]]]].
  destruct a, b; try discriminate; split; reflexivity.
Qed.

Lemma ltb_trans (a b c : float) :
  ltb a b = true -> ltb b c = true -> ltb a c = true.
Proof.
  rewrite !ltb_rank.
  intros [ra [rb [H1 [H2 H]]]] [rb' [rc [H3 [H4 H']]]].
  rewrite H2 in H3. inversion H3; subst rb'.
  exists ra, rc. repeat split; try assumption.
  destruct ra as [[c1 x1] y1], rb as [[c2 x2] y2], rc as [[c3 x3] y3].
  unfold rank_lt in *. lia.
Qed.

(** Between a smaller and a larger number every number is above the one
    or below the other. *)
Lemma ltb_between (a b c : float) :
  ltb a c = true -> is_nan b = false ->
  ltb a b = true \/ ltb b c = true.
Proof.
  rewrite !ltb_rank.
  intros [ra [rc [H1 [H2 H]]]] Hb.
  destruct (rank_some b Hb) as [rb Hrb].
  destruct ra as [[c1 x1] y1], rb as [[c2 x2] y2], rc as [[c3 x3] y3].
  assert (D : rank_lt (c1, x1, y1) (c2, x2, y2)
              \/ rank_lt (c2, x2, y2) (c3, x3, y3))
    by (unfold rank_lt in *; lia).
  destruct D as [D|D]; [left | right]; do 2 eexists;
    repeat split; eassumption.
Qed.

Lemma ltb_irrefl (a : float) : ltb a a = false.
Proof.
  destruct (ltb a a) eqn:E; [|reflexivity].
  pose proof (ltb_asym a a E). congruence.
Qed.

(** Whatever is below some number is below plus infinity. *)
Lemma ltb_inf (a b : float) : ltb a b = true -> ltb a inf = true.
Proof.
  rewrite !ltb_rank. intros [ra [rb [H1 [H2 H]]]].
  exists ra, (2, 0, 0). split; [exact H1|]. split; [reflexivity|].
  destruct a as [s|s| |s m e]; try discriminate;
    try destruct s; inversion H1; subst; unfold rank_lt; try lia.
  destruct b as [sb|sb| |sb mb eb]; try discriminate;
    try destruct sb; inversion H2; subst; unfold rank_lt in H; lia.
Qed.

End FloatOrder.

(* ================================================================== *)
(** * The nearest unmatched detection *)
(* ================================================================== *)

Module ClosestFacts.

Import VehicleTracker.

Lemma mem_true_iff i s : mem i s = true <-> In i s.
Proof.
  unfold mem. rewrite existsb_exists. split.
  - intros [x [Hin E]]. apply Nat.eqb_eq in E. subst. exact Hin.
  - intros H. exists i. split; [exact H | apply Nat.eqb_refl].
Qed.

(** One turn of the inner loop keeps [closest_so_far]. *)
Lemma closest_step c matched dets a det min best :
  nth_error dets a = Some det ->
  closest_so_far c matched dets a min best ->
  closest_so_far c matched dets (S a)
    (if mem a matched then min
     else if ltb (dist_to c det) min && ltb (dist_to c det) (of_int 100)
          then dist_to c det else min)
    (if mem a matched then best
     else if ltb (dist_to c det) min && ltb (dist_to c det) (of_int 100)
          then Some (a, det) else best).
Proof.
  intros Ha Inv.
  destruct (mem a matched) eqn:Em.
  { (* already matched: skipped *)
    apply mem_true_iff in Em.
    destruct best as [[i di]|]; cbn [closest_so_far] in *.
    - destruct Inv as [H1 [H2 [H3 [H4 [H5 [H6 H7]]]]]].
      repeat split; auto; try lia.
      intros j dj Hj Hn Hm. destruct (Nat.eq_dec j a) as [->|Hne];
        [contradiction|]. apply (H6 j dj); auto; lia.
    - destruct Inv as [H1 H2]. split; [exact H1|].
      intros j dj Hj Hn Hm. destruct (Nat.eq_dec j a) as [->|Hne];
        [contradiction|]. apply (H2 j dj); auto; lia. }
  apply MatchFacts.mem_false_iff in Em.
  destruct (ltb (dist_to c det) min && ltb (dist_to c det) (of_int 100))
    eqn:Ec.
  - (* nearer than all so far, and within the radius *)
    apply andb_true_iff in Ec. destruct Ec as [Hlt Hr].
    cbn [closest_so_far]. split; [reflexivity|].
    split; [lia|]. split; [exact Ha|]. split; [exact Em|].
    split; [exact Hr|].
    destruct best as [[i di]|]; cbn [closest_so_far] in Inv.
    + destruct Inv as [H1 [H2 [H3 [H4 [H5 [H6 H7]]]]]]. subst min.
      split.
      * intros j dj Hj Hn Hm. destruct (Nat.eq_dec j a) as [->|Hne].
        -- rewrite Ha in Hn. inversion Hn. apply FloatOrder.ltb_irrefl.
        -- destruct (ltb (dist_to c dj) (dist_to c det)) eqn:E;
             [|reflexivity].
           rewrite <- (H6 j dj); auto; [|lia].
           symmetry. eapply FloatOrder.ltb_trans; eassumption.
      * intros j dj Hj Hn Hm Hrj.
        assert (Hnum : is_nan (dist_to c dj) = false)
          by (apply (FloatOrder.ltb_number _ _ Hrj)).
        destruct (FloatOrder.ltb_between _ (dist_to c dj) _ Hlt Hnum)
          as [H|H]; [exact H|].
        rewrite (H6 j dj) in H; auto. discriminate.
    + destruct Inv as [H1 H2]. split.
      * intros j dj Hj Hn Hm. destruct (Nat.eq_dec j a) as [->|Hne].
        -- rewrite Ha in Hn. inversion Hn. apply FloatOrder.ltb_irrefl.
        -- destruct (ltb (dist_to c dj) (dist_to c det)) eqn:E;
             [|reflexivity].
           rewrite <- (H2 j dj); auto; [|lia].
           symmetry. eapply FloatOrder.ltb_trans; eassumption.
      * intros j dj Hj Hn Hm Hrj.
        rewrite (H2 j dj) in Hrj; auto. discriminate.
  - (* not taken *)
    apply andb_false_iff in Ec.
    destruct best as [[i di]|]; cbn [closest_so_far] in *.
    + destruct Inv as [H1 [H2 [H3 [H4 [H5 [H6 H7]]]]]]. subst min.
      repeat split; auto; try lia.
      intros j dj Hj Hn Hm. destruct (Nat.eq_dec j a) as [->|Hne];
        [|apply (H6 j dj); auto; lia].
      rewrite Ha in Hn. inversion Hn; subst dj.
      destruct (ltb (dist_to c det) (dist_to c di)) eqn:E; [|reflexivity].
      destruct Ec as [Ec|Ec]; [congruence|].
      rewrite (FloatOrder.ltb_trans _ _ _ E H5) in Ec. discriminate.
    + destruct Inv as [H1 H2]. subst min. split; [reflexivity|].
      intros j dj Hj Hn Hm. destruct (Nat.eq_dec j a) as [->|Hne];
        [|apply (H2 j dj); auto; lia].
      rewrite Ha in Hn. inversion Hn; subst dj.
      destruct (ltb (dist_to c det) (of_int 100)) eqn:E; [|reflexivity].
      destruct Ec as [Ec|Ec]; [|congruence].
      rewrite (FloatOrder.ltb_inf _ _ E) in Ec. discriminate.
Qed.

(** The inner loop over the detections from index [a] on. *)
Lemma closest_from c matched dets :
  forall rest a min best,
    (forall j, nth_error rest j = nth_error dets (a + j)) ->
    (a + length rest = length dets)%nat ->
    closest_so_far c matched dets a min best ->
    exists min',
      closest_so_far c matched dets (length dets) min'
        (closest c matched (combine (seq a (length rest)) rest) min best).
Proof.
  induction rest as [|det rest IH]; intros a min best Hs Hl Inv.
  - cbn in *. exists min. replace (length dets) with a by lia. exact Inv.
  - cbn [length seq combine closest].
    assert (Ha : nth_error dets a = Some det)
      by (rewrite <- (Nat.add_0_r a), <- Hs; reflexivity).
    pose proof (closest_step c matched dets a det min best Ha Inv) as St.
    fold (dist_to c det).
    destruct (mem a matched).
    + apply (IH (S a)); [|cbn in Hl; lia|exact St].
      intros j. replace (S a + j)%nat with (a + S j)%nat by lia.
        apply (Hs (S j)).
    + destruct (ltb (dist_to c det) min
                && ltb (dist_to c det) (of_int 100)).
      * apply (IH (S a)); [|cbn in Hl; lia|exact St].
        intros j. replace (S a + j)%nat with (a + S j)%nat by lia.
        apply (Hs (S j)).
      * apply (IH (S a)); [|cbn in Hl; lia|exact St].
        intros j. replace (S a + j)%nat with (a + S j)%nat by lia.
        apply (Hs (S j)).
Qed.

Lemma closest_spec c matched dets :
  exists min',
    closest_so_far c matched dets (length dets) min'
      (closest c matched (enumerate dets) inf None).
Proof.
  unfold enumerate.
  apply (closest_from c matched dets dets 0%nat inf None).
  - intros j. reflexivity.
  - reflexivity.
  - cbn [closest_so_far]. split; [reflexivity|]. intros j dj Hj. lia.
Qed.

End ClosestFacts.

Section ClosestProperties.

Import VehicleTracker.

(** X8.  The inner loop of [update] picks, for a track's last centre,
    the nearest unmatched detection within the radius, the earliest one
    among equally near ones: the detection it returns is unmatched and
    less than 100 away, no unmatched detection is strictly nearer, and
    every unmatched detection before it that is within the radius is
    strictly farther.  It returns nothing exactly when no unmatched
    detection is within the radius. *)
Theorem closest_is_nearest
    (last_center : float * float) (matched : list nat)
    (detections : list Detection) :
  match closest last_center matched (enumerate detections) inf None with
  | Some (i, det) =>
      nth_error detections i = Some det
      /\ ~ In i matched
      /\ ltb (dist_to last_center det) (of_int 100) = true
      /\ (forall j dj,
             nth_error detections j = Some dj -> ~ In j matched ->
             ltb (dist_to last_center dj) (dist_to last_center det) = false)
      /\ (forall j dj,
             (j < i)%nat -> nth_error detections j = Some dj ->
             ~ In j matched ->
             ltb (dist_to last_center dj) (of_int 100) = true ->
             ltb (dist_to last_center det) (dist_to last_center dj) = true)
  | None =>
      forall j dj,
        nth_error detections j = Some dj -> ~ In j matched ->
        ltb (dist_to last_center dj) (of_int 100) = false
  end.
Proof.
  destruct (ClosestFacts.closest_spec last_center matched detections)
    as [min' H].
  assert (Hlen : forall j dj, nth_error detections j = Some dj ->
                   (j < length detections)%nat).
  { intros j dj Hn. apply nth_error_Some. congruence. }
  destruct (closest last_center matched (enumerate detections) inf None)
    as [[i det]|]; cbn [closest_so_far] in H.
  - destruct H as [_ [_ [H3 [H4 [H5 [H6 H7]]]]]].
    repeat split; auto.
    intros j dj Hn Hm. apply (H6 j dj); auto. eapply Hlen, Hn.
  - destruct H as [_ H]. intros j dj Hn Hm.
    apply (H j dj); auto. eapply Hlen, Hn.
Qed.

End ClosestProperties.

(* ================================================================== *)
(** * What a call of [update] does to the tracks *)
(* ================================================================== *)

Module UpdateFacts.

Import VehicleTracker.

(** What the inner loop returns is an unmatched detection of the frame
    within the radius. *)
Lemma closest_some c matched dets i det :
  closest c matched (enumerate dets) inf None = Some (i, det) ->
  nth_error dets i = Some det
  /\ (i < length dets)%nat
  /\ ~ In i matched
  /\ ltb (dist_to c det) (of_int 100) = true.
Proof.
  intros E. destruct (ClosestFacts.closest_spec c matched dets) as [m H].
  rewrite E in H. cbn [closest_so_far] in H.
  destruct H as [_ [H2 [H3 [H4 [H5 _]]]]]. auto.
Qed.

(** The state after a call, by the two branches of [update]. *)
Lemma update_state_nil s now :
  fst (update s [] now)
  = with_tracks s
      (filter (fun kv => ltb (sub now (last_seen (snd kv)))
                             (max_disappeared s))
              (tracks s)).
Proof. reflexivity. Qed.

Lemma update_state_cons s dets now :
  dets <> [] ->
  fst (update s dets now)
  = match tracks s with
    | [] => fold_left (fun s det => _create_track s det now) dets s
    | _ :: _ =>
        create_unmatched (enumerate dets)
          (snd (match_tracks (tracks s) dets now s [])) now
          (fst (match_tracks (tracks s) dets now s []))
    end.
Proof.
  destruct dets as [|d ds]; [contradiction|]. intros _. unfold update.
  cbn [fst]. destruct (tracks s) as [|kv rest]; [reflexivity|].
  destruct (match_tracks (kv :: rest) (d :: ds) now s []); reflexivity.
Qed.

Lemma nil_or_not {A} (l : list A) : l = [] \/ l <> [].
Proof. destruct l; [now left | right; discriminate]. Qed.

(** ** Properties kept by every track *)

Section AllTracks.

Variable P : Track -> Prop.
Variable dets : list Detection.
Variable now : float.
Variable mh : nat.

Hypothesis P_fresh :
  forall d, In d dets -> P (mkTrack (Deque.make [det_bbox d] mh) now
                              (det_class_id d) (det_confidence d)).
Hypothesis P_updated :
  forall tr d, In d dets -> P tr -> P (updated_track tr d now).

Lemma _create_track_all s d :
  max_history s = mh -> In d dets ->
  all_tracks P s -> all_tracks P (_create_track s d now).
Proof.
  intros Hm Hd H k tr Hin. unfold _create_track in Hin. cbn [tracks] in Hin.
  apply DictFacts.in_set in Hin. destruct Hin as [[_ E]|Hin].
  - subst tr. rewrite Hm. apply P_fresh, Hd.
  - exact (H k tr Hin).
Qed.

Lemma _update_track_all s tid d :
  In d dets -> all_tracks P s -> all_tracks P (_update_track s tid d now).
Proof.
  intros Hd H k tr Hin. unfold _update_track, with_tracks in Hin.
  cbn [tracks] in Hin. apply DictFacts.in_update in Hin.
  destruct Hin as [v0 [Hin [E|[_ E]]]]; subst.
  - exact (H k v0 Hin).
  - apply (P_updated v0 d Hd), (H k v0 Hin).
Qed.

Lemma filter_all s (p : Z * Track -> bool) :
  all_tracks P s -> all_tracks P (with_tracks s (filter p (tracks s))).
Proof.
  intros H k tr Hin. cbn [with_tracks tracks] in Hin.
  apply filter_In in Hin. exact (H k tr (proj1 Hin)).
Qed.

Lemma match_tracks_all snapshot s matched :
  all_tracks P s ->
  all_tracks P (fst (match_tracks snapshot dets now s matched)).
Proof.
  revert s matched.
  induction snapshot as [|[tid track] rest IH]; intros s matched H.
  - exact H.
  - cbn [match_tracks].
    destruct (Deque.last (positions track)) as [last_pos|e];
      [|apply IH, H].
    destruct (closest (center last_pos) matched (enumerate dets) inf None)
      as [[best det]|] eqn:Ec.
    + apply IH, _update_track_all; [|exact H].
      apply closest_some in Ec. eapply nth_error_In, (proj1 Ec).
    + destruct (gtb _ _); [|apply IH, H].
      apply IH. unfold Dict.del. apply filter_all, H.
Qed.

Lemma match_tracks_max_history snapshot s matched :
  max_history (fst (match_tracks snapshot dets now s matched))
  = max_history s.
Proof.
  apply (TrackerFacts.match_tracks_shrinks snapshot dets now s matched).
Qed.

Lemma create_unmatched_all l matched s :
  (forall i d, In (i, d) l -> In d dets) ->
  max_history s = mh ->
  all_tracks P s -> all_tracks P (create_unmatched l matched now s).
Proof.
  revert s. induction l as [|[i d] l IH]; intros s Hl Hm H; [exact H|].
  cbn [create_unmatched].
  assert (Hl' : forall i d, In (i, d) l -> In d dets)
    by (intros i' d' Hin; apply (Hl i' d'); now right).
  destruct (mem i matched); [apply IH; assumption|].
  apply IH; [assumption | exact Hm|].
  apply _create_track_all; [exact Hm | apply (Hl i d); now left | exact H].
Qed.

Lemma create_all_all l s :
  (forall d, In d l -> In d dets) ->
  max_history s = mh ->
  all_tracks P s ->
  all_tracks P (fold_left (fun s det => _create_track s det now) l s).
Proof.
  revert s. induction l as [|d l IH]; intros s Hl Hm H; [exact H|].
  cbn [fold_left]. apply IH; [intros d' Hd; apply Hl; now right | exact Hm|].
  apply _create_track_all; [exact Hm | apply Hl; now left | exact H].
Qed.

(** A property of tracks that fresh tracks have and matching keeps
    holds of every track after the call if it did before. *)
Lemma update_all s :
  max_history s = mh ->
  all_tracks P s -> all_tracks P (fst (update s dets now)).
Proof.
  intros Hm H. destruct (nil_or_not dets) as [E|E].
  - rewrite E, update_state_nil. apply filter_all, H.
  - rewrite (update_state_cons s dets now E).
    destruct (tracks s) as [|kv rest] eqn:Et.
    + apply create_all_all; auto.
    + rewrite <- Et.
      apply create_unmatched_all.
      * intros i d Hin. apply MatchFacts.in_enumerate in Hin.
        eapply nth_error_In, Hin.
      * rewrite match_tracks_max_history. exact Hm.
      * apply match_tracks_all, H.
Qed.

End AllTracks.

(** ** Histories in use *)

Lemma keep_last_length n (l : list BBox) :
  length (Deque.keep_last n l) = Nat.min n (length l).
Proof. unfold Deque.keep_last. rewrite length_skipn. lia. Qed.

Lemma update_history_in_use mh s dets now :
  max_history s = S mh ->
  all_tracks (history_in_use (S mh)) s ->
  all_tracks (history_in_use (S mh)) (fst (update s dets now)).
Proof.
  apply update_all.
  - intros d _. split; [reflexivity|].
    unfold Deque.len, Deque.make. cbn [Deque.items positions].
    rewrite keep_last_length. cbn [length]. lia.
  - intros tr d _ [Hm Hl]. split; [exact Hm|].
    unfold updated_track, Deque.len, Deque.append.
    cbn [Deque.items positions].
    rewrite keep_last_length, length_app, Hm. cbn [length]. lia.
Qed.

Lemma run_history_in_use mh cs :
  all_tracks (history_in_use (S mh)) (run (__init__ (S mh)) cs).
Proof.
  assert (G : forall s, max_history s = S mh ->
                all_tracks (history_in_use (S mh)) s ->
                all_tracks (history_in_use (S mh)) (run s cs)).
  { induction cs as [|c cs IH]; intros s Hm H; [exact H|].
    cbn [run fold_left]. apply IH.
    - unfold step.
      rewrite (proj1 (TrackerFacts.update_same_config s (fst c) (snd c))).
      exact Hm.
    - apply update_history_in_use; assumption. }
  apply G; [reflexivity | intros k tr []].
Qed.

(** ** The vehicles reported *)

Lemma last_of_len (d : Deque.t) :
  (1 <= Deque.len d)%nat -> exists x, Deque.last d = OK x.
Proof.
  unfold Deque.len, Deque.last. rewrite <- length_rev.
  destruct (rev (Deque.items d)); cbn [length]; [lia|].
  intros _. eexists. reflexivity.
Qed.

Lemma last2_of_len (d : Deque.t) :
  (2 <= Deque.len d)%nat -> exists x, Deque.last2 d = OK x.
Proof.
  unfold Deque.len, Deque.last2. rewrite <- length_rev.
  destruct (rev (Deque.items d)) as [|a [|b l]]; cbn [length]; try lia.
  intros _. eexists. reflexivity.
Qed.

Lemma vehicle_of_reports tid tr :
  (1 <= Deque.len (positions tr))%nat ->
  exists v, vehicle_of tid tr = OK v /\ reports (tid, tr) v.
Proof.
  intros Hl. unfold vehicle_of.
  destruct (last_of_len _ Hl) as [x Hx]. rewrite Hx. cbn [bind].
  destruct (Nat.ltb_spec (Deque.len (positions tr)) 2) as [H2|H2].
  - eexists. split; [reflexivity|].
    unfold reports. cbn [fst snd tv_id tv_class tv_history_length tv_bbox
                         tv_velocity tv_positions].
    repeat split; auto; lia.
  - destruct (last2_of_len _ H2) as [y Hy]. rewrite Hy. cbn [bind].
    eexists. split; [reflexivity|].
    unfold reports. cbn [fst snd tv_id tv_class tv_history_length tv_bbox
                         tv_velocity tv_positions].
    repeat split; auto; try lia.
    exists y. split; [exact Hy | reflexivity].
Qed.

Lemma tracked_of_reports l :
  (forall k tr, In (k, tr) l -> (1 <= Deque.len (positions tr))%nat) ->
  exists vs, tracked_of l = OK vs /\ Forall2 reports l vs.
Proof.
  induction l as [|[tid tr] l IH]; intros H.
  - exists []. split; [reflexivity | constructor].
  - cbn [tracked_of].
    destruct (vehicle_of_reports tid tr (H tid tr (or_introl eq_refl)))
      as [v [Hv Hr]].
    destruct IH as [vs [Hvs HF]];
      [intros k tr' Hin; apply (H k tr'); now right|].
    rewrite Hv, Hvs. cbn [bind]. exists (v :: vs).
    split; [reflexivity | constructor; assumption].
Qed.

(** ** Capacity zero *)

Lemma match_tracks_no_history dets now snapshot s matched :
  (forall k tr, In (k, tr) snapshot -> Deque.len (positions tr) = 0%nat) ->
  match_tracks snapshot dets now s matched = (s, matched).
Proof.
  induction snapshot as [|[tid track] rest IH]; intros H; [reflexivity|].
  cbn [match_tracks].
  assert (E : Deque.last (positions track) = Raise IndexError).
  { pose proof (H tid track (or_introl eq_refl)) as Hl.
    unfold Deque.len, Deque.last in *. rewrite <- length_rev in Hl.
    destruct (rev (Deque.items (positions track))); [reflexivity|].
    discriminate. }
  rewrite E. apply IH. intros k tr Hin. apply (H k tr). now right.
Qed.

Lemma tracked_of_no_history l :
  l <> [] ->
  (forall k tr, In (k, tr) l -> Deque.len (positions tr) = 0%nat) ->
  tracked_of l = Raise IndexError.
Proof.
  destruct l as [|[tid tr] l]; [contradiction|]. intros _ H.
  cbn [tracked_of]. unfold vehicle_of.
  pose proof (H tid tr (or_introl eq_refl)) as Hl. rewrite Hl.
  cbn [Nat.ltb Nat.leb].
  unfold Deque.len, Deque.last in *. rewrite <- length_rev in Hl.
  destruct (rev (Deque.items (positions tr))); [reflexivity|discriminate].
Qed.

Lemma create_all_next_id dets now s :
  next_id (fold_left (fun s det => _create_track s det now) dets s)
  = next_id s + Z.of_nat (length dets).
Proof.
  revert s. induction dets as [|d l IH]; intros s; cbn [fold_left length].
  - lia.
  - rewrite IH. cbn [_create_track next_id]. lia.
Qed.

End UpdateFacts.

Section ReportProperties.

Import VehicleTracker.

(** X9.  On a tracker of capacity at least 1, after any sequence of
    calls, with every box of these calls and of the frame in range
    (coordinates of magnitude at most 2^53, so that no centre or
    distance the code computes overflows), [update] never raises: it
    returns the empty list for a frame without detections, and for a
    frame with detections one vehicle per live track, in creation order,
    each with the track's identifier, class, history length and last
    box, with velocity (0, 0) and no position list for a history of one
    box, and otherwise with the position list and the difference between
    the centres of the last two boxes as velocity. *)
Theorem update_reports_every_track
    (mh : nat) (cs : list call) (detections : list Detection) (now : float) :
  calls_in_range cs ->
  detections_in_range detections ->
  let self := run (__init__ (S mh)) cs in
  exists vs,
    snd (update self detections now) = OK vs
    /\ (detections = [] -> vs = [])
    /\ (detections <> [] ->
        Forall2 reports (tracks (fst (update self detections now))) vs).
Proof.
  intros _ _ self.
  assert (Hu : all_tracks (history_in_use (S mh))
                 (fst (update self detections now))).
  { apply UpdateFacts.update_history_in_use;
      [apply RunFacts.run_max_history | apply UpdateFacts.run_history_in_use]. }
  destruct detections as [|d ds].
  - exists []. split; [reflexivity|]. split; [reflexivity|].
    intros H. contradiction.
  - destruct (UpdateFacts.tracked_of_reports
                (tracks (fst (update self (d :: ds) now))))
      as [vs [Hvs HF]].
    { intros k tr Hin. exact (proj2 (Hu k tr Hin)). }
    exists vs. split; [exact Hvs|]. split; [discriminate|].
    intros _. exact HF.
Qed.

(** X10.  On a tracker of capacity 0 every history stays empty, so after
    any sequence of calls a call of [update] with at least one detection
    raises [IndexError]; the tracks it created before raising stay in
    the tracker. *)
Theorem update_capacity_zero_raises
    (cs : list call) (detections : list Detection) (now : float) :
  detections <> [] ->
  let self := run (__init__ 0) cs in
  snd (update self detections now) = Raise IndexError
  /\ tracks (fst (update self detections now)) <> []
  /\ next_id self < next_id (fst (update self detections now))
  /\ all_tracks (fun tr => Deque.items (positions tr) = [])
                (fst (update self detections now)).
Proof.
  intros Hne self.
  assert (Hb : forall s, histories_bounded s -> max_history s = 0%nat ->
                 forall k tr, In (k, tr) (tracks s) ->
                   Deque.len (positions tr) = 0%nat).
  { intros s H Hm k tr Hin. destruct (H k tr Hin) as [_ Hl]. lia. }
  assert (Hs : histories_bounded self)
    by apply RunFacts.run_histories_bounded, RunFacts.init_histories_bounded.
  assert (Hm : max_history self = 0%nat) by apply RunFacts.run_max_history.
  assert (Hs' : histories_bounded (fst (update self detections now)))
    by apply TrackerFacts.update_histories_bounded, Hs.
  assert (Hm' : max_history (fst (update self detections now)) = 0%nat).
  { rewrite (proj1 (TrackerFacts.update_same_config self detections now)).
    exact Hm. }
  assert (Hgrow : next_id self < next_id (fst (update self detections now))).
  { unfold update. destruct detections as [|d ds]; [contradiction|].
    destruct (tracks self) as [|kv rest] eqn:Et; cbn [fst].
    - rewrite UpdateFacts.create_all_next_id. cbn [length]. lia.
    - rewrite <- Et.
      rewrite (UpdateFacts.match_tracks_no_history (d :: ds) now
                 (tracks self) self [] (Hb self Hs Hm)).
      unfold enumerate. cbn [length seq combine create_unmatched mem existsb].
      pose proof (TrackerFacts.create_unmatched_grows
                    (combine (seq 1 (length ds)) ds) [] now
                    (_create_track self d now)) as [_ [L _]].
      cbn [_create_track next_id] in L. lia. }
  assert (Hnon : tracks (fst (update self detections now)) <> []).
  { destruct (TrackerFacts.update_shrinks_then_grows self detections now)
      as [s1 [[_ [E1 _]] [_ [_ [K _]]]]].
    intros E.
    assert (Hin : In (next_id s1) (track_ids (fst (update self detections now))))
      by (apply K; right; lia).
    unfold track_ids in Hin. rewrite E in Hin. exact Hin. }
  split; [|split; [exact Hnon | split; [exact Hgrow|]]].
  - unfold update in *. destruct detections as [|d ds]; [contradiction|].
    cbn [fst snd] in *. unfold _get_tracked_vehicles.
    apply UpdateFacts.tracked_of_no_history; [exact Hnon|].
    apply Hb; assumption.
  - intros k tr Hin. pose proof (Hb _ Hs' Hm' k tr Hin) as Hl.
    unfold Deque.len in Hl. destruct (Deque.items (positions tr));
      [reflexivity | discriminate].
Qed.

End ReportProperties.

Module LifecycleFacts.

Import VehicleTracker.

(** ** Counting the matched detections *)

Lemma filter_fst_length {A B} (g : A -> bool) (l : list (A * B)) :
  length (filter (fun p => g (fst p)) l) = length (filter g (map fst l)).
Proof.
  induction l as [|[a b] l IH]; [reflexivity|].
  cbn [filter map fst]. destruct (g a); cbn [length]; rewrite IH; reflexivity.
Qed.

Lemma map_fst_combine_seq {A} (l : list A) (a : nat) :
  map fst (combine (seq a (length l)) l) = seq a (length l).
Proof.
  revert a. induction l as [|x l IH]; intros a; [reflexivity|].
  cbn [length seq combine map fst]. rewrite IH. reflexivity.
Qed.

Lemma unmatched_count (dets : list Detection) (matched : list nat) :
  NoDup matched ->
  (forall i, In i matched -> (i < length dets)%nat) ->
  length (filter (fun p => negb (mem (fst p) matched)) (enumerate dets))
  = (length dets - length matched)%nat.
Proof.
  intros Hn Hb.
  rewrite (filter_fst_length (fun i => negb (mem i matched))).
  unfold enumerate. rewrite map_fst_combine_seq.
  pose proof (filter_length (fun i => mem i matched)
                            (seq 0 (length dets))) as Hf.
  rewrite length_seq in Hf.
  assert (Hm : length (filter (fun i => mem i matched) (seq 0 (length dets)))
               = length matched).
  { apply Nat.le_antisymm.
    - apply NoDup_incl_length; [apply NoDup_filter, seq_NoDup|].
      intros i Hi. apply filter_In in Hi.
      apply ClosestFacts.mem_true_iff, (proj2 Hi).
    - apply NoDup_incl_length; [exact Hn|].
      intros i Hi. apply filter_In. split.
      + apply in_seq. pose proof (Hb i Hi). lia.
      + apply ClosestFacts.mem_true_iff, Hi. }
  lia.
Qed.

Lemma create_unmatched_next_id l matched now s :
  next_id (create_unmatched l matched now s)
  = next_id s
    + Z.of_nat (length (filter (fun p => negb (mem (fst p) matched)) l)).
Proof.
  revert s. induction l as [|[i d] l IH]; intros s;
    cbn [create_unmatched filter fst]; [cbn; lia|].
  destruct (mem i matched); cbn [negb length]; rewrite IH;
    [reflexivity|].
  cbn [_create_track next_id]. lia.
Qed.

Lemma match_tracks_matched dets now snapshot :
  forall s matched,
    NoDup matched ->
    (forall i, In i matched -> (i < length dets)%nat) ->
    let m := snd (match_tracks snapshot dets now s matched) in
    NoDup m
    /\ (forall i, In i m -> (i < length dets)%nat)
    /\ (length m <= length matched + length snapshot)%nat.
Proof.
  induction snapshot as [|[tid track] rest IH]; intros s matched Hn Hb;
    cbn [match_tracks].
  - cbn. split; [exact Hn|]. split; [exact Hb | lia].
  - assert (Hskip : forall s',
               let m := snd (match_tracks rest dets now s' matched) in
               NoDup m /\ (forall i, In i m -> (i < length dets)%nat)
               /\ (length m <= length matched + length ((tid, track) :: rest))%nat).
    { intros s'. destruct (IH s' matched Hn Hb) as [A [B C]].
      cbn [length]. repeat split; auto. lia. }
    destruct (Deque.last (positions track)) as [last_pos|e];
      [|apply Hskip].
    destruct (closest (center last_pos) matched (enumerate dets) inf None)
      as [[best det]|] eqn:Ec.
    + apply UpdateFacts.closest_some in Ec.
      destruct Ec as [_ [Hlt [Hnot _]]].
      destruct (IH (_update_track s tid det now) (best :: matched))
        as [A [B C]].
      * constructor; assumption.
      * intros i [E|Hi]; [subst; exact Hlt | apply Hb, Hi].
      * cbn [length] in *. repeat split; auto. lia.
    + destruct (gtb _ _); apply Hskip.
Qed.

(** ** The tracks that were live before the call *)

Lemma in_keys_unique {V} (d : Dict.t V) k v v' :
  NoDup (Dict.keys d) -> In (k, v) d -> In (k, v') d -> v = v'.
Proof.
  unfold Dict.keys. induction d as [|[k0 v0] d IH]; intros Hn H1 H2;
    [destruct H1|].
  cbn [map fst] in Hn. inversion Hn as [|? ? Hnot Hn']; subst.
  destruct H1 as [E1|H1], H2 as [E2|H2].
  - congruence.
  - inversion E1; subst. elim Hnot.
    apply in_map_iff. exists (k, v'). split; [reflexivity | exact H2].
  - inversion E2; subst. elim Hnot.
    apply in_map_iff. exists (k, v). split; [reflexivity | exact H1].
  - apply IH; assumption.
Qed.

(** The matching loop: every track of the state is either still to be
    visited and as in the snapshot, or a track of the snapshot left
    alone or matched. *)
Lemma match_tracks_entries dets now orig :
  forall todo s matched,
    NoDup (Dict.keys todo) ->
    (forall kv, In kv todo -> In kv orig) ->
    (forall k tr',
        In (k, tr') (tracks s) ->
        In (k, tr') todo
        \/ (~ In k (Dict.keys todo)
            /\ exists tr, In (k, tr) orig
                          /\ kept_or_matched dets now tr tr')) ->
    forall k tr',
      In (k, tr') (tracks (fst (match_tracks todo dets now s matched))) ->
      exists tr, In (k, tr) orig /\ kept_or_matched dets now tr tr'.
Proof.
  induction todo as [|[tid track] rest IH]; intros s matched Hn Hsub Inv.
  - cbn [match_tracks fst]. intros k tr' Hin.
    destruct (Inv k tr' Hin) as [[]|[_ H]]. exact H.
  - cbn [Dict.keys map fst] in Hn. inversion Hn as [|? ? Hnot Hn']; subst.
    assert (Hsub' : forall kv, In kv rest -> In kv orig)
      by (intros kv H; apply Hsub; now right).
    (* what the state holds once this track has been visited *)
    assert (Hvisited : forall k tr',
               In (k, tr') (tracks s) ->
               In (k, tr') rest
               \/ (~ In k (Dict.keys rest)
                   /\ exists tr, In (k, tr) orig
                                 /\ kept_or_matched dets now tr tr')).
    { intros k tr' Hin. destruct (Inv k tr' Hin) as [[E|H]|[Hk H]].
      - inversion E; subst. right. split; [exact Hnot|].
        exists tr'. split; [apply Hsub; now left | now left].
      - now left.
      - right. split; [|exact H]. intros Hin'. apply Hk. now right. }
    cbn [match_tracks].
    destruct (Deque.last (positions track)) as [last_pos|e] eqn:El;
      [|apply (IH s matched Hn' Hsub' Hvisited)].
    destruct (closest (center last_pos) matched (enumerate dets) inf None)
      as [[best det]|] eqn:Ec.
    + apply IH; [exact Hn' | exact Hsub'|].
      intros k tr' Hin. unfold _update_track, with_tracks in Hin.
      cbn [tracks] in Hin. apply DictFacts.in_update in Hin.
      destruct Hin as [v0 [Hin [E|[Ek E]]]].
      * subst. apply Hvisited, Hin.
      * subst k. right. split; [exact Hnot|].
        assert (Ev : v0 = track).
        { destruct (Inv tid v0 Hin) as [[E0|H]|[Hk _]].
          - inversion E0. reflexivity.
          - elim Hnot. eapply DictFacts.in_keys, H.
          - elim Hk. now left. }
        subst v0. exists track. split; [apply Hsub; now left|].
        right. exists det. apply UpdateFacts.closest_some in Ec.
        destruct Ec as [Hnth [_ [_ Hr]]].
        split; [eapply nth_error_In, Hnth|].
        split; [exists last_pos; split; [exact El | exact Hr]|].
        exact E.
    + destruct (gtb _ _).
      * apply IH; [exact Hn' | exact Hsub'|].
        intros k tr' Hin. cbn [with_tracks tracks] in Hin.
        apply DictFacts.in_del in Hin. apply Hvisited, Hin.
      * apply (IH s matched Hn' Hsub' Hvisited).
Qed.

(** The matching loop removes stale tracks only. *)
Lemma match_tracks_removes dets now orig timeout :
  NoDup (Dict.keys orig) ->
  forall todo s matched,
    (forall kv, In kv todo -> In kv orig) ->
    max_disappeared s = timeout ->
    (forall k tr, In (k, tr) orig ->
                  In k (track_ids s) \/ stale timeout now tr) ->
    forall k tr,
      In (k, tr) orig ->
      In k (track_ids (fst (match_tracks todo dets now s matched)))
      \/ stale timeout now tr.
Proof.
  intros Hn. induction todo as [|[tid track] rest IH];
    intros s matched Hsub Ht Inv; [exact Inv|].
  assert (Hsub' : forall kv, In kv rest -> In kv orig)
    by (intros kv H; apply Hsub; now right).
  cbn [match_tracks].
  destruct (Deque.last (positions track)) as [last_pos|e] eqn:El;
    [|apply (IH s matched Hsub' Ht Inv)].
  destruct (closest (center last_pos) matched (enumerate dets) inf None)
    as [[best det]|].
  - apply IH; [exact Hsub' | exact Ht|].
    intros k tr Hin. unfold track_ids, _update_track, with_tracks.
    cbn [tracks]. rewrite DictFacts.keys_update. apply Inv, Hin.
  - destruct (gtb (sub now (last_seen track)) (max_disappeared s)) eqn:Eg;
      [|apply (IH s matched Hsub' Ht Inv)].
    apply IH; [exact Hsub' | exact Ht|].
    intros k tr Hin. destruct (Inv k tr Hin) as [Hk|Hs]; [|now right].
    destruct (Z.eq_dec k tid) as [->|Hne].
    + right.
      assert (tr = track)
        by (eapply in_keys_unique; [exact Hn | exact Hin |
                                    apply Hsub; now left]).
      subst tr. split; [rewrite <- Ht; exact Eg|].
      unfold Deque.last, Deque.len in *. rewrite <- length_rev.
      destruct (rev (Deque.items (positions track)));
        [discriminate | cbn [length]; lia].
    + left. unfold track_ids, with_tracks, Dict.del in *. cbn [tracks].
      unfold Dict.keys in *. apply in_map_iff in Hk.
      destruct Hk as [[k' v] [E Hk]]. cbn [fst] in E. subst k'.
      apply in_map_iff. exists (k, v). split; [reflexivity|].
      apply filter_In. split; [exact Hk|]. cbn [fst].
      apply negb_true_iff, Z.eqb_neq, Hne.
Qed.

(** ** The tracks created by the call *)

Lemma create_unmatched_entries dets now l matched :
  (forall i d, In (i, d) l -> In d dets) ->
  forall s0 s,
    max_history s = max_history s0 ->
    next_id s0 <= next_id s ->
    forall k tr,
      In (k, tr) (tracks (create_unmatched l matched now s)) ->
      In (k, tr) (tracks s)
      \/ (next_id s0 <= k /\ exists d, In d dets /\ tr = fresh_track s0 d now).
Proof.
  induction l as [|[i d] l IH]; intros Hl s0 s Hm Hle k tr Hin;
    [now left|].
  cbn [create_unmatched] in Hin.
  assert (Hl' : forall i d, In (i, d) l -> In d dets)
    by (intros i' d' H; apply (Hl i' d'); now right).
  destruct (mem i matched); [apply (IH Hl' s0 s Hm Hle k tr Hin)|].
  destruct (IH Hl' s0 (_create_track s d now) Hm
              ltac:(cbn [_create_track next_id]; lia) k tr Hin)
    as [H|H]; [|now right].
  cbn [_create_track tracks] in H. apply DictFacts.in_set in H.
  destruct H as [[Ek Et]|H]; [|now left].
  right. split; [lia|]. exists d. split; [apply (Hl i d); now left|].
  subst tr. unfold fresh_track. rewrite Hm. reflexivity.
Qed.

Lemma create_all_entries dets now l :
  (forall d, In d l -> In d dets) ->
  forall s0 s,
    max_history s = max_history s0 ->
    next_id s0 <= next_id s ->
    forall k tr,
      In (k, tr)
         (tracks (fold_left (fun s det => _create_track s det now) l s)) ->
      In (k, tr) (tracks s)
      \/ (next_id s0 <= k /\ exists d, In d dets /\ tr = fresh_track s0 d now).
Proof.
  induction l as [|d l IH]; intros Hl s0 s Hm Hle k tr Hin; [now left|].
  cbn [fold_left] in Hin.
  destruct (IH ltac:(intros d' H; apply Hl; now right) s0
              (_create_track s d now) Hm
              ltac:(cbn [_create_track next_id]; lia) k tr Hin)
    as [H|H]; [|now right].
  cbn [_create_track tracks] in H. apply DictFacts.in_set in H.
  destruct H as [[Ek Et]|H]; [|now left].
  right. split; [lia|]. exists d. split; [apply Hl; now left|].
  subst tr. unfold fresh_track. rewrite Hm. reflexivity.
Qed.

(** Every track after a call, by where it comes from. *)
Lemma update_entries s dets now :
  NoDup (track_ids s) ->
  forall k tr',
    In (k, tr') (tracks (fst (update s dets now))) ->
    (exists tr, In (k, tr) (tracks s) /\ kept_or_matched dets now tr tr')
    \/ (next_id s <= k /\ exists d, In d dets /\ tr' = fresh_track s d now).
Proof.
  intros Hn k tr' Hin. destruct (UpdateFacts.nil_or_not dets) as [E|E].
  - subst dets. rewrite UpdateFacts.update_state_nil in Hin.
    cbn [with_tracks tracks] in Hin. apply filter_In in Hin.
    left. exists tr'. split; [exact (proj1 Hin) | now left].
  - rewrite (UpdateFacts.update_state_cons s dets now E) in Hin.
    destruct (tracks s) as [|kv rest] eqn:Et.
    + destruct (create_all_entries dets now dets (fun d H => H) s s
                  eq_refl ltac:(lia) k tr' Hin) as [H|H]; [|now right].
      rewrite Et in H. destruct H.
    + rewrite <- Et in *.
      pose proof (TrackerFacts.match_tracks_shrinks (tracks s) dets now s [])
        as [[Hc _] [En _]].
      destruct (create_unmatched_entries dets now (enumerate dets)
                  (snd (match_tracks (tracks s) dets now s []))
                  ltac:(intros i d H; apply MatchFacts.in_enumerate in H;
                        eapply nth_error_In, H)
                  (fst (match_tracks (tracks s) dets now s []))
                  (fst (match_tracks (tracks s) dets now s []))
                  eq_refl ltac:(lia) k tr' Hin) as [H|[Hk [d [Hd Ht]]]].
      * left.
        apply (match_tracks_entries dets now (tracks s) (tracks s) s []
                 Hn (fun kv H => H)); [|exact H].
        intros k0 tr0 H0. now left.
      * right. rewrite En in Hk. split; [exact Hk|].
        exists d. split; [exact Hd|]. rewrite Ht. unfold fresh_track.
        rewrite Hc. reflexivity.
Qed.

End LifecycleFacts.

Section LifecycleProperties.

Import VehicleTracker.

(** X11.  In every call of [update] the matching loop assigns each
    detection to at most one track and each track at most one detection:
    the matched indices are distinct indices of the frame's detections,
    no more of them than there are tracks; and every other detection
    starts exactly one track, so [next_id] advances by the number of
    detections minus the number matched. *)
Theorem update_assigns_each_detection_once
    (self : t) (detections : list Detection) (now : float) :
  let m := matched_in_call self detections now in
  NoDup m
  /\ (forall i, In i m -> (i < length detections)%nat)
  /\ (length m <= length (tracks self))%nat
  /\ next_id (fst (update self detections now))
     = next_id self + Z.of_nat (length detections - length m).
Proof.
  intros m.
  assert (Hm : NoDup m /\ (forall i, In i m -> (i < length detections)%nat)
               /\ (length m <= length (tracks self))%nat).
  { unfold m, matched_in_call. destruct (tracks self) as [|kv rest] eqn:Et.
    - split; [constructor|]. split; [intros i []|cbn; lia].
    - rewrite <- Et.
      destruct (LifecycleFacts.match_tracks_matched detections now
                  (tracks self) self [] ltac:(constructor)
                  ltac:(intros i [])) as [A [B C]].
      cbn [length] in C. repeat split; auto. }
  destruct Hm as [Hn [Hb Hl]].
  split; [exact Hn|]. split; [exact Hb|]. split; [exact Hl|].
  destruct (UpdateFacts.nil_or_not detections) as [E|E].
  - assert (Em : m = []).
    { destruct m as [|i m']; [reflexivity|].
      pose proof (Hb i (or_introl eq_refl)) as H. rewrite E in H.
      cbn in H. lia. }
    rewrite Em, E. cbn. lia.
  - rewrite (UpdateFacts.update_state_cons self detections now E).
    unfold m, matched_in_call in *.
    destruct (tracks self) as [|kv rest] eqn:Et.
    + rewrite UpdateFacts.create_all_next_id. cbn [length]. lia.
    + rewrite <- Et in *.
      rewrite LifecycleFacts.create_unmatched_next_id.
      rewrite (LifecycleFacts.unmatched_count detections _ Hn Hb).
      pose proof (TrackerFacts.match_tracks_shrinks (tracks self)
                    detections now self []) as [_ [En _]].
      rewrite En. reflexivity.
Qed.

(** X12.  After a call of [update] on a tracker whose identifiers are
    below [next_id], every live track is one of three things: a track
    live before the call, under the same identifier and unchanged; such
    a track matched, its history appended with the box of a detection of
    the frame less than 100 pixels from its last centre, its timestamp
    set to the call's, its confidence to the detection's and its class
    kept; or, under an identifier at or above the old [next_id], a
    fresh track made of one detection of the frame. *)
Theorem update_tracks_kept_matched_or_fresh
    (self : t) (detections : list Detection) (now : float)
    (k : Z) (tr' : Track) :
  ids_below_next self ->
  In (k, tr') (tracks (fst (update self detections now))) ->
  (k < next_id self
   /\ exists tr,
       In (k, tr) (tracks self)
       /\ kept_or_matched detections now tr tr')
  \/ (next_id self <= k
      /\ exists d, In d detections /\ tr' = fresh_track self d now).
Proof.
  intros [Hn Hlt] Hin.
  destruct (LifecycleFacts.update_entries self detections now Hn k tr' Hin)
    as [[tr [H1 H2]]|H]; [|now right].
  left. split; [|exists tr; split; assumption].
  apply Hlt. unfold track_ids. eapply DictFacts.in_keys, H1.
Qed.

(** X13.  A call of [update] with at least one detection removes a track
    only if the track has a history and was last seen strictly more
    than the timeout before the call: a track idle for exactly the
    timeout, which a call without detections removes, survives a call
    with detections. *)
Theorem update_removes_only_stale
    (self : t) (detections : list Detection) (now : float)
    (k : Z) (tr : Track) :
  NoDup (track_ids self) ->
  detections <> [] ->
  In (k, tr) (tracks self) ->
  ~ In k (track_ids (fst (update self detections now))) ->
  stale (max_disappeared self) now tr.
Proof.
  intros Hn Hne Hin Hgone.
  rewrite (UpdateFacts.update_state_cons self detections now Hne) in Hgone.
  destruct (tracks self) as [|kv rest] eqn:Et; [destruct Hin|].
  rewrite <- Et in *.
  destruct (LifecycleFacts.match_tracks_removes detections now (tracks self)
              (max_disappeared self) Hn (tracks self) self []
              (fun kv H => H) eq_refl
              ltac:(intros k0 tr0 H0; left; unfold track_ids;
                    eapply DictFacts.in_keys, H0)
              k tr Hin) as [Hk|Hs]; [|exact Hs].
  elim Hgone.
  apply (TrackerFacts.create_unmatched_grows (enumerate detections)
           (snd (match_tracks (tracks self) detections now self [])) now
           (fst (match_tracks (tracks self) detections now self []))).
  left. exact Hk.
Qed.

End LifecycleProperties.

(* ================================================================== *)
(** * The velocity of a matched track *)
(* ================================================================== *)

Module VelocityFacts.

Import VehicleTracker.

Lemma rev_keep_last n (l : list BBox) :
  rev (Deque.keep_last n l) = firstn (Nat.min n (length l)) (rev l).
Proof.
  unfold Deque.keep_last. rewrite firstn_rev. f_equal. f_equal. lia.
Qed.

(** Appending to a history that has a last box, at capacity 2 or more:
    the new box is last and the old last box is the one before it. *)
Lemma append_last2 (d : Deque.t) (x last_pos : BBox) :
  (2 <= Deque.maxlen d)%nat ->
  Deque.last d = OK last_pos ->
  Deque.last (Deque.append d x) = OK x
  /\ Deque.last2 (Deque.append d x) = OK last_pos
  /\ (2 <= Deque.len (Deque.append d x))%nat.
Proof.
  intros Hm Hl. unfold Deque.last, Deque.last2, Deque.len, Deque.append in *.
  cbn [Deque.items]. rewrite <- (length_rev (Deque.keep_last _ _)).
  rewrite rev_keep_last, rev_unit, length_app. cbn [length].
  destruct (rev (Deque.items d)) as [|y r] eqn:Er; [discriminate|].
  inversion Hl; subst y.
  assert (El : length (Deque.items d) = S (length r))
    by (rewrite <- length_rev, Er; reflexivity).
  rewrite El.
  destruct (Nat.min (Deque.maxlen d) (S (length r) + 1)) as [|[|n]] eqn:En;
    try lia.
  cbn [firstn length]. repeat split; lia.
Qed.

Lemma Forall2_in_l {A B} (R : A -> B -> Prop) l l' a :
  Forall2 R l l' -> In a l -> exists b, In b l' /\ R a b.
Proof.
  induction 1 as [|x y l l' Hxy HF IH]; intros Hin; [destruct Hin|].
  destruct Hin as [E|Hin].
  - subst. exists y. split; [now left | exact Hxy].
  - destruct (IH Hin) as [b [Hb Hr]]. exists b. split; [now right | exact Hr].
Qed.

(** On a tracker of capacity at least 1 a call with detections reports
    one vehicle per live track. *)
Lemma update_reports mh cs dets now :
  dets <> [] ->
  exists vs,
    snd (update (run (__init__ (S mh)) cs) dets now) = OK vs
    /\ Forall2 reports
         (tracks (fst (update (run (__init__ (S mh)) cs) dets now))) vs.
Proof.
  intros Hne.
  assert (Hu : all_tracks (history_in_use (S mh))
                 (fst (update (run (__init__ (S mh)) cs) dets now))).
  { apply UpdateFacts.update_history_in_use;
      [apply RunFacts.run_max_history | apply UpdateFacts.run_history_in_use]. }
  destruct (UpdateFacts.tracked_of_reports
              (tracks (fst (update (run (__init__ (S mh)) cs) dets now))))
    as [vs [Hvs HF]].
  { intros k tr Hin. exact (proj2 (Hu k tr Hin)). }
  exists vs. split; [|exact HF].
  destruct dets as [|d ds]; [contradiction | exact Hvs].
Qed.

End VelocityFacts.

Section VelocityProperties.

Import VehicleTracker.

(** X14.  On a tracker of capacity at least 2, after any sequence of
    calls: when a call of [update] matches a track with a detection, the
    vehicle it reports for that track has the detection's box as its box
    and, as velocity, the displacement of the centre from the track's
    previous last box to the detection's box. *)
Theorem update_matched_velocity
    (mh : nat) (cs : list call) (detections : list Detection) (now : float)
    (vs : list TrackedVehicle) (k : Z) (tr : Track) (d : Detection)
    (last_pos : BBox) :
  let self := run (__init__ (S (S mh))) cs in
  snd (update self detections now) = OK vs ->
  detections <> [] ->
  In (k, tr) (tracks self) ->
  Deque.last (positions tr) = OK last_pos ->
  In (k, updated_track tr d now)
     (tracks (fst (update self detections now))) ->
  exists v,
    In v vs
    /\ tv_id v = k
    /\ tv_bbox v = det_bbox d
    /\ tv_velocity v = displacement last_pos (det_bbox d)
    /\ tv_class v = class tr.
Proof.
  intros self Hvs Hne Hin Hlast Hin'.
  destruct (VelocityFacts.update_reports (S mh) cs detections now Hne)
    as [vs' [Hvs' HF]].
  fold self in Hvs', HF. rewrite Hvs in Hvs'. inversion Hvs'; subst vs'.
  destruct (VelocityFacts.Forall2_in_l _ _ _ _ HF Hin') as [v [Hv Hr]].
  exists v. split; [exact Hv|].
  destruct Hr as [Hid [Hcl [_ [Hl [_ H2]]]]]. cbn [fst snd] in *.
  assert (Hb : histories_bounded self)
    by apply RunFacts.run_histories_bounded, RunFacts.init_histories_bounded.
  destruct (Hb k tr Hin) as [Hmax _].
  assert (Hcap : (2 <= Deque.maxlen (positions tr))%nat).
  { rewrite Hmax. unfold self. rewrite RunFacts.run_max_history.
    cbn [__init__ max_history]. lia. }
  destruct (VelocityFacts.append_last2 (positions tr) (det_bbox d) last_pos
              Hcap Hlast) as [A [B C]].
  unfold updated_track in Hl, H2. cbn [positions class] in *.
  rewrite A in Hl. inversion Hl as [Hbox].
  destruct (H2 C) as [_ [prev [Hp Hvel]]].
  rewrite B in Hp. inversion Hp; subst prev.
  split; [exact Hid|]. split; [reflexivity|].
  split; [rewrite Hvel, <- Hbox; reflexivity | exact Hcl].
Qed.

End VelocityProperties.

(* ================================================================== *)
(** * Side views *)
(* ================================================================== *)

Module SplitFacts.

Import VideoSimulator.

Section WithPixel.

Variable Pixel : Type.

Lemma slice_recombines {A} (c : Z) (row : list A) :
  slice_to c row ++ slice_from c row = row.
Proof. apply firstn_skipn. Qed.

Lemma slice_index_half (n : nat) :
  slice_index (Z.of_nat n / 2) n = Z.to_nat (Z.of_nat n / 2).
Proof.
  unfold slice_index.
  assert (H : 0 <= Z.of_nat n / 2 <= Z.of_nat n).
  { split; [apply Z.div_pos; lia|].
    apply Z.div_le_upper_bound; lia. }
  destruct (Z.ltb_spec (Z.of_nat n / 2) 0) as [Hlt|_]; [lia|].
  rewrite Z.min_l by lia. reflexivity.
Qed.

(** The loop when the frame count is not zero: it never raises. *)
Lemma loop_total_nonzero c total :
  total <> 0 ->
  forall frames n wl wr,
    loop Pixel c total frames n wl wr
    = (wl ++ map (left_half Pixel c) frames,
       wr ++ map (right_half Pixel c) frames,
       OK (n + Z.of_nat (length frames))).
Proof.
  intros Ht. induction frames as [|f rest IH]; intros n wl wr.
  - cbn [loop map length]. rewrite !app_nil_r. f_equal. f_equal. lia.
  - cbn [loop]. unfold int_truediv.
    destruct (Z.eqb_spec total 0) as [E|_]; [contradiction|].
    assert (Hs : loop Pixel c total rest (n + 1)
                   (wl ++ [left_half Pixel c f])
                   (wr ++ [right_half Pixel c f])
                 = (wl ++ map (left_half Pixel c) (f :: rest),
                    wr ++ map (right_half Pixel c) (f :: rest),
                    OK (n + Z.of_nat (length (f :: rest))))).
    { rewrite IH. cbn [map length]. rewrite <- !app_assoc. cbn [app].
      f_equal. f_equal. lia. }
    destruct (_ =? 0); exact Hs.
Qed.

(** The loop when the frame count is zero, from a count [n]: it raises
    at the first multiple of 30 it reaches. *)
Lemma loop_total_zero c :
  forall frames n wl wr,
    0 <= n ->
    loop Pixel c 0 frames n wl wr
    = if Z.of_nat (length frames) <? 30 - n mod 30 then
        (wl ++ map (left_half Pixel c) frames,
         wr ++ map (right_half Pixel c) frames,
         OK (n + Z.of_nat (length frames)))
      else
        (wl ++ map (left_half Pixel c)
                   (firstn (Z.to_nat (30 - n mod 30)) frames),
         wr ++ map (right_half Pixel c)
                   (firstn (Z.to_nat (30 - n mod 30)) frames),
         Raise ZeroDivisionError).
Proof.
  induction frames as [|f rest IH]; intros n wl wr Hn.
  - cbn [loop map length].
    pose proof (Z.mod_pos_bound n 30 ltac:(lia)) as Hb.
    destruct (Z.ltb_spec (Z.of_nat 0) (30 - n mod 30)) as [_|H]; [|lia].
    rewrite !app_nil_r. f_equal. f_equal. lia.
  - cbn [loop]. unfold int_truediv. cbn [Z.eqb].
    pose proof (Z.mod_pos_bound n 30 ltac:(lia)) as Hb.
    pose proof (Z.mod_pos_bound (n + 1) 30 ltac:(lia)) as Hb'.
    assert (Hstep : (n mod 30 = 29 /\ (n + 1) mod 30 = 0)
                    \/ (n mod 30 < 29 /\ (n + 1) mod 30 = n mod 30 + 1)).
    { pose proof (Z.div_mod n 30 ltac:(lia)) as D.
      destruct (Z.eq_dec (n mod 30) 29) as [E|E].
      - left. split; [exact E|].
        replace (n + 1) with (0 + (n / 30 + 1) * 30) by lia.
        rewrite Z.mod_add by lia. reflexivity.
      - right. split; [lia|].
        replace (n + 1) with ((n mod 30 + 1) + (n / 30) * 30) by lia.
        rewrite Z.mod_add by lia. apply Z.mod_small. lia. }
    destruct Hstep as [[E1 E2]|[E1 E2]].
    + (* this frame brings the count to a multiple of 30 *)
      rewrite E2, E1. cbn [Z.eqb].
      destruct (Z.ltb_spec (Z.of_nat (length (f :: rest))) (30 - 29))
        as [H|_]; [cbn [length] in H; lia|].
      change (Z.to_nat (30 - 29)) with 1%nat. cbn [firstn map].
      reflexivity.
    + destruct (Z.eqb_spec ((n + 1) mod 30) 0) as [E|_]; [lia|].
      rewrite IH by lia. rewrite E2. cbn [length].
      destruct (Z.ltb_spec (Z.of_nat (length rest)) (30 - (n mod 30 + 1)))
        as [H|H];
        destruct (Z.ltb_spec (Z.of_nat (S (length rest))) (30 - n mod 30))
          as [H'|H']; try lia.
      * cbn [map]. rewrite <- !app_assoc. cbn [app].
        f_equal. f_equal. lia.
      * replace (Z.to_nat (30 - n mod 30))
          with (S (Z.to_nat (30 - (n mod 30 + 1)))) by lia.
        cbn [firstn map]. rewrite <- !app_assoc. reflexivity.
Qed.

End WithPixel.

End SplitFacts.

Section SplitProperties.

Import VideoSimulator.

Variable Pixel : Type.

(** X15.  For every crop width, negative or beyond the frame included,
    the two side views put back together row by row are the frame, and
    each has as many rows as the frame.  With the crop width
    [width // 2] of the conversion and rows [width] pixels wide, the rows
    of the left view are [width // 2] wide and those of the right view
    [width - width // 2] wide. *)
Theorem side_views_recombine (crop_width : Z) (frame : Image Pixel) :
  recombine (left_half Pixel crop_width frame)
            (right_half Pixel crop_width frame) = frame
  /\ length (left_half Pixel crop_width frame) = length frame
  /\ length (right_half Pixel crop_width frame) = length frame
  /\ forall width : nat,
      crop_width = Z.of_nat width / 2 ->
      Forall (fun row => length row = width) frame ->
      Forall (fun row => Z.of_nat (length row) = crop_width)
             (left_half Pixel crop_width frame)
      /\ Forall (fun row => Z.of_nat (length row)
                            = Z.of_nat width - crop_width)
                (right_half Pixel crop_width frame).
Proof.
  unfold recombine, left_half, right_half.
  split; [|split; [apply length_map | split; [apply length_map|]]].
  - induction frame as [|row rest IH]; [reflexivity|].
    cbn [map combine fst snd]. rewrite SplitFacts.slice_recombines, IH.
    reflexivity.
  - intros width Hc Hw.
    assert (H0 : 0 <= Z.of_nat width / 2 <= Z.of_nat width).
    { split; [apply Z.div_pos; lia|].
      apply Z.div_le_upper_bound; lia. }
    split; apply Forall_map; (eapply Forall_impl; [|exact Hw]);
      intros row Hr; cbn beta; unfold slice_to, slice_from;
      rewrite Hr, Hc, (SplitFacts.slice_index_half width).
    + rewrite length_firstn, Hr. lia.
    + rewrite length_skipn, Hr. lia.
Qed.

(** X16.  A conversion whose source and writers open: with a frame count
    other than 0, or with fewer than 30 frames, it writes both halves of
    every frame, in order, releases its resources and returns true; with
    a reported frame count of 0 and at least 30 frames it raises
    [ZeroDivisionError] when it reaches frame 30, having written the
    first 30 frames, and releases nothing.  When the source or a writer
    does not open it writes nothing, releases nothing and returns
    false. *)
Theorem create_side_view_simulation_outcome
    (width height total_frames : Z) (frames : list (Image Pixel)) :
  let run opened writers :=
    create_side_view_simulation Pixel opened width height total_frames
      writers frames in
  let crop_width := width / 2 in
  (forall opened writers,
      writer_size Pixel (run opened writers) = (crop_width, height))
  /\ (forall opened writers,
         opened = false \/ writers = false ->
         result Pixel (run opened writers) = OK false
         /\ released Pixel (run opened writers) = false
         /\ written_left Pixel (run opened writers) = []
         /\ written_right Pixel (run opened writers) = [])
  /\ (total_frames <> 0 \/ (length frames < 30)%nat ->
      result Pixel (run true true) = OK true
      /\ released Pixel (run true true) = true
      /\ written_left Pixel (run true true)
         = map (left_half Pixel crop_width) frames
      /\ written_right Pixel (run true true)
         = map (right_half Pixel crop_width) frames)
  /\ (total_frames = 0 -> (30 <= length frames)%nat ->
      result Pixel (run true true) = Raise ZeroDivisionError
      /\ released Pixel (run true true) = false
      /\ written_left Pixel (run true true)
         = map (left_half Pixel crop_width) (firstn 30 frames)
      /\ written_right Pixel (run true true)
         = map (right_half Pixel crop_width) (firstn 30 frames)).
Proof.
  intros run crop_width. unfold run, create_side_view_simulation.
  fold crop_width.
  split; [|split; [|split]].
  - intros [|] [|]; cbn [negb]; try reflexivity.
    destruct (loop Pixel crop_width total_frames frames 0 [] [])
      as [[wl wr] [n|e]]; reflexivity.
  - intros opened writers [E|E]; subst; [|destruct opened];
      cbn [negb]; repeat split; reflexivity.
  - intros H. cbn [negb].
    assert (E : loop Pixel crop_width total_frames frames 0 [] []
                = (map (left_half Pixel crop_width) frames,
                   map (right_half Pixel crop_width) frames,
                   OK (Z.of_nat (length frames)))).
    { destruct (Z.eq_dec total_frames 0) as [E0|E0].
      - subst. rewrite SplitFacts.loop_total_zero by lia.
        change (30 - 0 mod 30) with 30.
        destruct (Z.ltb_spec (Z.of_nat (length frames)) 30) as [_|H'];
          [reflexivity|]. destruct H as [H|H]; [contradiction | lia].
      - rewrite (SplitFacts.loop_total_nonzero Pixel crop_width
                   total_frames E0). reflexivity. }
    rewrite E. repeat split; reflexivity.
  - intros E0 H. subst. cbn [negb].
    rewrite SplitFacts.loop_total_zero by lia.
    change (30 - 0 mod 30) with 30.
    destruct (Z.ltb_spec (Z.of_nat (length frames)) 30) as [H'|_]; [lia|].
    change (Z.to_nat 30) with 30%nat. repeat split; reflexivity.
Qed.

End SplitProperties.

(* ================================================================== *)
(** * The further properties on concrete inputs *)
(* ================================================================== *)

Lemma process_side_view_aggregates_witness :
  exists r,
    snd (AdvancedBlindSpotDetection.process_side_view unit
           AdvancedBlindSpotDetection.__init__ tt left Scenario.zone
           [Instances.det_at Instances.box_a] (of_int 10)) = OK r
    /\ AdvancedBlindSpotDetection.critical_detected r
       = existsb (has_level critical)
                 (AdvancedBlindSpotDetection.threat_vehicles r).
Proof.
  destruct (AdvancedBlindSpotDetection.process_side_view unit
              AdvancedBlindSpotDetection.__init__ tt left Scenario.zone
              [Instances.det_at Instances.box_a] (of_int 10))
    as [self' [r|e]] eqn:E.
  - exists r. split; [reflexivity|].
    destruct (process_side_view_aggregates unit _ _ _ _ _ _ _ _ E)
      as [vs [cs [_ [_ [_ [Hc _]]]]]].
    exact Hc.
  - vm_compute in E. discriminate.
Defined.

Lemma session_alerts_spaced_witness :
  exists out,
    snd (Session.process_single_camera unit
           AdvancedBlindSpotDetection.__init__ true 0 800 600 left
           MoreInstances.three_frames) = Some out
    /\ spaced (lit 15 10) (of_int 0) (alert_times (Session.processed out)).
Proof.
  destruct (Session.process_single_camera unit
              AdvancedBlindSpotDetection.__init__ true 0 800 600 left
              MoreInstances.three_frames) as [self' [out|]] eqn:E.
  - exists out. split; [reflexivity|].
    exact (proj1 (session_alerts_spaced unit _ _ _ _ _ _ _ _ _ E)).
  - vm_compute in E. discriminate.
Defined.

Lemma update_reports_every_track_witness :
  let self := run (VehicleTracker.__init__ 2) Instances.three_calls in
  let now := lit 103 10 in
  calls_in_range Instances.three_calls
  /\ detections_in_range [MoreInstances.det_near]
  /\ exists vs,
      snd (VehicleTracker.update self [MoreInstances.det_near] now) = OK vs
      /\ Forall2 reports
           (VehicleTracker.tracks
              (fst (VehicleTracker.update self [MoreInstances.det_near] now)))
           vs.
Proof.
  intros self now.
  assert (Hc : calls_in_range Instances.three_calls).
  { unfold calls_in_range, detections_in_range.
    repeat (apply Forall_cons || apply Forall_nil || split); discriminate. }
  assert (Hd : detections_in_range [MoreInstances.det_near]).
  { unfold detections_in_range.
    repeat (apply Forall_cons || apply Forall_nil || split); discriminate. }
  split; [exact Hc|]. split; [exact Hd|].
  destruct (update_reports_every_track 1 Instances.three_calls
              [MoreInstances.det_near] now Hc Hd) as [vs [H1 [_ H2]]].
  exists vs. split; [exact H1|]. apply H2. discriminate.
Defined.

Lemma update_capacity_zero_raises_witness :
  snd (VehicleTracker.update (run (VehicleTracker.__init__ 0) [])
         [MoreInstances.det_near] (of_int 10)) = Raise IndexError.
Proof.
  refine (proj1 (update_capacity_zero_raises [] [MoreInstances.det_near]
                   (of_int 10) _)).
  discriminate.
Defined.

Lemma update_tracks_kept_matched_or_fresh_witness :
  let self := Instances.one_track in
  let now := lit 101 10 in
  let tr' := updated_track MoreInstances.track_a MoreInstances.det_near now in
  In (0, tr')
     (VehicleTracker.tracks
        (fst (VehicleTracker.update self [MoreInstances.det_near] now)))
  /\ ((0 < VehicleTracker.next_id self
       /\ exists tr,
           In (0, tr) (VehicleTracker.tracks self)
           /\ kept_or_matched [MoreInstances.det_near] now tr tr')
      \/ (VehicleTracker.next_id self <= 0
          /\ exists d,
              In d [MoreInstances.det_near]
              /\ tr' = fresh_track self d now)).
Proof.
  intros self now tr'.
  assert (Hids : ids_below_next self).
  { split.
    - constructor; [intros [] | constructor].
    - intros k [E|[]]. subst. reflexivity. }
  assert (Hin : In (0, tr')
                  (VehicleTracker.tracks
                     (fst (VehicleTracker.update self
                             [MoreInstances.det_near] now))))
    by (vm_compute; left; reflexivity).
  split; [exact Hin|].
  exact (update_tracks_kept_matched_or_fresh self [MoreInstances.det_near]
           now 0 tr' Hids Hin).
Defined.

Lemma update_removes_only_stale_witness :
  let self := Instances.two_tracks in
  let now := lit 1075 100 in
  track_ids (fst (VehicleTracker.update self [MoreInstances.det_far] now))
  = [1; 2]
  /\ stale (of_int 1) now MoreInstances.track_old.
Proof.
  intros self now. split; [vm_compute; reflexivity|].
  apply (update_removes_only_stale self [MoreInstances.det_far] now 0
           MoreInstances.track_old).
  - constructor; [intros [H|[]]; discriminate|].
    constructor; [intros [] | constructor].
  - discriminate.
  - left. reflexivity.
  - vm_compute. intros [H|[H|[]]]; discriminate.
Defined.

Lemma update_matched_velocity_witness :
  exists vs v,
    snd (VehicleTracker.update MoreInstances.seen_once
           [MoreInstances.det_left] (lit 101 10)) = OK vs
    /\ In v vs
    /\ tv_velocity v = (of_int (-30), of_int 0).
Proof.
  destruct (snd (VehicleTracker.update MoreInstances.seen_once
                   [MoreInstances.det_left] (lit 101 10)))
    as [vs|e] eqn:E.
  - destruct (update_matched_velocity 0 [([Instances.det_at Instances.box_a],
                                          of_int 10)]
                [MoreInstances.det_left] (lit 101 10) vs 0
                (mkTrack (Deque.make [Instances.box_a] 2) (of_int 10) 2
                         (lit 9 10))
                MoreInstances.det_left Instances.box_a E)
      as [v [Hv [_ [_ [Hvel _]]]]].
    + discriminate.
    + vm_compute. left. reflexivity.
    + reflexivity.
    + vm_compute. left. reflexivity.
    + exists vs, v. split; [reflexivity|]. split; [exact Hv|].
      rewrite Hvel. vm_compute. reflexivity.
  - vm_compute in E. discriminate.
Defined.
